(** * denali-cli blueprints: a shallow embedding of [src/blueprint.ts]

    The development follows the source file top to bottom: blueprint
    discovery and configuration, template materialisation ([generate]),
    destruction ([destroy]) and the routes-file patcher ([addRoute],
    [removeRoute]).

    Libraries the source calls (lodash's [template], jscodeshift, the
    JavaScript engine that runs template expressions, node's [path]) are
    not part of the repository.  Their documented behaviour is modelled
    where a property depends on it (delimiter scanning of [_.template],
    [matchNode], [insertAfter]); what stays open (evaluating a JavaScript
    expression, parsing and printing source text, joining paths) is a
    [Variable] of the enclosing section. *)

From stdpp Require Import gmap strings list fin_maps.
From Stdlib Require Import String Ascii.

Local Open Scope string_scope.

(** ** JavaScript values and results *)

(** The values that can be thrown, logged or stored in a syntax-tree leaf.
    [VError stack] is an [Error]-like object with its [stack] property. *)
Inductive jsval :=
| VUndefined
| VNull
| VBool (b : bool)
| VNum (n : Z)
| VStr (s : string)
| VError (stack : option string).

#[global] Instance jsval_eq_dec : EqDecision jsval.
Proof. solve_decision. Defined.

(** The outcome of a call: a value, or a thrown value (a rejected promise
    for the [async] methods). *)
Inductive result (A : Type) :=
| Ok (a : A)
| Throw (e : jsval).
Arguments Ok {A} a.
Arguments Throw {A} e.

(** A [TypeError], [ReferenceError] or [SyntaxError] raised by the engine. *)
Definition engineError : jsval := VError (Some "Error").

Definition of_option {A} (o : option A) : result A :=
  match o with
  | Some a => Ok a
  | None => Throw engineError
  end.

(** JavaScript truthiness of an optional string property. *)
Definition truthy (o : option string) : bool :=
  match o with
  | Some s => negb (String.eqb s "")
  | None => false
  end.

(** [String(x)] for an optional string property: a missing property reads
    as [undefined]. *)
Definition to_js_string (o : option string) : string :=
  match o with
  | Some s => s
  | None => "undefined"
  end.

(** ** lodash [_.template]: delimiter scanning *)

Module Lodash.

(** The [interpolate] option.  lodash enables the ES delimiter [${...}] only
    when [options.interpolate] is its own [reInterpolate] object, which is
    what a call without options gets; a regular expression literal written
    by the caller is another object, whatever its pattern. *)
Inductive interpolate :=
| ReInterpolate   (* the default, _.templateSettings.interpolate *)
| ErbLiteral      (* the literal of generate: the same pattern as the default *)
| NameLiteral.    (* the file name pattern of generate and destroy: two
                     underscores, one or more non-space characters (greedy),
                     two underscores *)

Inductive token :=
| TText (c : ascii)
| TEscape (e : string)
| TInterpolate (e : string)
| TEvaluate (code : string).

Fixpoint strip_prefix (p s : string) : option string :=
  match p, s with
  | EmptyString, _ => Some s
  | String a p', String b s' => if Ascii.eqb a b then strip_prefix p' s' else None
  | String _ _, EmptyString => None
  end.

(** The text up to the first [%>]. *)
Fixpoint until_close (s : string) : option string :=
  match s with
  | EmptyString => None
  | String c s' =>
      if String.prefix "%>" s then Some EmptyString
      else option_map (String c) (until_close s')
  end.

(** [([\s\S]+?)%>]: at least one character, then the first [%>]. *)
Definition lazy_body (s : string) : option string :=
  match s with
  | EmptyString => None
  | String c s' => option_map (String c) (until_close s')
  end.

(** A match of [open([\s\S]+?)%>] at the start of [s]: the captured group
    and the length of the whole match. *)
Definition match_erb (open : string) (s : string) : option (string * nat) :=
  match strip_prefix open s with
  | Some s' =>
      match lazy_body s' with
      | Some b => Some (b, String.length open + String.length b + 2)
      | None => None
      end
  | None => None
  end.

(** JavaScript's [\s], on the ASCII range. *)
Definition is_space (c : ascii) : bool :=
  match nat_of_ascii c with
  | 9 | 10 | 11 | 12 | 13 | 32 => true
  | _ => false
  end.

(** The longest prefix of non-space characters. *)
Fixpoint nonspace_run (s : string) : string :=
  match s with
  | EmptyString => EmptyString
  | String c s' => if is_space c then EmptyString else String c (nonspace_run s')
  end.

(** Greedy [([\S]+)__] inside a run of non-space characters: the longest
    non-empty [b] such that [b ++ "__"] is a prefix of the run. *)
Fixpoint greedy_body (r : string) : option string :=
  match r with
  | EmptyString => None
  | String c r' =>
      match greedy_body r' with
      | Some b => Some (String c b)
      | None => if String.prefix "__" r' then Some (String c EmptyString) else None
      end
  end.

Definition match_name (s : string) : option (string * nat) :=
  match strip_prefix "__" s with
  | Some s' =>
      match greedy_body (nonspace_run s') with
      | Some b => Some (b, String.length b + 4)
      | None => None
      end
  | None => None
  end.

(** JavaScript's [.] matches no line terminator. *)
Definition is_line_terminator (c : ascii) : bool :=
  match nat_of_ascii c with
  | 10 | 13 => true
  | _ => false
  end.

(** The group of lodash's [reEsTemplate] and the closing brace: characters
    other than a backslash and a brace, or a backslash with the character
    it escapes (no line terminator), up to the first unescaped brace. *)
Fixpoint es_body (s : string) : option string :=
  match s with
  | EmptyString => None
  | String c s' =>
      if Ascii.eqb c "}" then Some EmptyString
      else if Ascii.eqb c "\" then
        match s' with
        | EmptyString => None
        | String d s'' =>
            if is_line_terminator d then None
            else option_map (fun b => String c (String d b)) (es_body s'')
        end
      else option_map (String c) (es_body s')
  end.

Definition match_es (s : string) : option (string * nat) :=
  match strip_prefix "${" s with
  | Some s' =>
      match es_body s' with
      | Some b => Some (b, String.length b + 3)
      | None => None
      end
  | None => None
  end.

Definition match_interpolate (i : interpolate) (s : string) : option (string * nat) :=
  match i with
  | ReInterpolate | ErbLiteral => match_erb "<%=" s
  | NameLiteral => match_name s
  end.

Definition match_es_template (i : interpolate) (s : string) : option (string * nat) :=
  match i with
  | ReInterpolate => match_es s
  | ErbLiteral | NameLiteral => None
  end.

(** [reDelimiters] at one position: escape | interpolate | esTemplate |
    evaluate, the first alternative that matches. *)
Definition match_at (i : interpolate) (s : string) : option (token * nat) :=
  match match_erb "<%-" s with
  | Some (b, n) => Some (TEscape b, n)
  | None =>
  match match_interpolate i s with
  | Some (b, n) => Some (TInterpolate b, n)
  | None =>
  match match_es_template i s with
  | Some (b, n) => Some (TInterpolate b, n)
  | None =>
  match match_erb "<%" s with
  | Some (b, n) => Some (TEvaluate b, n)
  | None => None
  end end end end.

(** [string.replace(reDelimiters, ...)]: the leftmost match, then the scan
    resumes after it ([skip] characters of the match are still to pass). *)
Fixpoint scan (i : interpolate) (skip : nat) (s : string) : list token :=
  match s with
  | EmptyString => []
  | String c s' =>
      match skip with
      | S k => scan i k s'
      | O =>
          match match_at i s with
          | Some (t, n) => t :: scan i (Nat.pred n) s'
          | None => TText c :: scan i 0 s'
          end
      end
  end.

Definition tokenize (i : interpolate) (s : string) : list token := scan i 0 s.

(** [p] occurs in [s]. *)
Fixpoint mentions (p s : string) : bool :=
  match s with
  | EmptyString => String.prefix p EmptyString
  | String _ s' => String.prefix p s || mentions p s'
  end.

Definition is_evaluate (t : token) : bool :=
  match t with
  | TEvaluate _ => true
  | _ => false
  end.

Definition is_escape (t : token) : bool :=
  match t with
  | TEscape _ => true
  | _ => false
  end.

(** [_.escape]: the five HTML characters. *)
Definition escape_char (c : ascii) : string :=
  match nat_of_ascii c with
  | 38 => "&amp;"
  | 60 => "&lt;"
  | 62 => "&gt;"
  | 34 => "&quot;"
  | 39 => "&#39;"
  | _ => String c EmptyString
  end.

Fixpoint escape (s : string) : string :=
  match s with
  | EmptyString => EmptyString
  | String c s' => escape_char c ++ escape s'
  end.

Section Engine.

(** The locals data, and the engine: [evalExpr d e] is the string the
    compiled template appends for expression [e] evaluated in [with (d)]
    (empty for [null] and [undefined]), [None] when the evaluation throws.
    [runScript] runs a compiled template that contains evaluate blocks. *)
Variable Data : Type.
Variable evalExpr : Data -> string -> option string.
Variable runScript : Data -> list token -> option string.

(** A delimiter whose group is empty (only [${}] can be) adds nothing to
    the compiled source. *)
Fixpoint concat_tokens (d : Data) (ts : list token) : option string :=
  match ts with
  | [] => Some EmptyString
  | TText c :: ts' => option_map (String c) (concat_tokens d ts')
  | TInterpolate EmptyString :: ts' => concat_tokens d ts'
  | TInterpolate e :: ts' =>
      match evalExpr d e with
      | Some v => option_map (String.append v) (concat_tokens d ts')
      | None => None
      end
  | TEscape e :: ts' =>
      match evalExpr d e with
      | Some v => option_map (String.append (escape v)) (concat_tokens d ts')
      | None => None
      end
  | TEvaluate _ :: _ => None
  end.

Definition run (ts : list token) (d : Data) : option string :=
  if existsb is_evaluate ts then runScript d ts else concat_tokens d ts.

(** [template(string, { interpolate })(data)]. *)
Definition template (i : interpolate) (s : string) (d : Data) : option string :=
  run (tokenize i s) d.

End Engine.

End Lodash.

(** ** The world the methods run in *)

(** A loaded module or a blueprint class: the static properties the source
    reads and writes.  [default_export] is the [default] property of a
    module object (an ES module compiled to CommonJS); a class that is the
    module itself has none. *)
Record obj := {
  default_export : option nat;
  blueprintName : option string;
  addon : option string;
  dir : option string
}.

Inductive logEntry :=
| Info (label path : string)
| Warn (v : jsval)
| Error (v : jsval).

(** The disk outside the blueprint sources, by absolute path: [files]
    holds the regular files with their contents, [dirs] the directories.
    (On a disk no path is both; a path that [files] holds is read as a
    regular file.)  [heap]: the module and class objects, by address.
    [log]: what [ui] printed, oldest first. *)
Record World := {
  files : gmap string string;
  dirs : gset string;
  heap : gmap nat obj;
  log : list logEntry
}.

Definition set_files (f : gmap string string) (w : World) : World :=
  {| files := f; dirs := dirs w; heap := heap w; log := log w |}.
Definition set_dirs (d : gset string) (w : World) : World :=
  {| files := files w; dirs := d; heap := heap w; log := log w |}.
Definition set_heap (h : gmap nat obj) (w : World) : World :=
  {| files := files w; dirs := dirs w; heap := h; log := log w |}.
Definition add_log (e : logEntry) (w : World) : World :=
  {| files := files w; dirs := dirs w; heap := heap w; log := log w ++ [e] |}.

(** State and exceptions: the state survives a throw, as the effects of a
    JavaScript function do. *)
Definition M (A : Type) : Type := World -> World * result A.

Definition ret {A} (a : A) : M A := fun w => (w, Ok a).
Definition throw {A} (e : jsval) : M A := fun w => (w, Throw e).
Definition bind {A B} (m : M A) (k : A -> M B) : M B :=
  fun w =>
    match m w with
    | (w', Ok a) => k a w'
    | (w', Throw e) => (w', Throw e)
    end.
Definition lift {A} (r : result A) : M A := fun w => (w, r).
Definition try_catch {A} (m : M A) (handler : jsval -> M A) : M A :=
  fun w =>
    match m w with
    | (w', Ok a) => (w', Ok a)
    | (w', Throw e) => handler e w'
    end.

Notation "x <- m ;; k" := (bind m (fun x => k))
  (at level 90, m at level 80, right associativity).
Notation "m ;;; k" := (bind m (fun _ => k))
  (at level 90, right associativity).

Fixpoint forEach {A} (l : list A) (f : A -> M unit) : M unit :=
  match l with
  | [] => ret tt
  | x :: l' => f x ;;; forEach l' f
  end.

Fixpoint mmap {A B} (f : A -> M B) (l : list A) : M (list B) :=
  match l with
  | [] => ret []
  | x :: l' => y <- f x ;; ys <- mmap f l' ;; ret (y :: ys)
  end.

Fixpoint mfilter {A} (f : A -> M bool) (l : list A) : M (list A) :=
  match l with
  | [] => ret []
  | x :: l' => b <- f x ;; ys <- mfilter f l' ;; ret (if b then x :: ys else ys)
  end.

(** A computation that leaves the heap as it found it, however it ends. *)
Definition keepsHeap {A} (m : M A) : Prop :=
  forall w w' r, m w = (w', r) -> heap w' = heap w.

(** [fs], [mkdirp], [rimraf] and [ui].

    [fs.existsSync] is true of a regular file and of a directory.
    [fs.readFileSync] throws on a path that is missing ([ENOENT]) and on a
    directory ([EISDIR]).  [fs.writeFileSync] throws on a directory;
    the source calls it on a path it has just read, or whose parents
    [mkdirp] has just made, so that the parents are there. *)
Definition onDiskAt (w : World) (p : string) : bool :=
  bool_decide (is_Some (files w !! p)) || bool_decide (p ∈ dirs w).

Definition existsSync (p : string) : M bool :=
  fun w => (w, Ok (onDiskAt w p)).
Definition readFileSync (p : string) : M string :=
  fun w => (w, of_option (files w !! p)).
Definition writeFileSync (p contents : string) : M unit :=
  fun w =>
    if bool_decide (is_Some (files w !! p)) || negb (bool_decide (p ∈ dirs w))
    then (set_files (<[p := contents]> (files w)) w, Ok tt)
    else (w, Throw engineError).

(** [mkdirp.sync(d)], given [d] and the directories above it, nearest
    first: where one of them is a regular file the call throws ([EEXIST],
    [ENOTDIR]) and has made nothing; otherwise all of them are directories
    afterwards. *)
Definition mkdirp (chain : list string) : M unit :=
  fun w =>
    if existsb (fun d => bool_decide (is_Some (files w !! d))) chain
    then (w, Throw engineError)
    else (set_dirs (list_to_set chain ∪ dirs w) w, Ok tt).

(** [rimraf.sync(p)]: a regular file is unlinked (the path is gone); a
    directory is removed with all that is below it ([dirnames q] are the
    directories above [q]); a path that is not there is left alone. *)
Definition below (dirnames : string -> list string) (p q : string) : bool :=
  bool_decide (q = p) || bool_decide (p ∈ dirnames q).

Definition rimraf (dirnames : string -> list string) (p : string) : M unit :=
  fun w =>
    if bool_decide (is_Some (files w !! p))
    then ({| files := delete p (files w);
             dirs := dirs w ∖ {[ p ]};
             heap := heap w;
             log := log w |}, Ok tt)
    else if bool_decide (p ∈ dirs w)
    then ({| files := filter (fun kv => below dirnames p (fst kv) = false) (files w);
             dirs := filter (fun q => below dirnames p q = false) (dirs w);
             heap := heap w;
             log := log w |}, Ok tt)
    else (w, Ok tt).
Definition ui_info (label path : string) : M unit :=
  fun w => (add_log (Info label path) w, Ok tt).
Definition ui_warn (v : jsval) : M unit :=
  fun w => (add_log (Warn v) w, Ok tt).
Definition ui_error (v : jsval) : M unit :=
  fun w => (add_log (Error v) w, Ok tt).

(** [e.stack]: a [TypeError] on [null] and [undefined]; [undefined] on a
    value without the property. *)
Definition stack_of (e : jsval) : result jsval :=
  match e with
  | VUndefined | VNull => Throw engineError
  | VError (Some s) => Ok (VStr s)
  | VError None | VBool _ | VNum _ | VStr _ => Ok VUndefined
  end.

Definition js_truthy (v : jsval) : bool :=
  match v with
  | VUndefined | VNull => false
  | VBool b => b
  | VNum n => negb (Z.eqb n 0)
  | VStr s => negb (String.eqb s "")
  | VError _ => true
  end.

(** [e.stack || e]. *)
Definition stack_or_self (e : jsval) : result jsval :=
  match stack_of e with
  | Ok s => Ok (if js_truthy s then s else e)
  | Throw t => Throw t
  end.

(** ** Blueprint instances: [generate] and [destroy] *)

Inductive tnode :=
| TemplateDir
| TemplateFile (contents : string).

Inductive Action := Generate | Destroy.

Section Blueprint.

Variable Data : Type.
Variable Argv : Type.
Variable evalExpr : Data -> string -> option string.
Variable runScript : Data -> list Lodash.token -> option string.

(** node's [path.join] and [process.cwd()]. *)
Variable path_join : string -> string -> string.
Variable cwd : string.

(** [dirnames p]: [path.dirname(p)], the [path.dirname] of that, and so on
    up to the root. *)
Variable dirnames : string -> list string.

(** [compiles i s]: [template(s, { interpolate: i })] returns a function
    (lodash compiles the template there, and throws a [SyntaxError] where
    the generated code does not parse).  [template i s d] below is what
    that function returns on [d]; it is [None] where either call throws.
    Only [generate] does something in between the two. *)
Variable compiles : Lodash.interpolate -> string -> bool.

(** [walk(dir)] over the blueprint sources: the relative paths below [dir]
    in walk-sync's order (a directory's path ends in a slash), each with
    what [isDirectory] and [readFileSync] give for it; [None] when [dir]
    cannot be read.  The blueprint sources are only read. *)
Variable walk : string -> option (list (string * tnode)).

(** An instance: the class it was made from and the hooks a subclass may
    override, each by its outcome ([Throw] for a throw or a rejected
    promise).  What an overriding hook does to the disk is the subclass's
    and is not modelled; the hooks of this file do nothing. *)
Record Blueprint := {
  cls : nat;
  action : Action;
  locals : Argv -> result Data;
  postInstall : Argv -> result unit;
  postUninstall : Argv -> result unit
}.

(** The hooks as this file defines them: [locals] returns the empty
    object, [postInstall] and [postUninstall] do nothing. *)
Definition baseBlueprint (emptyData : Data) (c : nat) (a : Action) : Blueprint :=
  {| cls := c;
     action := a;
     locals := fun _ => Ok emptyData;
     postInstall := fun _ => Ok tt;
     postUninstall := fun _ => Ok tt |}.

Definition template := Lodash.template Data evalExpr runScript.

(** [get templateFiles()]: [path.join] throws on a [dir] that was never
    assigned. *)
Definition templateFiles (bp : Blueprint) : M string :=
  fun w =>
    match heap w !! cls bp with
    | Some {| dir := Some d |} => (w, Ok (path_join d "files"))
    | _ => (w, Throw engineError)
    end.

(** The body of the [forEach] in [generate]. *)
Definition generateFile (data : Data) (dest : string) (entry : string * tnode) : M unit :=
  let '(relativepath, node) := entry in
  match node with
  | TemplateDir => ret tt
  | TemplateFile contents =>
      destRelativepath <- lift (of_option (template Lodash.NameLiteral relativepath data)) ;;
      let destAbsolutepath := path_join dest destRelativepath in
      present <- existsSync destAbsolutepath ;;
      if (present : bool) then ui_info "already exists" destRelativepath
      else
        (if compiles Lodash.ErbLiteral contents then ret tt else throw engineError) ;;;
        mkdirp (dirnames destAbsolutepath) ;;;
        rendered <- lift (of_option (template Lodash.ErbLiteral contents data)) ;;
        writeFileSync destAbsolutepath rendered ;;;
        ui_info "create" destRelativepath
  end.

Definition generate (bp : Blueprint) (argv : Argv) : M unit :=
  data <- lift (locals bp argv) ;;
  let dest := cwd in
  src <- templateFiles bp ;;
  entries <- lift (of_option (walk src)) ;;
  forEach entries (generateFile data dest) ;;;
  try_catch (lift (postInstall bp argv))
    (fun e =>
       ui_error (VStr "postInstall failed:") ;;;
       v <- lift (stack_or_self e) ;;
       ui_error v).

(** [path.relative(templateFiles, path.resolve(path.join(templateFiles,
    relativepath)))]: the relative path again, a directory's without its
    closing slash. *)
Fixpoint relative (relativepath : string) : string :=
  match relativepath with
  | EmptyString => EmptyString
  | String c rest =>
      if Ascii.eqb c "/" && String.eqb rest "" then EmptyString
      else String c (relative rest)
  end.

Record target := {
  destAbsolutepath : string;
  destRelativepath : string;
  absolutepath : tnode
}.

(** The three passes of [destroy] over [filesToDelete]. *)
Definition destroyTarget (data : Data) (dest : string) (entry : string * tnode) : M target :=
  let '(relativepath, node) := entry in
  rel <- lift (of_option (template Lodash.NameLiteral (relative relativepath) data)) ;;
  ret {| destAbsolutepath := path_join dest rel; destRelativepath := rel; absolutepath := node |}.

Definition destroyExists (t : target) : M bool :=
  match absolutepath t with
  | TemplateDir => ret false
  | TemplateFile _ =>
      fileExists <- existsSync (destAbsolutepath t) ;;
      if (fileExists : bool) then ret true
      else ui_info "missing" (destRelativepath t) ;;; ret false
  end.

Definition destroyClean (data : Data) (t : target) : M bool :=
  templateSrc <- lift (match absolutepath t with
                       | TemplateFile c => Ok c
                       | TemplateDir => Throw engineError
                       end) ;;
  onDisk <- readFileSync (destAbsolutepath t) ;;
  compiled <- lift (of_option (template Lodash.ReInterpolate templateSrc data)) ;;
  let destFileIsNotDirty := bool_decide (onDisk = compiled) in
  (if destFileIsNotDirty then ui_info "destroy" (destRelativepath t)
   else ui_info "skipped" (destRelativepath t)) ;;;
  ret destFileIsNotDirty.

Definition filesToDelete (bp : Blueprint) (data : Data) : M (list string) :=
  let dest := cwd in
  src <- templateFiles bp ;;
  entries <- lift (of_option (walk src)) ;;
  targets <- mmap (destroyTarget data dest) entries ;;
  existing <- mfilter destroyExists targets ;;
  clean <- mfilter (destroyClean data) existing ;;
  ret (map destAbsolutepath clean).

Definition destroy (bp : Blueprint) (argv : Argv) : M unit :=
  data <- lift (locals bp argv) ;;
  doomed <- filesToDelete bp data ;;
  forEach doomed (rimraf dirnames) ;;;
  lift (postUninstall bp argv).

(** The second and third pass of [destroy], as tests on the disk. *)
Definition onDisk (w : World) (t : target) : bool :=
  match absolutepath t with
  | TemplateDir => false
  | TemplateFile _ => onDiskAt w (destAbsolutepath t)
  end.

Definition unmodified (fs : gmap string string) (data : Data) (t : target) : bool :=
  match absolutepath t with
  | TemplateDir => false
  | TemplateFile templateSrc =>
      match fs !! destAbsolutepath t with
      | Some current => bool_decide (template Lodash.ReInterpolate templateSrc data = Some current)
      | None => false
      end
  end.

(** A target as the first pass builds it from an entry of the walk. *)
Definition targetOf (data : Data) (dest : string) (entry : string * tnode) (t : target) : Prop :=
  template Lodash.NameLiteral (relative (fst entry)) data = Some (destRelativepath t) /\
  destAbsolutepath t = path_join dest (destRelativepath t) /\
  absolutepath t = snd entry.

(** [run]: delegates on [this.action]. *)
Definition run (bp : Blueprint) (argv : Argv) : M unit :=
  match action bp with
  | Generate => generate bp argv
  | Destroy => destroy bp argv
  end.

End Blueprint.

Arguments cls {Data Argv} _.
Arguments action {Data Argv} _.
Arguments locals {Data Argv} _ _.
Arguments postInstall {Data Argv} _ _.
Arguments postUninstall {Data Argv} _ _.

(** ** Blueprint discovery and configuration *)

(** A JavaScript object used as a map from names to classes: the entries
    in the order the engine enumerates them ([Object.keys], lodash's
    [forEach], [mapKeys], [keys] and [assign]), each key once.  The engine
    lists the keys that are array indices first, by ascending value, and
    then the other keys in the order they were added. *)
Definition jsobj := list (string * nat).

Fixpoint obj_get (o : jsobj) (k : string) : option nat :=
  match o with
  | [] => None
  | (k', v) :: o' => if String.eqb k' k then Some v else obj_get o' k
  end.

Definition keys (o : jsobj) : list string := map fst o.

Definition has_key (o : jsobj) (k : string) : bool :=
  match obj_get o k with
  | Some _ => true
  | None => false
  end.

(** An array index: the canonical decimal string of an integer from 0 to
    2^32 - 2. *)
Definition digit (c : ascii) : option N :=
  let n := N_of_ascii c in
  if (48 <=? n)%N && (n <=? 57)%N then Some (n - 48)%N else None.

Fixpoint digits (s : string) (acc : N) : option N :=
  match s with
  | EmptyString => Some acc
  | String c s' =>
      match digit c with
      | Some d => digits s' (10 * acc + d)%N
      | None => None
      end
  end.

Definition array_index (k : string) : option N :=
  match k with
  | EmptyString => None
  | String c rest =>
      if Ascii.eqb c "0" then (if String.eqb rest "" then Some 0%N else None)
      else
        match digits k 0 with
        | Some n => if (n <? 4294967295)%N then Some n else None
        | None => None
        end
  end.

(** A key that is new to the object comes before the key [k'] of an entry:
    a smaller index before an index, an index before a name. *)
Definition key_before (k k' : string) : bool :=
  match array_index k, array_index k' with
  | Some n, Some n' => (n <? n')%N
  | Some _, None => true
  | None, _ => false
  end.

(** [o[k] = v]: in place for a key the object has; a new key goes to its
    place among the indices, or to the end. *)
Fixpoint obj_set (k : string) (v : nat) (o : jsobj) : jsobj :=
  match o with
  | [] => [(k, v)]
  | (k', v') :: o' =>
      if String.eqb k' k then (k', v) :: o'
      else if key_before k k' && negb (has_key o' k) then (k, v) :: o
      else (k', v') :: obj_set k v o'
  end.

(** lodash [assign(target, source)]. *)
Definition assign (target source : jsobj) : jsobj :=
  fold_left (fun acc kv => obj_set (fst kv) (snd kv) acc) source target.

(** lodash [intersection] of two key lists: the elements of the first that
    the second holds, each once, in the order of the first. *)
Fixpoint intersection (xs ys : list string) : list string :=
  match xs with
  | [] => []
  | x :: xs' =>
      if existsb (String.eqb x) ys
      then x :: List.filter (fun y => negb (String.eqb x y)) (intersection xs' ys)
      else intersection xs' ys
  end.

(** An address the heap has no entry for is an object without properties. *)
Definition emptyObj : obj :=
  {| default_export := None; blueprintName := None; addon := None; dir := None |}.

Definition heap_get (h : gmap nat obj) (a : nat) : obj :=
  match h !! a with
  | Some o => o
  | None => emptyObj
  end.

Definition set_addon (a : string) (o : obj) : obj :=
  {| default_export := default_export o; blueprintName := blueprintName o;
     addon := Some a; dir := dir o |}.

Definition set_dir (d : string) (o : obj) : obj :=
  {| default_export := default_export o; blueprintName := blueprintName o;
     addon := addon o; dir := Some d |}.

(** Two heaps whose objects agree on [default] and [blueprintName], the
    properties discovery reads and never writes. *)
Definition sameExports (h h' : gmap nat obj) : Prop :=
  forall a, default_export (heap_get h' a) = default_export (heap_get h a) /\
            blueprintName (heap_get h' a) = blueprintName (heap_get h a).

Definition update_obj (a : nat) (f : obj -> obj) : M unit :=
  fun w => (set_heap (<[a := f (heap_get (heap w) a)]> (heap w)) w, Ok tt).

Definition read_obj (a : nat) : M obj :=
  fun w => (w, Ok (heap_get (heap w) a)).

(** An entry of [fs.readdirSync(dir)]: its name, what [isDirectory] says of
    it and what [tryRequire] returns for it ([None] for [undefined], when
    the module cannot be loaded). *)
Record dirent := {
  d_name : string;
  d_isDirectory : bool;
  d_module : option nat
}.

Record Context := {
  isLocal : bool;
  name : string;
  ctx_action : option Action
}.

Record Addon := {
  pkg_name : string;
  addon_dir : string
}.

Section Discovery.

Variable path_join : string -> string -> string.

(** [fs.readdirSync(dir)]; [None] when [fs.existsSync(dir)] is false. *)
Variable readdirSync : string -> option (list dirent).

(** [findAddons(isLocal)], from [./find-addons]. *)
Variable findAddons : bool -> list Addon.

(** The callback of the [reduce]: the [addon] is written to what
    [tryRequire] returned, the map gets [BlueprintClass.default ||
    BlueprintClass]. *)
Definition loadBlueprint (addonName : string) (BlueprintsSoFar : jsobj) (d : dirent) : M jsobj :=
  match d_module d with
  | None => throw engineError
  | Some BlueprintClass =>
      update_obj BlueprintClass (set_addon addonName) ;;;
      module <- read_obj BlueprintClass ;;
      ret (obj_set (d_name d)
             (match default_export module with
              | Some c => c
              | None => BlueprintClass
              end) BlueprintsSoFar)
  end.

Fixpoint reduce (f : jsobj -> dirent -> M jsobj) (l : list dirent) (acc : jsobj) : M jsobj :=
  match l with
  | [] => ret acc
  | d :: l' => acc' <- f acc d ;; reduce f l' acc'
  end.

(** [BlueprintClass.dir = path.join(dir, blueprintDir)]. *)
Definition captureDir (dir : string) (entry : string * nat) : M unit :=
  update_obj (snd entry) (set_dir (path_join dir (fst entry))).

(** [BlueprintClass.blueprintName || blueprintDir]. *)
Definition invocationName (o : obj) (blueprintDir : string) : string :=
  if truthy (blueprintName o) then to_js_string (blueprintName o) else blueprintDir.

(** lodash [mapKeys]. *)
Fixpoint mapKeys (h : gmap nat obj) (Blueprints : jsobj) (acc : jsobj) : jsobj :=
  match Blueprints with
  | [] => acc
  | (blueprintDir, c) :: rest =>
      mapKeys h rest (obj_set (invocationName (heap_get h c) blueprintDir) c acc)
  end.

(** The module a directory entry loads to, and what the map gets for it. *)
Definition exported (h : gmap nat obj) (d : dirent) : option nat :=
  match d_module d with
  | Some m =>
      match default_export (heap_get h m) with
      | Some c => Some c
      | None => Some m
      end
  | None => None
  end.

(** The first half of the method: the classes of the directory, loaded,
    given their [dir] and keyed by invocation name ([Blueprints] after the
    [mapKeys]). *)
Definition loadBlueprints (addonName dir : string) (entries : list dirent) : M jsobj :=
  Blueprints <- reduce (loadBlueprint addonName) (List.filter d_isDirectory entries) [] ;;
  forEach Blueprints (captureDir dir) ;;;
  fun w => (w, Ok (mapKeys (heap w) Blueprints [])).

(** The second half: the colliding names are moved, then [assign]. *)
Definition namespaced (h : gmap nat obj) (clobberedBlueprint : nat)
    (collidingBlueprintName : string) : string :=
  to_js_string (addon (heap_get h clobberedBlueprint)) ++ ":" ++ collidingBlueprintName.

Definition moveClobbered (h : gmap nat obj) (blueprintsSoFar : jsobj)
    (collidingBlueprintName : string) : jsobj :=
  match obj_get blueprintsSoFar collidingBlueprintName with
  | Some clobberedBlueprint =>
      obj_set (namespaced h clobberedBlueprint collidingBlueprintName)
        clobberedBlueprint blueprintsSoFar
  | None => blueprintsSoFar
  end.

Definition register (h : gmap nat obj) (blueprintsSoFar Blueprints : jsobj) : jsobj :=
  assign
    (fold_left (moveClobbered h)
       (intersection (keys Blueprints) (keys blueprintsSoFar)) blueprintsSoFar)
    Blueprints.

(** The result: the object [blueprintsSoFar] as the call leaves it, and
    the value returned. *)
Definition discoverBlueprintsForAddon (blueprintsSoFar : jsobj) (addonName dir : string)
    : M (jsobj * jsobj) :=
  match readdirSync dir with
  | None => ret (blueprintsSoFar, [])
  | Some entries =>
      Blueprints <- loadBlueprints addonName dir entries ;;
      fun w =>
        let all := register (heap w) blueprintsSoFar Blueprints in
        (w, Ok (all, all))
  end.

Fixpoint discoverAll (blueprints : jsobj) (addons : list Addon) : M jsobj :=
  match addons with
  | [] => ret blueprints
  | a :: rest =>
      r <- discoverBlueprintsForAddon blueprints (pkg_name a) (path_join (addon_dir a) "blueprints") ;;
      discoverAll (fst r) rest
  end.

Definition findBlueprints (isLocal : bool) : M jsobj :=
  discoverAll [] (findAddons isLocal).

(** [yargs], [Command.configure] (the [super.configure] of the source),
    [updateStrings], and the [configure] each class answers to. *)
Variable Yargs : Type.
Variable commandConfigure : Yargs -> Context -> result Yargs.
Variable updateStrings : Yargs -> Yargs.
Variable classConfigure : nat -> Yargs -> Context -> result Yargs.

(** [Blueprint.configure]. *)
Definition configure (yargs : Yargs) (context : Context) : result Yargs :=
  match commandConfigure yargs context with
  | Ok y => Ok (updateStrings y)
  | Throw e => Throw e
  end.

(** [merge({}, context, { name })]. *)
Definition withName (context : Context) (n : string) : Context :=
  {| isLocal := isLocal context; name := n; ctx_action := ctx_action context |}.

Definition configureBlueprint (context : Context) (yargs : Yargs) (entry : string * nat) : M Yargs :=
  try_catch (lift (classConfigure (snd entry) yargs (withName context (fst entry))))
    (fun error =>
       ui_warn (VStr (fst entry ++ " blueprint failed to configure itself:")) ;;;
       stack <- lift (stack_of error) ;;
       ui_warn stack ;;;
       ret yargs).

Fixpoint configureBlueprints (blueprints : jsobj) (yargs : Yargs) (context : Context) : M Yargs :=
  match blueprints with
  | [] => ret yargs
  | entry :: rest =>
      yargs' <- configureBlueprint context yargs entry ;;
      configureBlueprints rest yargs' context
  end.

Definition findAndConfigureBlueprints (yargs : Yargs) (context : Context) : M Yargs :=
  blueprints <- findBlueprints (isLocal context) ;;
  configureBlueprints blueprints yargs context.

End Discovery.

(** ** The routes file: syntax trees, [find], [matchNode], [insertAfter] *)

(** A syntax tree as jscodeshift sees it: objects with named properties
    (the node type is the property [type]), arrays, and primitive leaves.
    A filter passed to [find] is a tree of the same kind. *)
#[local] Set Warnings "-register-all".

Inductive ast :=
| ANode (fields : list (string * ast))
| AList (items : list ast)
| AVal (v : jsval).

Fixpoint field (fields : list (string * ast)) (k : string) : option ast :=
  match fields with
  | [] => None
  | (k', a) :: rest => if String.eqb k' k then Some a else field rest k
  end.

Fixpoint field_index (fields : list (string * ast)) (k : string) : option nat :=
  match fields with
  | [] => None
  | (k', _) :: rest => if String.eqb k' k then Some 0 else option_map S (field_index rest k)
  end.

(** jscodeshift's [matchNode(haystack, needle)]: every own key of an object
    or array needle must be an own key of the haystack with a matching
    value; anything else is compared with [===]. *)
Fixpoint matchNode (haystack needle : ast) {struct needle} : bool :=
  match needle with
  | AVal v =>
      match haystack with
      | AVal v' => bool_decide (v' = v)
      | _ => false
      end
  | ANode nfields =>
      match haystack with
      | ANode hfields =>
          forallb (fun kn =>
                     match field hfields (fst kn) with
                     | Some h => matchNode h (snd kn)
                     | None => false
                     end) nfields
      | AList _ => match nfields with [] => true | _ => false end
      | AVal _ => false
      end
  | AList nitems =>
      match haystack with
      | AList hitems =>
          (fix every (ns : list ast) (hs : list ast) {struct ns} : bool :=
             match ns with
             | [] => true
             | n :: ns' =>
                 match hs with
                 | h :: hs' => matchNode h n && every ns' hs'
                 | [] => false
                 end
             end) nitems hitems
      | ANode _ => match nitems with [] => true | _ => false end
      | AVal _ => false
      end
  end.

Definition has_type (ty : string) (a : ast) : bool :=
  match a with
  | ANode fields =>
      match field fields "type" with
      | Some (AVal (VStr t)) => String.eqb t ty
      | _ => false
      end
  | _ => false
  end.

(** The proper descendants of a tree in traversal order, each with the
    path that leads to it: the position of the property or of the array
    element at every step. *)
Fixpoint subtrees (a : ast) : list (list nat * ast) :=
  match a with
  | AVal _ => []
  | AList items =>
      (fix go (i : nat) (l : list ast) : list (list nat * ast) :=
         match l with
         | [] => []
         | x :: l' =>
             ([i], x) :: map (fun pa => (i :: fst pa, snd pa)) (subtrees x) ++ go (S i) l'
         end) 0 items
  | ANode fields =>
      (fix go (i : nat) (l : list (string * ast)) : list (list nat * ast) :=
         match l with
         | [] => []
         | kx :: l' =>
             ([i], snd kx) :: map (fun pa => (i :: fst pa, snd pa)) (subtrees (snd kx)) ++ go (S i) l'
         end) 0 fields
  end.

(** [collection.find(j.Type, filter)] from the root of a collection: the
    descendants of that type the filter matches. *)
Definition find (ty : string) (filter : ast) (root : ast) : list (list nat * ast) :=
  List.filter (fun pa => has_type ty (snd pa) && matchNode (snd pa) filter) (subtrees root).

Definition find_all (ty : string) (root : ast) : list (list nat * ast) :=
  List.filter (fun pa => has_type ty (snd pa)) (subtrees root).

(** [path.insertAfter(node)]: the parent of the path must be an array. *)
Fixpoint insertAfter (p : list nat) (new : ast) (a : ast) : option ast :=
  match p with
  | [] => None
  | i :: p' =>
      match p' with
      | [] =>
          match a with
          | AList items =>
              if Nat.ltb i (List.length items)
              then Some (AList (take (S i) items ++ new :: drop (S i) items))
              else None
          | _ => None
          end
      | _ :: _ =>
          match a with
          | AList items =>
              match items !! i with
              | Some c =>
                  match insertAfter p' new c with
                  | Some c' => Some (AList (<[i := c']> items))
                  | None => None
                  end
              | None => None
              end
          | ANode fields =>
              match fields !! i with
              | Some (k, c) =>
                  match insertAfter p' new c with
                  | Some c' => Some (ANode (<[i := (k, c')]> fields))
                  | None => None
                  end
              | None => None
              end
          | AVal _ => None
          end
      end
  end.

(** The builders of ast-types the source uses; [identifier] and
    [stringLiteral] refuse what is not a string. *)
Definition typed (ty : string) (fields : list (string * ast)) : ast :=
  ANode (("type", AVal (VStr ty)) :: fields).

Definition identifier (n : jsval) : result ast :=
  match n with
  | VStr _ => Ok (typed "Identifier" [("name", AVal n)])
  | _ => Throw engineError
  end.

Definition stringLiteral (v : jsval) : result ast :=
  match v with
  | VStr _ => Ok (typed "StringLiteral" [("value", AVal v)])
  | _ => Throw engineError
  end.

Definition memberExpression (object property : ast) : ast :=
  typed "MemberExpression"
    [("object", object); ("property", property); ("computed", AVal (VBool false))].

Definition callExpression (callee : ast) (arguments : list ast) : ast :=
  typed "CallExpression" [("callee", callee); ("arguments", AList arguments)].

Definition expressionStatement (expression : ast) : ast :=
  typed "ExpressionStatement" [("expression", expression)].

Fixpoint mapResult {A B} (f : A -> result B) (l : list A) : result (list B) :=
  match l with
  | [] => Ok []
  | x :: l' =>
      match f x with
      | Ok y =>
          match mapResult f l' with
          | Ok ys => Ok (y :: ys)
          | Throw e => Throw e
          end
      | Throw e => Throw e
      end
  end.

Definition option_jsval (o : option string) : jsval :=
  match o with
  | Some s => VStr s
  | None => VUndefined
  end.

(** The filters of [addRoute] and [removeRoute]. *)
Definition routeFilter (routerArgName : jsval) (method urlPattern : string)
    (actionPath : option string) (args : list jsval) : ast :=
  ANode [("expression",
          ANode [("callee",
                  ANode [("object", ANode [("name", AVal routerArgName)]);
                         ("property", ANode [("name", AVal (VStr method))])]);
                 ("arguments",
                  AList (map (fun arg => ANode [("value", AVal arg)])
                           (VStr urlPattern :: option_jsval actionPath :: args)))])].

Definition routerFilter (routerArgName : jsval) : ast :=
  ANode [("expression",
          ANode [("callee", ANode [("object", ANode [("name", AVal routerArgName)])])])].

(** What both methods read off the tree first: the declaration of the
    first [ExportDefaultDeclaration], the name of its first parameter, and
    its body with the path that leads to it. *)
Record drawRoutes := {
  routerArgName : jsval;
  bodyPath : list nat;
  drawRoutesFunctionBody : ast
}.

Definition drawRoutesFunction (root : ast) : result drawRoutes :=
  match find_all "ExportDefaultDeclaration" root with
  | [] => Throw engineError
  | (p, ANode efields) :: _ =>
      match field efields "declaration", field_index efields "declaration" with
      | Some (ANode dfields), Some di =>
          match field dfields "params" with
          | Some (AList (ANode pfields :: _)) =>
              match field dfields "body", field_index dfields "body" with
              | Some body, Some bi =>
                  Ok {| routerArgName :=
                          match field pfields "name" with
                          | Some (AVal v) => v
                          | _ => VUndefined
                          end;
                        bodyPath := p ++ [di; bi];
                        drawRoutesFunctionBody := body |}
              | _, _ => Throw engineError
              end
          | _ => Throw engineError
          end
      | _, _ => Throw engineError
      end
  | (_, _) :: _ => Throw engineError
  end.

(** [addRoute] on the tree: [Ok None] when a duplicate makes it return
    early, the tree to print otherwise. *)
Definition addRouteAst (method urlPattern : string) (actionPath : option string)
    (args : list jsval) (root : ast) : result (option ast) :=
  match drawRoutesFunction root with
  | Throw e => Throw e
  | Ok f =>
      let body := drawRoutesFunctionBody f in
      let duplicate :=
        find "ExpressionStatement"
          (routeFilter (routerArgName f) method urlPattern actionPath args) body in
      if Nat.ltb 0 (List.length duplicate) then Ok None
      else
        let routerInvocations :=
          find "ExpressionStatement" (routerFilter (routerArgName f)) body in
        match identifier (routerArgName f), identifier (VStr method) with
        | Ok object, Ok property =>
            let routerMethodExpression := memberExpression object property in
            match mapResult stringLiteral args with
            | Ok routerArguments =>
                let routerMethodInvocation :=
                  callExpression routerMethodExpression routerArguments in
                let newRoute := expressionStatement routerMethodInvocation in
                match last routerInvocations with
                | None => Ok (Some root)
                | Some (p, _) =>
                    match insertAfter (bodyPath f ++ p) newRoute root with
                    | Some root' => Ok (Some root')
                    | None => Throw engineError
                    end
                end
            | Throw e => Throw e
            end
        | Throw e, _ => Throw e
        | _, Throw e => Throw e
        end
  end.

(** A node with a [value] property that holds [v]: a literal. *)
Definition literalOf (a : ast) (v : jsval) : Prop :=
  exists fields, a = ANode fields /\ field fields "value" = Some (AVal v).

(** An expression statement that calls [router.method] with exactly the
    literal arguments [vals]. *)
Definition routerInvocation (router : jsval) (method : string) (vals : list jsval)
    (stmt : ast) : Prop :=
  exists sfields efields cfields ofields pfields items,
    stmt = ANode sfields /\
    field sfields "type" = Some (AVal (VStr "ExpressionStatement")) /\
    field sfields "expression" = Some (ANode efields) /\
    field efields "callee" = Some (ANode cfields) /\
    field cfields "object" = Some (ANode ofields) /\
    field ofields "name" = Some (AVal router) /\
    field cfields "property" = Some (ANode pfields) /\
    field pfields "name" = Some (AVal (VStr method)) /\
    field efields "arguments" = Some (AList items) /\
    Forall2 literalOf items vals.

Section Routes.

Variable path_join : string -> string -> string.
Variable cwd : string.

(** [codeshift(source)], [ast.toSource(options)] (the flag: single quotes
    asked for) and the removal of the nodes at a list of paths. *)
Variable parse : string -> result ast.
Variable toSource : bool -> ast -> string.
Variable remove : list (list nat) -> ast -> ast.

Definition routesFilepath : string := path_join (path_join cwd "config") "routes.js".

Definition addRoute (method urlPattern : string) (actionPath : option string)
    (args : list jsval) : M unit :=
  routesSource <- readFileSync routesFilepath ;;
  root <- lift (parse routesSource) ;;
  changed <- lift (addRouteAst method urlPattern actionPath args root) ;;
  match changed with
  | None => ret tt
  | Some root' => writeFileSync routesFilepath (toSource true root')
  end.

Definition removeRoute (method urlPattern : string) (actionPath : option string)
    (args : list jsval) : M unit :=
  routesSource <- readFileSync routesFilepath ;;
  root <- lift (parse routesSource) ;;
  f <- lift (drawRoutesFunction root) ;;
  let found :=
    find "ExpressionStatement"
      (routeFilter (routerArgName f) method urlPattern actionPath args)
      (drawRoutesFunctionBody f) in
  writeFileSync routesFilepath
    (toSource false (remove (map (fun pa => (bodyPath f ++ fst pa)%list) found) root)).

End Routes.

(** ** The reading of the template markers taken from the specification

    A template is literal text with markers in it; rendering replaces each
    marker by the value of the expression it holds and leaves everything
    else as it is.  Only the marker of the [interpolate] option counts. *)

Module Markers.

Import Lodash.

Fixpoint markers (i : interpolate) (skip : nat) (s : string) : list token :=
  match s with
  | EmptyString => []
  | String c s' =>
      match skip with
      | S k => markers i k s'
      | O =>
          match match_interpolate i s with
          | Some (b, n) => TInterpolate b :: markers i (Nat.pred n) s'
          | None => TText c :: markers i 0 s'
          end
      end
  end.

(** The text holds no block of lodash's escape or evaluate delimiters. *)
Definition onlyMarkers (i : interpolate) (s : string) : bool :=
  forallb (fun t => negb (is_escape t || is_evaluate t)) (tokenize i s).

Definition replaceMarkers (Data : Type) (evalExpr : Data -> string -> option string)
    (i : interpolate) (s : string) (d : Data) : option string :=
  concat_tokens Data evalExpr d (markers i 0 s).

End Markers.

(** ** A small engine and sample inputs

    Locals data as an association list of strings; an expression that is
    an identifier (spaces around it aside) reads the property of that name
    and throws a [ReferenceError] when there is none.  Templates with
    evaluate blocks are not run by this engine. *)

Module Sample.

Fixpoint assoc (d : list (string * string)) (k : string) : option string :=
  match d with
  | [] => None
  | (k', v) :: d' => if String.eqb k' k then Some v else assoc d' k
  end.

Fixpoint trim_left (s : string) : string :=
  match s with
  | EmptyString => EmptyString
  | String c s' => if Lodash.is_space c then trim_left s' else s
  end.

Fixpoint trim_right (s : string) : string :=
  match s with
  | EmptyString => EmptyString
  | String c s' =>
      match trim_right s' with
      | EmptyString => if Lodash.is_space c then EmptyString else String c EmptyString
      | r => String c r
      end
  end.

Definition evalExpr (d : list (string * string)) (e : string) : option string :=
  assoc d (trim_right (trim_left e)).

Definition runScript (d : list (string * string)) (ts : list Lodash.token) : option string :=
  None.

Definition path_join (a b : string) : string := a ++ "/" ++ b.

Definition cwd : string := "/app".

(** [path.dirname] on absolute paths without a closing slash, and the
    chain of directories above a path. *)
Fixpoint dirname (s : string) : option string :=
  match s with
  | EmptyString => None
  | String c s' =>
      match dirname s' with
      | Some d => Some (String c d)
      | None => if Ascii.eqb c "/" then Some EmptyString else None
      end
  end.

Fixpoint dirnames_upto (fuel : nat) (s : string) : list string :=
  match fuel with
  | O => []
  | S fuel' =>
      match dirname s with
      | Some EmptyString => ["/"]
      | Some d => d :: dirnames_upto fuel' d
      | None => []
      end
  end.

Definition dirnames (s : string) : list string := dirnames_upto (String.length s) s.

(** Every template of the samples compiles. *)
Definition compiles (i : Lodash.interpolate) (s : string) : bool := true.

Definition emptyWorld : World := {| files := ∅; dirs := ∅; heap := ∅; log := [] |}.

(** One blueprint class at address 0, loaded from [/bp/greeter], and an
    empty project directory. *)
Definition classWorld : World :=
  {| files := ∅;
     dirs := {[ "/"; "/app" ]};
     heap := {[ 0 := {| default_export := None; blueprintName := None;
                        addon := Some "core"; dir := Some "/bp/greeter" |} ]};
     log := [] |}.

(** The same, in a project where [/app/app/world.js] is the user's own. *)
Definition busyWorld : World :=
  {| files := {[ "/app/app/world.js" := "mine"; "/app/README" := "notes" ]};
     dirs := {[ "/"; "/app"; "/app/app" ]};
     heap := heap classWorld;
     log := [] |}.

(** The same, in a project that holds the file the sample blueprint
    generates and a file of the user's. *)
Definition generatedWorld : World :=
  {| files := {[ "/app/app/world.js" := "hello world!"; "/app/README" := "notes" ]};
     dirs := {[ "/"; "/app"; "/app/app" ]};
     heap := heap classWorld;
     log := [] |}.

Definition instance (hook : result unit) : Blueprint (list (string * string)) unit :=
  {| cls := 0;
     action := Generate;
     locals := fun _ => Ok [("name", "world"); ("title", "a<b")];
     postInstall := fun _ => hook;
     postUninstall := fun _ => Ok tt |}.

Definition walkOf (tree : list (string * tnode)) (d : string) : option (list (string * tnode)) :=
  if String.eqb d "/bp/greeter/files" then Some tree else None.

(** A template that holds a JavaScript template literal. *)
Definition literalTree : list (string * tnode) :=
  [("app/", TemplateDir);
   ("app/__name__.js", TemplateFile "export default `hi ${name}`;")].

(** A template that uses lodash's escape delimiter. *)
Definition escapeTree : list (string * tnode) :=
  [("__name__.html", TemplateFile "<h1><%- title %></h1>")].

(** A template with interpolation markers only. *)
Definition plainTree : list (string * tnode) :=
  [("app/", TemplateDir);
   ("app/__name__.js", TemplateFile "hello <%= name %>!")].

Definition generate tree hook :=
  generate (list (string * string)) unit evalExpr runScript path_join cwd dirnames compiles
    (walkOf tree) (instance hook) tt.

Definition destroy tree :=
  destroy (list (string * string)) unit evalExpr runScript path_join cwd dirnames
    (walkOf tree) (instance (Ok tt)) tt.

(** Discovery.  The addon [shop] ships one blueprint, [cart], compiled
    from an ES module: [tryRequire] returns the module object at address
    10, whose [default] is the class at address 11.  Addon [a] ships [foo]
    as the class at address 0, addon [b] ships [foo] as the class at
    address 1 and a blueprint that calls itself [a:foo] at address 2. *)
Definition plainClass (n : option string) (a : option string) : obj :=
  {| default_export := None; blueprintName := n; addon := a; dir := None |}.

Definition discoveryWorld : World :=
  {| files := ∅;
     dirs := ∅;
     heap := {[ 0 := plainClass None (Some "a");
                1 := plainClass None None;
                2 := plainClass (Some "a:foo") None;
                10 := {| default_export := Some 11; blueprintName := None;
                         addon := None; dir := None |};
                11 := plainClass None None ]};
     log := [] |}.

Definition shopEntries : list dirent :=
  [{| d_name := "cart"; d_isDirectory := true; d_module := Some 10 |};
   {| d_name := "README.md"; d_isDirectory := false; d_module := None |}].

Definition fooEntries : list dirent :=
  [{| d_name := "foo"; d_isDirectory := true; d_module := Some 1 |}].

Definition scopedEntries : list dirent :=
  [{| d_name := "foo"; d_isDirectory := true; d_module := Some 1 |};
   {| d_name := "scoped"; d_isDirectory := true; d_module := Some 2 |}].

Definition readdirSync (d : string) : option (list dirent) :=
  if String.eqb d "/addons/shop/blueprints" then Some shopEntries
  else if String.eqb d "/addons/b/blueprints" then Some fooEntries
  else if String.eqb d "/addons/b2/blueprints" then Some scopedEntries
  else None.

Definition discover := discoverBlueprintsForAddon path_join readdirSync.

(** Configuration: a [yargs] that records the commands added to it; the
    class at address 0 throws [null] from its [configure]. *)
Definition classConfigure (c : nat) (yargs : list string) (context : Context)
    : result (list string) :=
  match c with
  | 0 => Throw VNull
  | _ => Ok (yargs ++ [name context])%list
  end.

Definition sampleContext : Context :=
  {| isLocal := true; name := "generate"; ctx_action := Some Generate |}.

(** The routes file
    [export default function drawRoutes(router) { <statements> }]
    as a tree, and the statement [router.get('/', 'index');]. *)
Definition ident (n : string) : ast := typed "Identifier" [("name", AVal (VStr n))].

Definition literal (s : string) : ast := typed "Literal" [("value", AVal (VStr s))].

Definition call (object method : string) (arguments : list ast) : ast :=
  expressionStatement
    (callExpression (memberExpression (ident object) (ident method)) arguments).

Definition routesFile (statements : list ast) : ast :=
  typed "File"
    [("program",
      typed "Program"
        [("body",
          AList
            [typed "ExportDefaultDeclaration"
               [("declaration",
                 typed "FunctionDeclaration"
                   [("id", ident "drawRoutes");
                    ("params", AList [ident "router"]);
                    ("body", typed "BlockStatement" [("body", AList statements)])])]])])].

Definition indexRoute : ast := call "router" "get" [literal "/"; literal "index"].

(** A printer for such trees, on one line, with the quote the option asks
    for around every string; and a parser that knows the printing of the
    trees it is given. *)
Definition quote (single : bool) : string :=
  String (if single then "'"%char else ascii_of_nat 34) EmptyString.

Definition print_name (a : ast) : string :=
  match a with
  | ANode fields =>
      match field fields "name" with
      | Some (AVal (VStr s)) => s
      | _ => "?"
      end
  | _ => "?"
  end.

Definition print_literal (single : bool) (a : ast) : string :=
  match a with
  | ANode fields =>
      match field fields "value" with
      | Some (AVal (VStr s)) => quote single ++ s ++ quote single
      | _ => "?"
      end
  | _ => "?"
  end.

Definition print_statement (single : bool) (a : ast) : string :=
  match a with
  | ANode sfields =>
      match field sfields "expression" with
      | Some (ANode efields) =>
          match field efields "callee", field efields "arguments" with
          | Some (ANode cfields), Some (AList arguments) =>
              match field cfields "object", field cfields "property" with
              | Some object, Some property =>
                  print_name object ++ "." ++ print_name property ++ "("
                  ++ String.concat ", " (map (print_literal single) arguments) ++ ");"
              | _, _ => "?"
              end
          | _, _ => "?"
          end
      | _ => "?"
      end
  | _ => "?"
  end.

Definition toSource (single : bool) (root : ast) : string :=
  match drawRoutesFunction root with
  | Ok f =>
      match drawRoutesFunctionBody f, routerArgName f with
      | ANode bfields, VStr router =>
          match field bfields "body" with
          | Some (AList statements) =>
              "export default function drawRoutes(" ++ router ++ ") {"
              ++ String.concat "" (map (fun s => " " ++ print_statement single s) statements)
              ++ " }"
          | _ => "?"
          end
      | _, _ => "?"
      end
  | Throw _ => "?"
  end.

Definition parseOf (known : list ast) (source : string) : result ast :=
  of_option (List.find (fun root => String.eqb (toSource true root) source) known).

Definition parse : string -> result ast :=
  parseOf [routesFile []; routesFile [indexRoute]].

Definition indexSource : string :=
  "export default function drawRoutes(router) { router.get('/', 'index'); }".

Definition routesWorld : World :=
  {| files := {[ "/app/config/routes.js" := indexSource ]};
     dirs := {[ "/"; "/app"; "/app/config" ]};
     heap := ∅;
     log := [] |}.

Definition addRoute :=
  addRoute path_join cwd parse toSource.

End Sample.

(** ** Further sample inputs *)

Module Cases.

(** A blueprint whose template holds no marker. *)
Definition copyTree : list (string * tnode) :=
  [("app/", TemplateDir);
   ("app/index.js", TemplateFile "export default 1;")].

(** The sample blueprint with a [postUninstall] of its own. *)
Definition uninstalling (hook : result unit) : Blueprint (list (string * string)) unit :=
  {| cls := 0;
     action := Destroy;
     locals := fun _ => Ok [("name", "world"); ("title", "a<b")];
     postInstall := fun _ => Ok tt;
     postUninstall := fun _ => hook |}.

(** An addon one of whose directories cannot be required. *)
Definition brokenEntries : list dirent :=
  [{| d_name := "cart"; d_isDirectory := true; d_module := Some 10 |};
   {| d_name := "docs"; d_isDirectory := true; d_module := None |}].

Definition readdirSync (d : string) : option (list dirent) :=
  if String.eqb d "/addons/broken/blueprints" then Some brokenEntries
  else Sample.readdirSync d.

(** Classes of which the one at address 0 throws an [Error] from its
    [configure]. *)
Definition classConfigure (c : nat) (yargs : list string) (context : Context)
    : result (list string) :=
  match c with
  | 0 => Throw (VError (Some "Error: no"))
  | _ => Ok (yargs ++ [name context])%list
  end.

(** Routes files: one without a route, one whose route has a third
    argument, and one whose route has no action path. *)
Definition longRoute : ast :=
  Sample.call "router" "get"
    [Sample.literal "/"; Sample.literal "index"; Sample.literal "extra"].

Definition bareRoute : ast := Sample.call "router" "get" [Sample.literal "/"].

Definition parse : string -> result ast :=
  Sample.parseOf
    [Sample.routesFile []; Sample.routesFile [Sample.indexRoute];
     Sample.routesFile [longRoute]; Sample.routesFile [bareRoute]].

Definition routesWorld (source : string) : World :=
  {| files := {[ "/app/config/routes.js" := source ]};
     dirs := {[ "/"; "/app"; "/app/config" ]};
     heap := ∅;
     log := [] |}.

Definition emptySource : string :=
  "export default function drawRoutes(router) { }".

Definition longSource : string :=
  "export default function drawRoutes(router) { router.get('/', 'index', 'extra'); }".

Definition bareSource : string :=
  "export default function drawRoutes(router) { router.get('/'); }".

(** What the third pass of [destroy] renders for the locals of the
    sample blueprint. *)
Definition render (contents : string) : option string :=
  template (list (string * string)) Sample.evalExpr Sample.runScript Lodash.ReInterpolate
    contents [("name", "world"); ("title", "a<b")].

(** A blueprint with three template files, in a project where the file
    of the first is untouched, the file of the second was edited and the
    file of the third is gone. *)
Definition mixedTree : list (string * tnode) :=
  [("app/", TemplateDir);
   ("app/__name__.js", TemplateFile "hello <%= name %>!");
   ("app/index.js", TemplateFile "export default 1;");
   ("README.md", TemplateFile "# <%= name %>")].

Definition mixedWorld : World :=
  {| files := {[ "/app/app/world.js" := "hello world!";
                 "/app/app/index.js" := "export default 2;";
                 "/app/notes" := "mine" ]};
     dirs := {[ "/"; "/app"; "/app/app" ]};
     heap := heap Sample.classWorld;
     log := [] |}.

(** A blueprint whose second template reads a name the locals do not
    hold, in a project that holds both files. *)
Definition brokenTree : list (string * tnode) :=
  [("a.txt", TemplateFile "x");
   ("b.txt", TemplateFile "<%= nope %>")].

Definition brokenWorld : World :=
  {| files := {[ "/app/a.txt" := "x"; "/app/b.txt" := "y" ]};
     dirs := {[ "/"; "/app" ]};
     heap := heap Sample.classWorld;
     log := [] |}.

(** A blueprint of two files, in a project where a directory stands at
    the destination of the second. *)
Definition twoTree : list (string * tnode) :=
  [("a.txt", TemplateFile "x");
   ("b.txt", TemplateFile "y")].

Definition dirWorld : World :=
  {| files := {[ "/app/a.txt" := "x" ]};
     dirs := {[ "/"; "/app"; "/app/b.txt" ]};
     heap := heap Sample.classWorld;
     log := [] |}.

(** A project where the regular file [/app/app] stands where the sample
    blueprint needs a directory. *)
Definition blockedWorld : World :=
  {| files := {[ "/app/app" := "not a directory" ]};
     dirs := {[ "/"; "/app" ]};
     heap := heap Sample.classWorld;
     log := [] |}.

(** Three addons that each ship a blueprint [foo] as the default export
    of an ES module: the modules at addresses 20, 22 and 24, the classes
    at 21, 23 and 25. *)
Definition esModule (c : nat) : obj :=
  {| default_export := Some c; blueprintName := None; addon := None; dir := None |}.

Definition threeWorld : World :=
  {| files := ∅;
     dirs := ∅;
     heap := {[ 20 := esModule 21; 21 := Sample.plainClass None None;
                22 := esModule 23; 23 := Sample.plainClass None None;
                24 := esModule 25; 25 := Sample.plainClass None None ]};
     log := [] |}.

Definition fooOf (m : nat) : list dirent :=
  [{| d_name := "foo"; d_isDirectory := true; d_module := Some m |}].

Definition threeReaddirSync (d : string) : option (list dirent) :=
  if String.eqb d "/addons/a1/blueprints" then Some (fooOf 20)
  else if String.eqb d "/addons/a2/blueprints" then Some (fooOf 22)
  else if String.eqb d "/addons/a3/blueprints" then Some (fooOf 24)
  else None.

Definition threeAddons (isLocal : bool) : list Addon :=
  [{| pkg_name := "a1"; addon_dir := "/addons/a1" |};
   {| pkg_name := "a2"; addon_dir := "/addons/a2" |};
   {| pkg_name := "a3"; addon_dir := "/addons/a3" |}].

End Cases.

(** ** Further notions used by the properties below *)

(** A computation that creates no file and changes none: however it ends,
    a file on disk afterwards was there before, with the same contents. *)
Definition onlyDeletes {A} (m : M A) : Prop :=
  forall w w' r, m w = (w', r) ->
  forall p c, files w' !! p = Some c -> files w !! p = Some c.

(** The node a path leads to, and the path of the next element of the
    same array. *)
Fixpoint at_path (p : list nat) (a : ast) : option ast :=
  match p with
  | [] => Some a
  | i :: p' =>
      match a with
      | AList items =>
          match items !! i with
          | Some c => at_path p' c
          | None => None
          end
      | ANode fields =>
          match fields !! i with
          | Some kc => at_path p' (snd kc)
          | None => None
          end
      | AVal _ => None
      end
  end.

Fixpoint next_sibling (p : list nat) : list nat :=
  match p with
  | [] => []
  | i :: p' =>
      match p' with
      | [] => [S i]
      | _ :: _ => i :: next_sibling p'
      end
  end.

(** The lines [generate] logs for a list of entries of the walk: one for
    each template file, none for a directory. *)
Definition isTemplateFile (entry : string * tnode) : bool :=
  match snd entry with
  | TemplateFile _ => true
  | TemplateDir => false
  end.

Definition isString (v : jsval) : bool :=
  match v with
  | VStr _ => true
  | _ => false
  end.

(** A computation that touches one file at most: it leaves the classes
    and the log alone, changes no other file, and leaves the world as it
    found it when it throws. *)
Definition touchesOnly {A} (target : string) (m : M A) : Prop :=
  forall w w' r, m w = (w', r) ->
    heap w' = heap w /\ log w' = log w /\ dirs w' = dirs w /\
    (forall p, p <> target -> files w' !! p = files w !! p) /\
    (forall e, r = Throw e -> w' = w).

(** An expression statement that calls [router.method] with the literal
    arguments [vals] first, and any arguments after them. *)
Definition routerInvocationFrom (router : jsval) (method : string) (vals : list jsval)
    (stmt : ast) : Prop :=
  exists sfields efields cfields ofields pfields items more,
    stmt = ANode sfields /\
    field sfields "type" = Some (AVal (VStr "ExpressionStatement")) /\
    field sfields "expression" = Some (ANode efields) /\
    field efields "callee" = Some (ANode cfields) /\
    field cfields "object" = Some (ANode ofields) /\
    field ofields "name" = Some (AVal router) /\
    field cfields "property" = Some (ANode pfields) /\
    field pfields "name" = Some (AVal (VStr method)) /\
    field efields "arguments" = Some (AList (items ++ more)) /\
    Forall2 literalOf items vals.

(** * Properties *)

(** ** The scan of [_.template] and the sample blueprint, run *)

Example tokenize_default_es :
  Lodash.tokenize Lodash.ReInterpolate "a${x}" =
  [Lodash.TText "a"; Lodash.TInterpolate "x"].
Proof. reflexivity. Qed.

Example tokenize_literal_es :
  Lodash.tokenize Lodash.ErbLiteral "${x}" =
  [Lodash.TText "$"; Lodash.TText "{"; Lodash.TText "x"; Lodash.TText "}"].
Proof. reflexivity. Qed.

Example tokenize_name :
  Lodash.tokenize Lodash.NameLiteral "a/__name__.js" =
  [Lodash.TText "a"; Lodash.TText "/"; Lodash.TInterpolate "name";
   Lodash.TText "."; Lodash.TText "j"; Lodash.TText "s"].
Proof. reflexivity. Qed.

Example tokenize_name_greedy :
  Lodash.tokenize Lodash.NameLiteral "__a__/__b__" = [Lodash.TInterpolate "a__/__b"].
Proof. reflexivity. Qed.

Example tokenize_unclosed :
  Lodash.tokenize Lodash.ErbLiteral "<%= x" =
  [Lodash.TText "<"; Lodash.TText "%"; Lodash.TText "="; Lodash.TText " "; Lodash.TText "x"].
Proof. reflexivity. Qed.

Example tokenize_empty_interpolate :
  Lodash.tokenize Lodash.ErbLiteral "<%=%>" = [Lodash.TEvaluate "="].
Proof. reflexivity. Qed.

Example tokenize_underscores :
  Lodash.tokenize Lodash.NameLiteral "____" =
  [Lodash.TText "_"; Lodash.TText "_"; Lodash.TText "_"; Lodash.TText "_"] /\
  Lodash.tokenize Lodash.NameLiteral "_____" = [Lodash.TInterpolate "_"].
Proof. split; reflexivity. Qed.

Example tokenize_name_stops_at_space :
  Lodash.tokenize Lodash.NameLiteral "__a__ __b__" =
  [Lodash.TInterpolate "a"; Lodash.TText " "; Lodash.TInterpolate "b"].
Proof. reflexivity. Qed.

Example tokenize_erb :
  Lodash.tokenize Lodash.ErbLiteral "<%= x %>;<%- y %><% z %>" =
  [Lodash.TInterpolate " x "; Lodash.TText ";"; Lodash.TEscape " y "; Lodash.TEvaluate " z "].
Proof. reflexivity. Qed.

Example sample_generate_plain :
  files (fst (Sample.generate Sample.plainTree (Ok tt) Sample.classWorld))
  = {[ "/app/app/world.js" := "hello world!" ]}.
Proof. vm_compute. reflexivity. Qed.

Example sample_destroy_plain :
  files (fst (Sample.destroy Sample.plainTree
                (fst (Sample.generate Sample.plainTree (Ok tt) Sample.classWorld))))
  = ∅.
Proof. vm_compute. reflexivity. Qed.

(** ** Template materialisation *)

Section BlueprintFacts.

Context (Data Argv : Type).
Context (evalExpr : Data -> string -> option string).
Context (runScript : Data -> list Lodash.token -> option string).
Context (path_join : string -> string -> string) (cwd : string).
Context (dirnames : string -> list string).
Context (compiles : Lodash.interpolate -> string -> bool).
Context (walk : string -> option (list (string * tnode))).

Local Abbreviation template := (template Data evalExpr runScript).
Local Abbreviation generateFile := (generateFile Data evalExpr runScript path_join dirnames compiles).
Local Abbreviation generate := (generate Data Argv evalExpr runScript path_join cwd dirnames compiles walk).
Local Abbreviation templateFiles := (templateFiles Data Argv path_join).
Local Abbreviation destroy := (destroy Data Argv evalExpr runScript path_join cwd dirnames walk).
Local Abbreviation filesToDelete := (filesToDelete Data Argv evalExpr runScript path_join cwd walk).
Local Abbreviation destroyTarget := (destroyTarget Data evalExpr runScript path_join).
Local Abbreviation destroyClean := (destroyClean Data evalExpr runScript).
Local Abbreviation unmodified := (unmodified Data evalExpr runScript).
Local Abbreviation targetOf := (targetOf Data evalExpr runScript path_join).

(** What one round of the loop of [generate] does. *)
Lemma generateFile_cases data dest rel node w :
  generateFile data dest (rel, node) w =
  match node with
  | TemplateDir => (w, Ok tt)
  | TemplateFile contents =>
      match template Lodash.NameLiteral rel data with
      | None => (w, Throw engineError)
      | Some destRel =>
          let p := path_join dest destRel in
          if onDiskAt w p then (add_log (Info "already exists" destRel) w, Ok tt)
          else if negb (compiles Lodash.ErbLiteral contents) then (w, Throw engineError)
          else if existsb (fun d => bool_decide (is_Some (files w !! d))) (dirnames p)
          then (w, Throw engineError)
          else
            let w1 := set_dirs (list_to_set (dirnames p) ∪ dirs w) w in
            match template Lodash.ErbLiteral contents data with
            | None => (w1, Throw engineError)
            | Some rendered =>
                if bool_decide (p ∈ dirnames p) then (w1, Throw engineError)
                else (add_log (Info "create" destRel)
                        (set_files (<[p := rendered]> (files w)) w1), Ok tt)
            end
      end
  end.
Proof.
  unfold generateFile, bind, lift, ret, throw, existsSync, ui_info.
  destruct node as [|contents]; [reflexivity|].
  destruct (template _ rel data) as [destRel|]; cbn [of_option]; [|reflexivity].
  cbv zeta. destruct (onDiskAt w (path_join dest destRel)) eqn:Hon; [reflexivity|].
  destruct (compiles Lodash.ErbLiteral contents); cbn [negb]; [|reflexivity].
  unfold mkdirp.
  destruct (existsb _ (dirnames (path_join dest destRel))); [reflexivity|].
  destruct (template _ contents data) as [rendered|]; cbn [of_option]; [|reflexivity].
  unfold writeFileSync. cbn [files dirs set_dirs].
  apply orb_false_elim in Hon as [Hf Hd]. rewrite Hf. cbn [orb].
  apply bool_decide_eq_false in Hd.
  destruct (decide (path_join dest destRel ∈ dirnames (path_join dest destRel))) as [Hin|Hin].
  - rewrite !bool_decide_eq_true_2; [reflexivity|done|].
    by apply elem_of_union_l, elem_of_list_to_set.
  - rewrite !bool_decide_eq_false_2; [reflexivity|done|].
    rewrite elem_of_union, elem_of_list_to_set. by intros [?|?].
Qed.

Lemma templateFiles_world bp w w' r :
  templateFiles bp w = (w', r) -> w' = w.
Proof.
  unfold templateFiles. intros H.
  destruct (heap w !! cls bp) as [[? ? ? [d|]]|]; by inversion H.
Qed.

(** A round of the loop keeps every file that was there, with its
    contents, and leaves the heap alone. *)
Lemma generateFile_keeps data dest entry w w' r :
  generateFile data dest entry w = (w', r) ->
  heap w' = heap w /\
  forall p c, files w !! p = Some c -> files w' !! p = Some c.
Proof.
  destruct entry as [rel node]. rewrite generateFile_cases.
  destruct node as [|contents]; [by inversion 1|].
  destruct (template _ rel data) as [destRel|]; [|by inversion 1].
  cbv zeta. destruct (onDiskAt w _) eqn:Hex; [by inversion 1|].
  destruct (compiles _ _); cbn [negb]; [|by inversion 1].
  destruct (existsb _ _); [by inversion 1|].
  destruct (template _ contents data) as [rendered|]; [|by inversion 1].
  case_bool_decide; [by inversion 1|].
  inversion 1; subst; simpl. split; [done|].
  intros p c Hp. rewrite lookup_insert_ne; [done|].
  intros Heq. apply orb_false_elim in Hex as [Hex _].
  apply bool_decide_eq_false in Hex. apply Hex. rewrite Heq. by exists c.
Qed.

Lemma forEach_generateFile_keeps data dest entries w w' r :
  forEach entries (generateFile data dest) w = (w', r) ->
  heap w' = heap w /\
  forall p c, files w !! p = Some c -> files w' !! p = Some c.
Proof.
  revert w. induction entries as [|e entries IH]; intros w; simpl.
  - by inversion 1.
  - unfold bind. destruct (generateFile data dest e w) as [w1 [[]|e1]] eqn:He.
    + intros H. apply generateFile_keeps in He as [Hh Hf].
      apply IH in H as [Hh' Hf']. split; [congruence|eauto].
    + inversion 1; subst. by apply generateFile_keeps in He.
Qed.

(** A round of the loop removes no directory. *)
Lemma generateFile_dirs data dest entry w w' r :
  generateFile data dest entry w = (w', r) ->
  forall d, d ∈ dirs w -> d ∈ dirs w'.
Proof.
  destruct entry as [rel node]. rewrite generateFile_cases.
  destruct node as [|contents]; [by inversion 1|].
  destruct (template _ rel data) as [destRel|]; [|by inversion 1].
  cbv zeta. destruct (onDiskAt w _); [by inversion 1|].
  destruct (compiles _ _); cbn [negb]; [|by inversion 1].
  destruct (existsb _ _); [by inversion 1|].
  destruct (template _ contents data) as [rendered|];
    [case_bool_decide|]; inversion 1; subst; simpl;
    intros d Hd; by apply elem_of_union_r.
Qed.

Lemma forEach_generateFile_dirs data dest entries w w' r :
  forEach entries (generateFile data dest) w = (w', r) ->
  forall d, d ∈ dirs w -> d ∈ dirs w'.
Proof.
  revert w. induction entries as [|e entries IH]; intros w; simpl.
  - by inversion 1.
  - unfold bind. destruct (generateFile data dest e w) as [w1 [[]|e1]] eqn:He.
    + intros H d Hd. eapply IH; [done|]. by eapply generateFile_dirs.
    + inversion 1; subst. by eapply generateFile_dirs.
Qed.

(** What is on disk stays on disk through the loop. *)
Lemma forEach_generateFile_onDiskAt data dest entries w w' r p :
  forEach entries (generateFile data dest) w = (w', r) ->
  onDiskAt w p = true -> onDiskAt w' p = true.
Proof.
  intros H [Hf|Hd]%orb_prop; unfold onDiskAt.
  - apply bool_decide_eq_true in Hf as [c Hc].
    apply forEach_generateFile_keeps in H as [_ Hkeep].
    rewrite bool_decide_eq_true_2; [done|]. exists c. by apply Hkeep.
  - apply bool_decide_eq_true in Hd.
    rewrite (bool_decide_eq_true_2 (p ∈ dirs w')); [by rewrite orb_true_r|].
    by eapply forEach_generateFile_dirs.
Qed.

Lemma generateFile_log data dest entry w w' r :
  generateFile data dest entry w = (w', r) ->
  exists l, log w' = (log w ++ l)%list.
Proof.
  destruct entry as [rel node]. rewrite generateFile_cases.
  destruct node as [|contents]; [inversion 1; exists []; by rewrite app_nil_r|].
  destruct (template _ rel data) as [destRel|];
    [|inversion 1; exists []; by rewrite app_nil_r].
  cbv zeta. destruct (onDiskAt w _); [inversion 1; by eexists|].
  destruct (compiles _ _); cbn [negb]; [|inversion 1; exists []; by rewrite app_nil_r].
  destruct (existsb _ _); [inversion 1; exists []; by rewrite app_nil_r|].
  destruct (template _ contents data) as [rendered|];
    [|inversion 1; exists []; by rewrite app_nil_r].
  case_bool_decide; [inversion 1; exists []; by rewrite app_nil_r|].
  inversion 1; by eexists.
Qed.

Lemma forEach_generateFile_log data dest entries w w' r :
  forEach entries (generateFile data dest) w = (w', r) ->
  exists l, log w' = (log w ++ l)%list.
Proof.
  revert w. induction entries as [|e entries IH]; intros w; simpl.
  - inversion 1. exists []. by rewrite app_nil_r.
  - unfold bind. destruct (generateFile data dest e w) as [w1 [[]|e1]] eqn:He.
    + intros H. apply generateFile_log in He as [l1 Hl1].
      apply IH in H as [l2 Hl2]. exists (l1 ++ l2)%list. by rewrite Hl2, Hl1, app_assoc.
    + inversion 1; subst. by apply generateFile_log in He.
Qed.

(** A template file whose destination is on disk when the loop starts,
    as a file or as a directory, is reported, once the loop gets
    through. *)
Lemma forEach_generateFile_reports data dest entries w w' rel contents destRel :
  forEach entries (generateFile data dest) w = (w', Ok tt) ->
  In (rel, TemplateFile contents) entries ->
  template Lodash.NameLiteral rel data = Some destRel ->
  onDiskAt w (path_join dest destRel) = true ->
  In (Info "already exists" destRel) (log w').
Proof.
  revert w. induction entries as [|e entries IH]; intros w; simpl; [done|].
  unfold bind. destruct (generateFile data dest e w) as [w1 [[]|e1]] eqn:He; [|done].
  intros Hrest [->|Hin] Hname Hex.
  - rewrite generateFile_cases, Hname in He. cbv zeta in He. rewrite Hex in He.
    inversion He; subst w1.
    apply forEach_generateFile_log in Hrest as [l ->]. simpl.
    apply in_or_app. left. apply in_or_app. right. by left.
  - apply (IH w1); try done.
    apply (forEach_generateFile_onDiskAt data dest [e] w w1 (Ok tt)); [|done].
    cbn [forEach]. unfold bind. by rewrite He.
Qed.

(** [generate], step by step. *)
Lemma generate_cases bp argv w :
  generate bp argv w =
  match locals bp argv with
  | Throw e => (w, Throw e)
  | Ok data =>
      match templateFiles bp w with
      | (_, Throw e) => (w, Throw e)
      | (_, Ok src) =>
          match walk src with
          | None => (w, Throw engineError)
          | Some entries =>
              match forEach entries (generateFile data cwd) w with
              | (w1, Throw e) => (w1, Throw e)
              | (w1, Ok _) =>
                  match postInstall bp argv with
                  | Ok _ => (w1, Ok tt)
                  | Throw e =>
                      match stack_or_self e with
                      | Ok v =>
                          (add_log (Error v)
                             (add_log (Error (VStr "postInstall failed:")) w1), Ok tt)
                      | Throw t =>
                          (add_log (Error (VStr "postInstall failed:")) w1, Throw t)
                      end
                  end
              end
          end
      end
  end.
Proof.
  unfold generate, bind, lift, try_catch, ui_error.
  destruct (locals bp argv) as [data|e]; [|reflexivity].
  destruct (templateFiles bp w) as [w0 [src|e]] eqn:Hs;
    apply templateFiles_world in Hs as ->; [|reflexivity].
  unfold of_option. destruct (walk src) as [entries|]; [|reflexivity].
  destruct (forEach entries _ w) as [w1 [[]|e]]; [|reflexivity].
  destruct (postInstall bp argv) as [[]|e]; [reflexivity|].
  destruct (stack_or_self e); reflexivity.
Qed.

(** C8.  [generate] never overwrites an existing file: whatever the call
    does and however it ends, every file that was on disk is still there
    with the contents it had; and when the call resolves, every template
    file whose interpolated destination was already on disk, as a file or
    as a directory, has been reported as "already exists". *)
Theorem generate_never_overwrites bp argv w w' r :
  generate bp argv w = (w', r) ->
  (forall p c, files w !! p = Some c -> files w' !! p = Some c) /\
  (r = Ok tt ->
   forall data src entries rel contents destRel,
     locals bp argv = Ok data ->
     templateFiles bp w = (w, Ok src) ->
     walk src = Some entries ->
     In (rel, TemplateFile contents) entries ->
     template Lodash.NameLiteral rel data = Some destRel ->
     onDiskAt w (path_join cwd destRel) = true ->
     In (Info "already exists" destRel) (log w')).
Proof.
  rewrite generate_cases. intros H.
  destruct (locals bp argv) as [data|e] eqn:Hl; [|by inversion H; subst].
  destruct (templateFiles bp w) as [w0 [src|e]] eqn:Hs; [|by inversion H; subst].
  destruct (walk src) as [entries|] eqn:Hw; [|by inversion H; subst].
  destruct (forEach entries (generateFile data cwd) w) as [w1 ro] eqn:Hloop.
  pose proof (forEach_generateFile_keeps _ _ _ _ _ _ Hloop) as [_ Hkeep].
  assert (Hfiles : files w' = files w1).
  { destruct ro as [[]|e]; [|by inversion H; subst].
    destruct (postInstall bp argv) as [[]|e]; [by inversion H; subst|].
    destruct (stack_or_self e); by inversion H; subst. }
  split.
  - intros p c Hp. rewrite Hfiles. eauto.
  - intros -> data' src' entries' rel contents destRel Hl' Hs' Hw' Hin Hname Hex.
    assert (data' = data) as -> by congruence.
    assert (src' = src) as -> by congruence.
    assert (entries' = entries) as -> by congruence.
    destruct ro as [[]|e]; [|by inversion H].
    pose proof (forEach_generateFile_reports _ _ _ _ _ _ _ _ Hloop Hin Hname Hex) as Hrep.
    destruct (postInstall bp argv) as [[]|e]; [by inversion H; subst|].
    destruct (stack_or_self e); inversion H; subst; simpl.
    apply in_or_app. left. apply in_or_app. by left.
Qed.

(** Every file the loop creates comes from a template file: it stands at
    the rendering of the template's path and holds the rendering of the
    template's contents. *)
Lemma forEach_generateFile_created data dest entries w w' r p c :
  forEach entries (generateFile data dest) w = (w', r) ->
  files w !! p = None ->
  files w' !! p = Some c ->
  exists rel contents destRel,
    In (rel, TemplateFile contents) entries /\
    p = path_join dest destRel /\
    template Lodash.NameLiteral rel data = Some destRel /\
    template Lodash.ErbLiteral contents data = Some c.
Proof.
  revert w. induction entries as [|e entries IH]; intros w; simpl.
  - inversion 1; subst. congruence.
  - unfold bind. destruct (generateFile data dest e w) as [w1 ro] eqn:He.
    intros Hrest Hnone Hsome.
    assert (Hend : forall c1, files w1 !! p = Some c1 -> files w' !! p = Some c1).
    { intros c1 Hc1. destruct ro as [[]|e1]; [|by inversion Hrest; subst].
      by apply (forEach_generateFile_keeps _ _ _ _ _ _ Hrest). }
    destruct (files w1 !! p) as [c1|] eqn:Hw1.
    + specialize (Hend c1 eq_refl). assert (c1 = c) as -> by congruence.
      destruct e as [rel node]. rewrite generateFile_cases in He.
      destruct node as [|contents]; [inversion He; subst; congruence|].
      destruct (template _ rel data) as [destRel|] eqn:Hname;
        [|inversion He; subst; congruence].
      cbv zeta in He.
      destruct (onDiskAt w _); [inversion He; subst; simpl in *; congruence|].
      destruct (compiles _ _); cbn [negb] in He; [|inversion He; subst; congruence].
      destruct (existsb _ _); [inversion He; subst; congruence|].
      destruct (template _ contents data) as [rendered|] eqn:Hc;
        [|inversion He; subst; simpl in *; congruence].
      case_bool_decide; [inversion He; subst; simpl in *; congruence|].
      inversion He; subst; simpl in *.
      destruct (decide (path_join dest destRel = p)) as [<-|Hne].
      * rewrite lookup_insert_eq in Hw1. exists rel, contents, destRel.
        repeat split; try done. by left. congruence.
      * rewrite lookup_insert_ne in Hw1 by done. congruence.
    + destruct ro as [[]|e1]; [|inversion Hrest; subst; congruence].
      destruct (IH w1 Hrest Hw1 Hsome) as (rel & contents & destRel & Hin & ?).
      exists rel, contents, destRel. split; [by right|done].
Qed.

Lemma generate_files bp argv w w' r data src entries :
  locals bp argv = Ok data ->
  templateFiles bp w = (w, Ok src) ->
  walk src = Some entries ->
  generate bp argv w = (w', r) ->
  exists w1 r1, forEach entries (generateFile data cwd) w = (w1, r1) /\
                files w' = files w1 /\ heap w' = heap w.
Proof.
  intros Hl Hs Hw. rewrite generate_cases, Hl, Hs, Hw.
  destruct (forEach entries _ w) as [w1 ro] eqn:Hloop. intros H.
  pose proof (forEach_generateFile_keeps _ _ _ _ _ _ Hloop) as [Hh _].
  exists w1, ro. split; [done|].
  destruct ro as [[]|e]; [|by inversion H; subst].
  destruct (postInstall bp argv) as [[]|e]; [by inversion H; subst|].
  destruct (stack_or_self e); by inversion H; subst.
Qed.

(** Where lodash's scan meets no escape and no evaluate block, it finds
    the markers of the option and nothing else. *)
Lemma scan_markers i skip s :
  i <> Lodash.ReInterpolate ->
  forallb (fun t => negb (Lodash.is_escape t || Lodash.is_evaluate t))
    (Lodash.scan i skip s) = true ->
  Markers.markers i skip s = Lodash.scan i skip s.
Proof.
  intros Hi. revert skip. induction s as [|c s IH]; intros skip; [done|].
  destruct skip as [|k]; simpl; [|by apply IH].
  unfold Lodash.match_at.
  destruct (Lodash.match_erb "<%-" (String c s)) as [[b n]|]; [done|].
  destruct (Lodash.match_interpolate i (String c s)) as [[b n]|].
  { simpl. intros H. f_equal. by apply IH. }
  assert (Lodash.match_es_template i (String c s) = None) as ->
    by (by destruct i).
  destruct (Lodash.match_erb "<%" (String c s)) as [[b n]|]; [done|].
  simpl. intros H. f_equal. by apply IH.
Qed.

Lemma forallb_no_evaluate ts :
  forallb (fun t => negb (Lodash.is_escape t || Lodash.is_evaluate t)) ts = true ->
  existsb Lodash.is_evaluate ts = false.
Proof.
  induction ts as [|t ts IH]; simpl; [done|].
  intros [Ht Hts]%andb_true_iff. rewrite (IH Hts).
  destruct t; simpl in *; done.
Qed.

Lemma template_markers i s d :
  i <> Lodash.ReInterpolate ->
  Markers.onlyMarkers i s = true ->
  Markers.replaceMarkers Data evalExpr i s d = template i s d.
Proof.
  intros Hi Hplain.
  unfold Markers.replaceMarkers, template, Lodash.template, Lodash.run.
  unfold Markers.onlyMarkers, Lodash.tokenize in *.
  rewrite (forallb_no_evaluate _ Hplain).
  by rewrite (scan_markers _ _ _ Hi Hplain).
Qed.

(** C3, amended.  Every file [generate] creates stands at lodash's
    rendering of a template file's relative path (interpolate delimiter:
    two underscores, the longest run of non-space characters that two
    underscores follow, two underscores) and holds lodash's rendering of
    that template's contents (interpolate delimiter [<%= ... %>]); where
    the path, respectively the contents, holds no block of lodash's escape
    and evaluate delimiters, the rendering is the text with each marker
    replaced by the value of its expression. *)
Theorem generated_file_is_rendered_template bp argv w w' r data src entries p c :
  locals bp argv = Ok data ->
  templateFiles bp w = (w, Ok src) ->
  walk src = Some entries ->
  generate bp argv w = (w', r) ->
  files w !! p = None ->
  files w' !! p = Some c ->
  exists rel contents destRel,
    In (rel, TemplateFile contents) entries /\
    p = path_join cwd destRel /\
    template Lodash.NameLiteral rel data = Some destRel /\
    template Lodash.ErbLiteral contents data = Some c /\
    (Markers.onlyMarkers Lodash.NameLiteral rel = true ->
     Markers.replaceMarkers Data evalExpr Lodash.NameLiteral rel data = Some destRel) /\
    (Markers.onlyMarkers Lodash.ErbLiteral contents = true ->
     Markers.replaceMarkers Data evalExpr Lodash.ErbLiteral contents data = Some c).
Proof.
  intros Hl Hs Hw Hgen Hnone Hsome.
  destruct (generate_files _ _ _ _ _ _ _ _ Hl Hs Hw Hgen) as (w1 & r1 & Hloop & Hf & _).
  rewrite Hf in Hsome.
  destruct (forEach_generateFile_created _ _ _ _ _ _ _ _ Hloop Hnone Hsome)
    as (rel & contents & destRel & Hin & Hp & Hname & Hc).
  exists rel, contents, destRel. repeat split; try done.
  - intros Hplain. by rewrite template_markers.
  - intros Hplain. by rewrite template_markers.
Qed.

(** ** Destruction *)

Lemma mmap_destroyTarget data dest entries w w' ts :
  mmap (destroyTarget data dest) entries w = (w', Ok ts) ->
  w' = w /\ Forall2 (targetOf data dest) entries ts.
Proof.
  revert w ts. induction entries as [|[rel node] entries IH]; intros w ts; simpl.
  - inversion 1. by split.
  - unfold bind at 1. unfold destroyTarget at 1. unfold bind at 1, lift, ret.
    destruct (template _ (relative rel) data) as [destRel|] eqn:Hname; simpl; [|done].
    unfold bind at 1.
    destruct (mmap _ entries w) as [w1 [ts1|e]] eqn:Hrest; [|done].
    inversion 1; subst. apply IH in Hrest as [-> Hts]. split; [done|].
    constructor; [|done]. by repeat split.
Qed.

Lemma mfilter_destroyExists ts w :
  exists w', mfilter destroyExists ts w = (w', Ok (List.filter (onDisk w) ts)) /\
             files w' = files w /\ dirs w' = dirs w /\ heap w' = heap w.
Proof.
  assert (Hgen : forall w0, files w0 = files w -> dirs w0 = dirs w -> heap w0 = heap w ->
            exists w', mfilter destroyExists ts w0 = (w', Ok (List.filter (onDisk w) ts)) /\
                       files w' = files w /\ dirs w' = dirs w /\ heap w' = heap w).
  { induction ts as [|t ts IH]; intros w0 Hf Hd Hh; simpl.
    - by exists w0.
    - unfold bind at 1. unfold destroyExists at 1, onDisk at 1.
      destruct (absolutepath t) as [|c]; unfold ret at 1.
      + destruct (IH w0 Hf Hd Hh) as (w' & Hrest & ?). exists w'.
        unfold bind. by rewrite Hrest.
      + unfold bind at 1, existsSync.
        assert (onDiskAt w0 (destAbsolutepath t) = onDiskAt w (destAbsolutepath t)) as ->
          by (unfold onDiskAt; by rewrite Hf, Hd).
        destruct (onDiskAt w (destAbsolutepath t)); unfold ret, bind, ui_info.
        * destruct (IH w0 Hf Hd Hh) as (w' & Hrest & ?). exists w'. by rewrite Hrest.
        * destruct (IH (add_log (Info "missing" (destRelativepath t)) w0) Hf Hd Hh)
            as (w' & Hrest & ?).
          exists w'. by rewrite Hrest. }
  by apply Hgen.
Qed.

(** The third pass, where it gets through: every target had a regular
    file at its destination and a template that renders. *)
Lemma mfilter_destroyClean data ts w w' kept :
  mfilter (destroyClean data) ts w = (w', Ok kept) ->
  kept = List.filter (unmodified (files w) data) ts /\
  files w' = files w /\ dirs w' = dirs w /\ heap w' = heap w.
Proof.
  revert w kept. induction ts as [|t ts IH]; intros w kept; simpl.
  - inversion 1. by repeat split.
  - intros H.
    unfold bind at 1 in H. unfold destroyClean at 1 in H.
    unfold unmodified at 1.
    destruct (absolutepath t) as [|src]; [done|].
    unfold bind at 1, lift, readFileSync in H. simpl in H.
    unfold bind at 1 in H.
    destruct (files w !! destAbsolutepath t) as [current|] eqn:Hcur; [|done].
    simpl in H. unfold bind at 1 in H.
    destruct (template Lodash.ReInterpolate src data) as [compiled|] eqn:Hc;
      simpl in H; [|done].
    unfold bind at 1, ui_info, ret in H.
    set (b := bool_decide (current = compiled)) in *.
    assert (Hb : bool_decide (Some compiled = Some current) = b).
    { unfold b. apply bool_decide_ext. split; congruence. }
    rewrite Hb. clear Hb.
    destruct b; simpl in H; unfold bind at 1 in H.
    + destruct (mfilter _ ts _) as [w1 [kept1|e]] eqn:Hrest; [|done].
      inversion H; subst. apply IH in Hrest as (-> & Hf & Hd & Hh).
      by repeat split.
    + destruct (mfilter _ ts _) as [w1 [kept1|e]] eqn:Hrest; [|done].
      inversion H; subst. apply IH in Hrest as (-> & Hf & Hd & Hh).
      by repeat split.
Qed.

(** [rimraf] over a list of regular files: they are gone, every other
    file is as it was. *)
Lemma forEach_rimraf doomed w :
  Forall (fun d => is_Some (files w !! d) \/ d ∉ dirs w) doomed ->
  exists w', forEach doomed (rimraf dirnames) w = (w', Ok tt) /\
             heap w' = heap w /\ log w' = log w /\
             forall p, files w' !! p =
                       if bool_decide (p ∈ doomed) then None else files w !! p.
Proof.
  revert w. induction doomed as [|d doomed IH]; intros w Hall; simpl.
  - exists w. repeat split; try done.
  - inversion Hall as [|? ? Hd Hrest]; subst.
    unfold bind, rimraf at 1.
    destruct (decide (is_Some (files w !! d))) as [Hfile|Hnofile].
    + rewrite bool_decide_eq_true_2 by done.
      match goal with |- context [forEach doomed _ ?w0] =>
        destruct (IH w0) as (w' & -> & Hh & Hl & Hf) end.
      { eapply Forall_impl; [exact Hrest|]. intros x Hx. cbn [files dirs].
        destruct (decide (x = d)) as [->|Hne].
        { right. rewrite elem_of_difference, elem_of_singleton. by intros [_ ?]. }
        destruct Hx as [Hx|Hx]; [left; by rewrite lookup_delete_ne|].
        right. rewrite elem_of_difference. by intros [? _]. }
      exists w'. repeat split; try done. intros p. rewrite Hf. simpl.
      destruct (decide (d = p)) as [->|Hne].
      * rewrite lookup_delete_eq, (bool_decide_eq_true_2 (p ∈ p :: doomed)) by (by left).
        by case_bool_decide.
      * rewrite lookup_delete_ne by done.
        destruct (decide (p ∈ doomed)) as [Hin|Hnin].
        -- rewrite !bool_decide_eq_true_2; [done|by right|done].
        -- rewrite !bool_decide_eq_false_2; [done| |done].
           intros [->|?]%elem_of_cons; done.
    + rewrite bool_decide_eq_false_2 by done.
      destruct Hd as [Hd|Hd]; [done|]. rewrite bool_decide_eq_false_2 by done.
      destruct (IH w Hrest) as (w' & -> & Hh & Hl & Hf).
      exists w'. repeat split; try done. intros p. rewrite Hf.
      destruct (decide (p ∈ doomed)) as [Hin|Hnin].
      * rewrite !bool_decide_eq_true_2; [done|by right|done].
      * rewrite bool_decide_eq_false_2 by done.
        destruct (decide (p = d)) as [->|Hne].
        -- rewrite bool_decide_eq_true_2 by (by left).
           apply eq_None_not_Some. done.
        -- rewrite bool_decide_eq_false_2; [done|].
           intros [->|?]%elem_of_cons; done.
Qed.

Lemma forEach_rimraf_dirs doomed w w' r :
  Forall (fun d => is_Some (files w !! d) \/ d ∉ dirs w) doomed ->
  forEach doomed (rimraf dirnames) w = (w', r) ->
  forall p, p ∈ dirs w' -> p ∈ dirs w /\ p ∉ doomed.
Proof.
  revert w. induction doomed as [|d doomed IH]; intros w Hall; simpl.
  - inversion 1; subst. intros p Hp. split; [done|]. by intros ?%elem_of_nil.
  - inversion Hall as [|? ? Hd Hrest]; subst.
    unfold bind, rimraf at 1.
    destruct (decide (is_Some (files w !! d))) as [Hfile|Hnofile].
    + rewrite bool_decide_eq_true_2 by done.
      intros Hrm p Hp. eapply IH in Hrm as [Hin Hnot]; [|clear Hrm|exact Hp].
      * cbn [dirs] in Hin. apply elem_of_difference in Hin as [Hin Hne].
        split; [done|]. intros [->|?]%elem_of_cons; [|done].
        apply Hne. by apply elem_of_singleton.
      * eapply Forall_impl; [exact Hrest|]. intros x Hx. cbn [files dirs].
        destruct (decide (x = d)) as [->|Hne].
        { right. rewrite elem_of_difference, elem_of_singleton. by intros [_ ?]. }
        destruct Hx as [Hx|Hx]; [left; by rewrite lookup_delete_ne|].
        right. rewrite elem_of_difference. by intros [? _].
    + rewrite bool_decide_eq_false_2 by done.
      destruct Hd as [Hd|Hd]; [done|]. rewrite bool_decide_eq_false_2 by done.
      intros Hrm p Hp. eapply IH in Hrm as [Hin Hnot]; [|exact Hrest|exact Hp].
      split; [done|]. intros [->|?]%elem_of_cons; done.
Qed.

Lemma forEach_rimraf_keeps_dirs doomed w w' r :
  Forall (fun d => is_Some (files w !! d) \/ d ∉ dirs w) doomed ->
  forEach doomed (rimraf dirnames) w = (w', r) ->
  forall p, p ∈ dirs w -> files w !! p = None -> p ∈ dirs w'.
Proof.
  revert w. induction doomed as [|d doomed IH]; intros w Hall; simpl.
  - inversion 1; subst. done.
  - inversion Hall as [|? ? Hd Hrest]; subst.
    unfold bind, rimraf at 1.
    destruct (decide (is_Some (files w !! d))) as [Hfile|Hnofile].
    + rewrite bool_decide_eq_true_2 by done.
      intros Hrm p Hp Hnone.
      assert (Hne : p <> d).
      { intros ->. rewrite Hnone in Hfile. by destruct Hfile. }
      eapply IH in Hrm; [exact Hrm|clear Hrm| |].
      * eapply Forall_impl; [exact Hrest|]. intros x Hx. cbn [files dirs].
        destruct (decide (x = d)) as [->|Hxd].
        { right. rewrite elem_of_difference, elem_of_singleton. by intros [_ ?]. }
        destruct Hx as [Hx|Hx]; [left; by rewrite lookup_delete_ne|].
        right. rewrite elem_of_difference. by intros [? _].
      * cbn [dirs]. apply elem_of_difference. split; [done|].
        by intros ?%elem_of_singleton.
      * cbn [files]. by rewrite lookup_delete_ne.
    + rewrite bool_decide_eq_false_2 by done.
      destruct Hd as [Hd|Hd]; [done|]. rewrite bool_decide_eq_false_2 by done.
      intros Hrm p Hp Hnone. by eapply IH in Hrm.
Qed.

Lemma Forall2_In_r {A B} (R : A -> B -> Prop) xs ys y :
  Forall2 R xs ys -> In y ys -> exists x, In x xs /\ R x y.
Proof.
  induction 1 as [|x y' xs ys HR _ IH]; simpl; [done|].
  intros [->|Hin]; [exists x; by split; [left|]|].
  destruct (IH Hin) as (x0 & ? & ?). exists x0. split; [by right|done].
Qed.

Lemma Forall2_In_l {A B} (R : A -> B -> Prop) xs ys x :
  Forall2 R xs ys -> In x xs -> exists y, In y ys /\ R x y.
Proof.
  induction 1 as [|x' y xs ys HR _ IH]; simpl; [done|].
  intros [->|Hin]; [exists y; by split; [left|]|].
  destruct (IH Hin) as (y0 & ? & ?). exists y0. split; [by right|done].
Qed.

Lemma unmodified_onDisk w data t :
  unmodified (files w) data t = true -> onDisk w t = true.
Proof.
  unfold unmodified, onDisk, onDiskAt. destruct (absolutepath t); [done|].
  destruct (files w !! destAbsolutepath t) eqn:E; [|done].
  intros _. rewrite bool_decide_eq_true_2; [done|by eexists].
Qed.

(** What [filesToDelete] holds once the three passes are through. *)
Lemma filesToDelete_spec bp data w w1 doomed src entries :
  templateFiles bp w = (w, Ok src) ->
  walk src = Some entries ->
  filesToDelete bp data w = (w1, Ok doomed) ->
  files w1 = files w /\ heap w1 = heap w /\
  forall p, In p doomed <->
    exists rel contents destRel rendered,
      In (rel, TemplateFile contents) entries /\
      template Lodash.NameLiteral (relative rel) data = Some destRel /\
      p = path_join cwd destRel /\
      template Lodash.ReInterpolate contents data = Some rendered /\
      files w !! p = Some rendered.
Proof.
  intros Hs Hw. unfold filesToDelete. unfold bind at 1. rewrite Hs.
  unfold bind at 1, lift. rewrite Hw. simpl. unfold bind at 1.
  destruct (mmap _ entries w) as [w0 [ts|e]] eqn:Hts; [|done].
  apply mmap_destroyTarget in Hts as [-> Hts].
  unfold bind at 1.
  destruct (mfilter_destroyExists ts w) as (w2 & -> & Hf2 & Hd2 & Hh2).
  unfold bind at 1.
  destruct (mfilter _ _ w2) as [w3 [kept|e]] eqn:Hkept; [|done].
  apply mfilter_destroyClean in Hkept as (-> & Hf3 & Hd3 & Hh3).
  unfold ret. inversion 1; subst. rewrite Hf2 in *.
  split; [congruence|]. split; [congruence|].
  intros p. rewrite in_map_iff. split.
  - intros (t & <- & [[Hin _]%filter_In Hun]%filter_In).
    destruct (Forall2_In_r _ _ _ _ Hts Hin) as ([rel node] & Hine & Hname & Habs & Hnode).
    simpl in *. unfold unmodified in Hun. rewrite Hnode in Hun.
    destruct node as [|contents]; [done|].
    destruct (files w !! destAbsolutepath t) as [current|] eqn:Hcur; [|done].
    apply bool_decide_eq_true_1 in Hun.
    exists rel, contents, (destRelativepath t), current. by repeat split.
  - intros (rel & contents & destRel & rendered & Hine & Hname & -> & Hc & Hcur).
    destruct (Forall2_In_l _ _ _ _ Hts Hine) as (t & Hin & Hname' & Habs & Hnode).
    simpl in *. assert (destRelativepath t = destRel) as Hrel by congruence.
    exists t. split; [congruence|].
    assert (Hun : unmodified (files w) data t = true).
    { unfold unmodified. rewrite Hnode, Habs, Hrel, Hcur.
      by apply bool_decide_eq_true_2. }
    apply filter_In. split; [|done]. apply filter_In. split; [done|].
    by apply unmodified_onDisk in Hun.
Qed.

(** The list holds regular files only. *)
Lemma filesToDelete_regular bp data w w1 doomed :
  filesToDelete bp data w = (w1, Ok doomed) ->
  Forall (fun d => is_Some (files w1 !! d)) doomed.
Proof.
  unfold filesToDelete. unfold bind at 1.
  destruct (templateFiles bp w) as [w0 [src|e]] eqn:Hs; [|done].
  apply templateFiles_world in Hs as ->.
  unfold bind at 1, lift. destruct (walk src) as [entries|]; [|done]. simpl.
  unfold bind at 1.
  destruct (mmap _ entries w) as [w0 [ts|e]] eqn:Hts; [|done].
  apply mmap_destroyTarget in Hts as [-> Hts].
  unfold bind at 1.
  destruct (mfilter_destroyExists ts w) as (w2 & -> & Hf2 & Hd2 & Hh2).
  unfold bind at 1.
  destruct (mfilter _ _ w2) as [w3 [kept|e]] eqn:Hkept; [|done].
  apply mfilter_destroyClean in Hkept as (-> & Hf3 & Hd3 & Hh3).
  unfold ret. inversion 1; subst.
  apply List.Forall_forall. intros d (t & <- & [_ Hun]%filter_In)%in_map_iff.
  unfold unmodified in Hun. destruct (absolutepath t); [done|].
  rewrite Hf3. destruct (files w2 !! destAbsolutepath t); [by eexists|done].
Qed.

Lemma filesToDelete_dirs bp data w w1 doomed :
  filesToDelete bp data w = (w1, Ok doomed) -> dirs w1 = dirs w.
Proof.
  unfold filesToDelete. unfold bind at 1.
  destruct (templateFiles bp w) as [w0 [src|e]] eqn:Hs; [|done].
  apply templateFiles_world in Hs as ->.
  unfold bind at 1, lift. destruct (walk src) as [entries|]; [|done]. simpl.
  unfold bind at 1.
  destruct (mmap _ entries w) as [w0 [ts|e]] eqn:Hts; [|done].
  apply mmap_destroyTarget in Hts as [-> Hts].
  unfold bind at 1.
  destruct (mfilter_destroyExists ts w) as (w2 & -> & Hf2 & Hd2 & Hh2).
  unfold bind at 1.
  destruct (mfilter _ _ w2) as [w3 [kept|e]] eqn:Hkept; [|done].
  apply mfilter_destroyClean in Hkept as (-> & Hf3 & Hd3 & Hh3).
  unfold ret. inversion 1; subst. congruence.
Qed.

(** [destroy] after its three passes: the files of the list are gone, the
    others are as they were. *)
Lemma destroy_lookup bp argv w w' r data w1 doomed :
  locals bp argv = Ok data ->
  filesToDelete bp data w = (w1, Ok doomed) ->
  destroy bp argv w = (w', r) ->
  heap w' = heap w1 /\
  forall p, files w' !! p = if bool_decide (p ∈ doomed) then None else files w1 !! p.
Proof.
  intros Hl Hdoomed Hdestroy.
  unfold destroy in Hdestroy. unfold bind at 1, lift in Hdestroy.
  rewrite Hl in Hdestroy. unfold bind at 1 in Hdestroy. rewrite Hdoomed in Hdestroy.
  unfold bind at 1 in Hdestroy.
  destruct (forEach_rimraf doomed w1) as (w2 & Hrm & Hh2 & _ & Hf2).
  { eapply Forall_impl; [exact (filesToDelete_regular _ _ _ _ _ Hdoomed)|].
    intros d Hd. by left. }
  rewrite Hrm in Hdestroy. by inversion Hdestroy; subst w' r.
Qed.

Lemma destroy_dirs bp argv w w' r data w1 doomed :
  locals bp argv = Ok data ->
  filesToDelete bp data w = (w1, Ok doomed) ->
  destroy bp argv w = (w', r) ->
  forall p, p ∈ dirs w' -> p ∈ dirs w1 /\ p ∉ doomed.
Proof.
  intros Hl Hdoomed Hdestroy.
  assert (Hall : Forall (fun d => is_Some (files w1 !! d) \/ d ∉ dirs w1) doomed).
  { eapply Forall_impl; [exact (filesToDelete_regular _ _ _ _ _ Hdoomed)|].
    intros d Hd. by left. }
  unfold destroy in Hdestroy. unfold bind at 1, lift in Hdestroy.
  rewrite Hl in Hdestroy. unfold bind at 1 in Hdestroy. rewrite Hdoomed in Hdestroy.
  unfold bind at 1 in Hdestroy.
  destruct (forEach doomed (rimraf dirnames) w1) as [w2 r2] eqn:Hrm.
  pose proof (forEach_rimraf_dirs _ _ _ _ Hall Hrm) as Hdirs.
  destruct r2 as [[]|e]; inversion Hdestroy; by subst.
Qed.

Lemma destroy_keeps_dirs bp argv w w' r data w1 doomed :
  locals bp argv = Ok data ->
  filesToDelete bp data w = (w1, Ok doomed) ->
  destroy bp argv w = (w', r) ->
  forall p, p ∈ dirs w1 -> files w1 !! p = None -> p ∈ dirs w'.
Proof.
  intros Hl Hdoomed Hdestroy.
  assert (Hall : Forall (fun d => is_Some (files w1 !! d) \/ d ∉ dirs w1) doomed).
  { eapply Forall_impl; [exact (filesToDelete_regular _ _ _ _ _ Hdoomed)|].
    intros d Hd. by left. }
  unfold destroy in Hdestroy. unfold bind at 1, lift in Hdestroy.
  rewrite Hl in Hdestroy. unfold bind at 1 in Hdestroy. rewrite Hdoomed in Hdestroy.
  unfold bind at 1 in Hdestroy.
  destruct (forEach doomed (rimraf dirnames) w1) as [w2 r2] eqn:Hrm.
  pose proof (forEach_rimraf_keeps_dirs _ _ _ _ Hall Hrm) as Hdirs.
  destruct r2 as [[]|e]; inversion Hdestroy; by subst.
Qed.

(** Once the three passes of [destroy] are through, the call deletes a
    file exactly when it is on disk, is the destination of a template
    file, and holds the rendering of that template under the data
    computed by this call; every other file keeps its contents, nothing is
    created, and the heap is left alone. *)
Lemma destroy_after_passes bp argv w w' r data src entries w1 doomed :
  locals bp argv = Ok data ->
  templateFiles bp w = (w, Ok src) ->
  walk src = Some entries ->
  filesToDelete bp data w = (w1, Ok doomed) ->
  destroy bp argv w = (w', r) ->
  (forall p,
     (is_Some (files w !! p) /\ files w' !! p = None) <->
     exists rel contents destRel rendered,
       In (rel, TemplateFile contents) entries /\
       template Lodash.NameLiteral (relative rel) data = Some destRel /\
       p = path_join cwd destRel /\
       template Lodash.ReInterpolate contents data = Some rendered /\
       files w !! p = Some rendered) /\
  (forall p, files w' !! p = None \/ files w' !! p = files w !! p) /\
  heap w' = heap w.
Proof.
  intros Hl Hs Hw Hdoomed Hdestroy.
  destruct (filesToDelete_spec _ _ _ _ _ _ _ Hs Hw Hdoomed) as (Hf1 & Hh1 & Hin).
  destruct (destroy_lookup _ _ _ _ _ _ _ _ Hl Hdoomed Hdestroy) as [Hh2 Hf2].
  assert (Hlook : forall p, files w' !! p =
                            if bool_decide (p ∈ doomed) then None else files w !! p).
  { intros p. by rewrite Hf2, Hf1. }
  split; [|split].
  - intros p. rewrite <- Hin, Hlook. case_bool_decide as Hd.
    + apply list_elem_of_In in Hd. split; [done|]. intros _. split; [|done].
      apply Hin in Hd as (? & ? & ? & rendered & _ & _ & _ & _ & Hcur). by exists rendered.
    + rewrite list_elem_of_In in Hd. split; [|done].
      intros [[c Hc] Hnone]. congruence.
  - intros p. rewrite Hlook. case_bool_decide; [by left|by right].
  - congruence.
Qed.

(** Without the text [${] there is no ES delimiter to find: lodash's
    defaults and the literal of [generate] scan a template alike. *)
Lemma strip_prefix_prefix p s : String.prefix p s = false -> Lodash.strip_prefix p s = None.
Proof.
  revert s. induction p as [|a p IH]; intros [|b s]; simpl; try done.
  destruct (Ascii.ascii_dec a b) as [->|Hne].
  - rewrite Ascii.eqb_refl. apply IH.
  - by apply Ascii.eqb_neq in Hne as ->.
Qed.

Lemma scan_default_literal skip s :
  Lodash.mentions "${" s = false ->
  Lodash.scan Lodash.ReInterpolate skip s = Lodash.scan Lodash.ErbLiteral skip s.
Proof.
  revert skip. induction s as [|c s IH]; intros skip; [done|].
  cbn [Lodash.mentions]. intros [Hhere Hrest]%orb_false_iff.
  destruct skip as [|k]; cbn [Lodash.scan]; [|by apply IH].
  unfold Lodash.match_at. cbn [Lodash.match_interpolate Lodash.match_es_template].
  unfold Lodash.match_es. rewrite (strip_prefix_prefix _ _ Hhere).
  destruct (Lodash.match_erb "<%-" (String c s)) as [[b n]|]; [by rewrite IH|].
  destruct (Lodash.match_erb "<%=" (String c s)) as [[b n]|]; [by rewrite IH|].
  destruct (Lodash.match_erb "<%" (String c s)) as [[b n]|]; by rewrite IH.
Qed.

Lemma template_default_literal s d :
  Lodash.mentions "${" s = false ->
  template Lodash.ReInterpolate s d = template Lodash.ErbLiteral s d.
Proof.
  intros H. unfold template, Lodash.template, Lodash.tokenize.
  by rewrite (scan_default_literal _ _ H).
Qed.

(** [generate] then [destroy], where both render a template alike: every
    file the first call created is gone after the second. *)
Lemma destroy_reverses_generate bp argv w w1 r1 w2 doomed w' r data src entries :
  locals bp argv = Ok data ->
  templateFiles bp w = (w, Ok src) ->
  walk src = Some entries ->
  (forall rel contents,
     In (rel, TemplateFile contents) entries ->
     relative rel = rel /\
     template Lodash.ReInterpolate contents data = template Lodash.ErbLiteral contents data) ->
  generate bp argv w = (w1, r1) ->
  filesToDelete bp data w1 = (w2, Ok doomed) ->
  destroy bp argv w1 = (w', r) ->
  forall p c, files w !! p = None -> files w1 !! p = Some c -> files w' !! p = None.
Proof.
  intros Hl Hs Hw Hagree Hgen Hdoomed Hdestroy p c Hnone Hsome.
  destruct (generate_files _ _ _ _ _ _ _ _ Hl Hs Hw Hgen) as (wl & rl & Hloop & Hf & Hh).
  assert (Hs1 : templateFiles bp w1 = (w1, Ok src)).
  { unfold templateFiles in *. rewrite Hh.
    destruct (heap w !! cls bp) as [[? ? ? [d|]]|]; by inversion Hs. }
  destruct (filesToDelete_spec _ _ _ _ _ _ _ Hs1 Hw Hdoomed) as (_ & _ & Hin).
  destruct (destroy_lookup _ _ _ _ _ _ _ _ Hl Hdoomed Hdestroy) as [_ Hlook].
  rewrite Hlook, bool_decide_eq_true_2; [done|].
  apply list_elem_of_In, Hin. rewrite Hf in Hsome.
  destruct (forEach_generateFile_created _ _ _ _ _ _ _ _ Hloop Hnone Hsome)
    as (rel & contents & destRel & Hine & -> & Hname & Hc).
  destruct (Hagree _ _ Hine) as [Hrel Hsame].
  exists rel, contents, destRel, c. rewrite Hrel, Hsame, Hf. by repeat split.
Qed.

(** X1.  [generate] then [destroy] on templates without the text [${], listed
    by walk-sync as files (no closing slash): every file the first call
    created is gone after the second, once its passes went through. *)
Lemma destroy_reverses_generate_without_es
    bp argv w w1 r1 w2 doomed w' r data src entries :
  locals bp argv = Ok data ->
  templateFiles bp w = (w, Ok src) ->
  walk src = Some entries ->
  (forall rel contents,
     In (rel, TemplateFile contents) entries ->
     relative rel = rel /\ Lodash.mentions "${" contents = false) ->
  generate bp argv w = (w1, r1) ->
  filesToDelete bp data w1 = (w2, Ok doomed) ->
  destroy bp argv w1 = (w', r) ->
  forall p c, files w !! p = None -> files w1 !! p = Some c -> files w' !! p = None.
Proof.
  intros Hl Hs Hw Hplain. apply destroy_reverses_generate with (data := data) (src := src)
    (entries := entries); try done.
  intros rel contents Hin. destruct (Hplain rel contents Hin) as [Hrel Hes].
  split; [done|]. by apply template_default_literal.
Qed.

End BlueprintFacts.

(** C1, at a template that holds a JavaScript template literal.  The
    template [app/__name__.js] is generated into an empty project with
    [name = world]: [generate] passes its own regular expression as the
    [interpolate] option, so the ES delimiter is off and the text
    [${name}] is written as it stands.  [destroy], with the same data and
    the file untouched, compiles the template with lodash's defaults, where
    the ES delimiter is on: its rendering differs from the file, which is
    reported as skipped and stays on disk. *)
Theorem destroy_keeps_generated_template_literal :
  Sample.generate Sample.literalTree (Ok tt) Sample.classWorld =
    ({| files := {[ "/app/app/world.js" := "export default `hi ${name}`;" ]};
        dirs := {[ "/"; "/app"; "/app/app" ]};
        heap := heap Sample.classWorld;
        log := [Info "create" "app/world.js"] |}, Ok tt) /\
  Sample.destroy Sample.literalTree
    (fst (Sample.generate Sample.literalTree (Ok tt) Sample.classWorld)) =
    ({| files := {[ "/app/app/world.js" := "export default `hi ${name}`;" ]};
        dirs := {[ "/"; "/app"; "/app/app" ]};
        heap := heap Sample.classWorld;
        log := [Info "create" "app/world.js"; Info "skipped" "app/world.js"] |}, Ok tt) /\
  template (list (string * string)) Sample.evalExpr Sample.runScript
    Lodash.ReInterpolate "export default `hi ${name}`;" [("name", "world")]
  = Some "export default `hi world`;".
Proof. vm_compute. repeat split; reflexivity. Qed.

(** C3, as stated, at a template with an escape block: the claim predicts
    that the file holds the template's contents with the [<%= ... %>]
    markers replaced, here the contents as they stand; [generate] writes
    the HTML-escaped value of [title] in place of the [<%- ... %>] block. *)
Lemma generate_renders_escape_block :
  files (fst (Sample.generate Sample.escapeTree (Ok tt) Sample.classWorld))
    !! "/app/world.html" = Some "<h1>a&lt;b</h1>" /\
  Markers.replaceMarkers (list (string * string)) Sample.evalExpr Lodash.ErbLiteral
    "<h1><%- title %></h1>" [("name", "world"); ("title", "a<b")]
  = Some "<h1><%- title %></h1>".
Proof. vm_compute. split; reflexivity. Qed.

Lemma generated_file_is_rendered_template_witness :
  exists rel contents destRel,
    In (rel, TemplateFile contents) Sample.plainTree /\
    "/app/app/world.js" = Sample.path_join Sample.cwd destRel /\
    template (list (string * string)) Sample.evalExpr Sample.runScript
      Lodash.NameLiteral rel [("name", "world"); ("title", "a<b")] = Some destRel /\
    template (list (string * string)) Sample.evalExpr Sample.runScript
      Lodash.ErbLiteral contents [("name", "world"); ("title", "a<b")] = Some "hello world!" /\
    (Markers.onlyMarkers Lodash.NameLiteral rel = true ->
     Markers.replaceMarkers (list (string * string)) Sample.evalExpr Lodash.NameLiteral rel
       [("name", "world"); ("title", "a<b")] = Some destRel) /\
    (Markers.onlyMarkers Lodash.ErbLiteral contents = true ->
     Markers.replaceMarkers (list (string * string)) Sample.evalExpr Lodash.ErbLiteral contents
       [("name", "world"); ("title", "a<b")] = Some "hello world!").
Proof.
  apply (generated_file_is_rendered_template (list (string * string)) unit
           Sample.evalExpr Sample.runScript Sample.path_join Sample.cwd Sample.dirnames Sample.compiles
           (Sample.walkOf Sample.plainTree) (Sample.instance (Ok tt)) tt
           Sample.classWorld
           (fst (Sample.generate Sample.plainTree (Ok tt) Sample.classWorld))
           (snd (Sample.generate Sample.plainTree (Ok tt) Sample.classWorld))
           [("name", "world"); ("title", "a<b")] "/bp/greeter/files" Sample.plainTree);
    vm_compute; reflexivity.
Defined.

(** A project that already has the file the sample blueprint would write. *)
Lemma generate_never_overwrites_witness :
  files (fst (Sample.generate Sample.plainTree (Ok tt) Sample.busyWorld))
    !! "/app/app/world.js" = Some "mine" /\
  In (Info "already exists" "app/world.js")
    (log (fst (Sample.generate Sample.plainTree (Ok tt) Sample.busyWorld))).
Proof.
  destruct (generate_never_overwrites (list (string * string)) unit
              Sample.evalExpr Sample.runScript Sample.path_join Sample.cwd Sample.dirnames Sample.compiles
              (Sample.walkOf Sample.plainTree) (Sample.instance (Ok tt)) tt
              Sample.busyWorld
              (fst (Sample.generate Sample.plainTree (Ok tt) Sample.busyWorld))
              (snd (Sample.generate Sample.plainTree (Ok tt) Sample.busyWorld)))
    as [Hkeep Hreport].
  - vm_compute; reflexivity.
  - split.
    + apply Hkeep. vm_compute; reflexivity.
    + apply (Hreport eq_refl [("name", "world"); ("title", "a<b")] "/bp/greeter/files"
               Sample.plainTree "app/__name__.js" "hello <%= name %>!" "app/world.js").
      * reflexivity.
      * vm_compute; reflexivity.
      * reflexivity.
      * right; left; reflexivity.
      * vm_compute; reflexivity.
      * vm_compute; reflexivity.
Defined.

(** ** Objects used as maps *)

Lemma obj_get_set_eq k v o : obj_get (obj_set k v o) k = Some v.
Proof.
  induction o as [|[k' v'] o IH]; cbn [obj_set obj_get].
  - by rewrite String.eqb_refl.
  - destruct (String.eqb k' k) eqn:E; [cbn [obj_get]; by rewrite E|].
    destruct (key_before k k' && negb (has_key o k)); cbn [obj_get].
    + by rewrite String.eqb_refl.
    + by rewrite E.
Qed.

Lemma obj_get_set_ne k k' v o : k <> k' -> obj_get (obj_set k v o) k' = obj_get o k'.
Proof.
  intros Hne. induction o as [|[k0 v0] o IH]; cbn [obj_set obj_get].
  - by apply String.eqb_neq in Hne as ->.
  - destruct (String.eqb k0 k) eqn:E.
    + cbn [obj_get]. apply String.eqb_eq in E as ->. by apply String.eqb_neq in Hne as ->.
    + destruct (key_before k k0 && negb (has_key o k)); cbn [obj_get].
      * by apply String.eqb_neq in Hne as ->.
      * by rewrite IH.
Qed.

Lemma obj_get_In k v o : obj_get o k = Some v -> In (k, v) o.
Proof.
  induction o as [|[k' v'] o IH]; simpl; [done|].
  destruct (String.eqb k' k) eqn:E.
  - apply String.eqb_eq in E as ->. inversion 1. by left.
  - intros H. right. by apply IH.
Qed.

Lemma obj_get_None k o : ~ In k (keys o) -> obj_get o k = None.
Proof.
  induction o as [|[k' v'] o IH]; simpl; [done|].
  intros H. destruct (String.eqb k' k) eqn:E.
  - apply String.eqb_eq in E. tauto.
  - apply IH. tauto.
Qed.

Lemma obj_get_keys k v o : obj_get o k = Some v -> In k (keys o).
Proof. intros H%obj_get_In. apply (in_map fst _ _ H). Qed.

Lemma keys_obj_get k o : In k (keys o) -> exists v, obj_get o k = Some v.
Proof.
  induction o as [|[k' v'] o IH]; simpl; [done|].
  destruct (String.eqb k' k) eqn:E; [by eexists|].
  intros [->|H]; [by rewrite String.eqb_refl in E|by apply IH].
Qed.

Lemma In_obj_set x y k v o : In (x, y) (obj_set k v o) -> (x, y) = (k, v) \/ In (x, y) o.
Proof.
  induction o as [|[k' v'] o IH]; cbn [obj_set].
  - intros [H|[]]; by left.
  - destruct (String.eqb k' k) eqn:E.
    + apply String.eqb_eq in E as ->. intros [H|H]; [by left|by right; right].
    + destruct (key_before k k' && negb (has_key o k)).
      * intros [H|H]; [by left|by right].
      * intros [H|H]; [by right; left|]. destruct (IH H); [by left|by right; right].
Qed.

Lemma keys_obj_set k v o x :
  In x (keys (obj_set k v o)) <-> x = k \/ In x (keys o).
Proof.
  unfold keys. induction o as [|[k' v'] o IH]; cbn [obj_set map fst In].
  - intuition.
  - destruct (String.eqb k' k) eqn:E.
    + apply String.eqb_eq in E as ->. cbn [map fst In]. intuition.
    + destruct (key_before k k' && negb (has_key o k)); cbn [map fst In].
      * intuition.
      * rewrite IH. intuition.
Qed.

Lemma NoDup_keys_obj_set k v o : NoDup (keys o) -> NoDup (keys (obj_set k v o)).
Proof.
  unfold keys. induction o as [|[k' v'] o IH]; cbn [obj_set map fst].
  - intros _. apply NoDup_singleton.
  - intros [Hk' Ho]%NoDup_cons. destruct (String.eqb k' k) eqn:E.
    + cbn [map fst]. by apply NoDup_cons.
    + apply String.eqb_neq in E.
      destruct (key_before k k' && negb (has_key o k)) eqn:Hb; cbn [map fst].
      * apply andb_prop in Hb as [_ Hhas]. apply negb_true_iff in Hhas.
        apply NoDup_cons. split; [|by apply NoDup_cons].
        intros [Heq|Hin]%elem_of_cons; [by subst|].
        apply list_elem_of_In, keys_obj_get in Hin as [c Hc].
        unfold has_key in Hhas. by rewrite Hc in Hhas.
      * apply NoDup_cons. split; [|by apply IH].
        rewrite list_elem_of_In. intros [Heq|Hin]%(keys_obj_set k v o k'); [by subst|].
        apply Hk'. by apply list_elem_of_In.
Qed.

Lemma obj_get_assign target source k :
  NoDup (keys source) ->
  obj_get (assign target source) k =
  match obj_get source k with
  | Some v => Some v
  | None => obj_get target k
  end.
Proof.
  unfold assign. revert target.
  induction source as [|[k1 v1] source IH]; intros target Hnd; simpl; [done|].
  inversion Hnd as [|? ? Hnotin Hnd']; subst. rewrite IH by done.
  destruct (String.eqb k1 k) eqn:E.
  - apply String.eqb_eq in E as ->.
    rewrite list_elem_of_In in Hnotin.
    by rewrite (obj_get_None _ _ Hnotin), obj_get_set_eq.
  - apply String.eqb_neq in E. destruct (obj_get source k); [done|].
    by rewrite obj_get_set_ne.
Qed.

Lemma In_intersection x xs ys :
  In x (intersection xs ys) <-> In x xs /\ In x ys.
Proof.
  induction xs as [|a xs IH]; simpl; [tauto|].
  destruct (existsb (String.eqb a) ys) eqn:E.
  - apply existsb_exists in E as (y & Hy & ->%String.eqb_eq).
    simpl. rewrite filter_In, IH.
    destruct (String.eqb_spec y x) as [->|Hne]; simpl; [tauto|].
    split; [intros [?|[[? ?] _]]; [done|tauto]|].
    intros [[?|?] ?]; [done|]. right. repeat split; try done.
  - rewrite IH. split; [tauto|]. intros [[->|?] Hy]; [|tauto].
    assert (existsb (String.eqb x) ys = true); [|congruence].
    apply existsb_exists. exists x. split; [done|apply String.eqb_refl].
Qed.

(** ** Discovery *)

Lemma sameExports_refl h : sameExports h h.
Proof. by intros a. Qed.

Lemma sameExports_trans h1 h2 h3 :
  sameExports h1 h2 -> sameExports h2 h3 -> sameExports h1 h3.
Proof. intros H12 H23 a. destruct (H12 a), (H23 a). split; congruence. Qed.

Lemma heap_get_insert h a b o :
  heap_get (<[a := o]> h) b = if decide (a = b) then o else heap_get h b.
Proof.
  unfold heap_get. destruct (decide (a = b)) as [->|Hne].
  - by rewrite lookup_insert_eq.
  - by rewrite lookup_insert_ne.
Qed.

Lemma sameExports_update h a f :
  default_export (f (heap_get h a)) = default_export (heap_get h a) ->
  blueprintName (f (heap_get h a)) = blueprintName (heap_get h a) ->
  sameExports h (<[a := f (heap_get h a)]> h).
Proof.
  intros Hd Hb b. rewrite heap_get_insert. by destruct (decide (a = b)) as [->|].
Qed.

Section DiscoveryFacts.

Context (path_join : string -> string -> string).
Context (readdirSync : string -> option (list dirent)).

Local Abbreviation captureDir := (captureDir path_join).
Local Abbreviation loadBlueprints := (loadBlueprints path_join).
Local Abbreviation discoverBlueprintsForAddon :=
  (discoverBlueprintsForAddon path_join readdirSync).

Lemma exported_sameExports h h' d :
  sameExports h h' -> exported h' d = exported h d.
Proof.
  intros H. unfold exported. destruct (d_module d) as [m|]; [|done].
  by destruct (H m) as [-> _].
Qed.

Lemma invocationName_sameExports h h' c blueprintDir :
  sameExports h h' ->
  invocationName (heap_get h' c) blueprintDir = invocationName (heap_get h c) blueprintDir.
Proof. intros H. unfold invocationName. by destruct (H c) as [_ ->]. Qed.

Lemma loadBlueprint_spec addonName acc d w w' acc' :
  loadBlueprint addonName acc d w = (w', Ok acc') ->
  sameExports (heap w) (heap w') /\
  exists c, exported (heap w) d = Some c /\ acc' = obj_set (d_name d) c acc.
Proof.
  unfold loadBlueprint, exported. destruct (d_module d) as [m|]; [|done].
  unfold bind, update_obj, read_obj, ret. simpl. inversion 1; subst.
  assert (Hs : sameExports (heap w) (<[m := set_addon addonName (heap_get (heap w) m)]> (heap w)))
    by by apply sameExports_update.
  split; [done|]. destruct (Hs m) as [-> _].
  destruct (default_export (heap_get (heap w) m)); by eexists.
Qed.

Lemma reduce_loadBlueprint_spec addonName l acc w w' Blueprints :
  reduce (loadBlueprint addonName) l acc w = (w', Ok Blueprints) ->
  sameExports (heap w) (heap w') /\
  (forall dn c, In (dn, c) Blueprints ->
     In (dn, c) acc \/ exists d, In d l /\ d_name d = dn /\ exported (heap w) d = Some c) /\
  (NoDup (map d_name l) ->
   forall d, In d l ->
     exists c, exported (heap w) d = Some c /\ obj_get Blueprints (d_name d) = Some c) /\
  (forall dn, ~ In dn (map d_name l) -> obj_get Blueprints dn = obj_get acc dn) /\
  (NoDup (keys acc) -> NoDup (keys Blueprints)).
Proof.
  revert acc w. induction l as [|d l IH]; intros acc w; simpl.
  - inversion 1; subst. split; [apply sameExports_refl|]. repeat split; try done.
    intros; by left.
  - unfold bind. destruct (loadBlueprint addonName acc d w) as [w1 [acc1|e]] eqn:Hd; [|done].
    intros Hrest. apply loadBlueprint_spec in Hd as (Hs1 & c1 & Hc1 & ->).
    apply IH in Hrest as (Hs2 & Hsound & Hcomplete & Hother & Hnd).
    split; [by eapply sameExports_trans|]. split; [|split; [|split]].
    + intros dn c Hin. destruct (Hsound dn c Hin) as [Hacc|(d' & Hd' & Hn & He)].
      * apply In_obj_set in Hacc as [[= -> ->]|Hacc]; [|by left].
        right. exists d. by repeat split; [left|..].
      * right. exists d'. rewrite (exported_sameExports _ _ _ Hs1) in He.
        by repeat split; [right|..].
    + intros [Hnotin Hnd']%NoDup_cons d' [<-|Hin].
      * exists c1. split; [done|]. rewrite Hother, obj_get_set_eq; [done|].
        by rewrite <- list_elem_of_In.
      * destruct (Hcomplete Hnd' d' Hin) as (c & He & Hg). exists c.
        by rewrite <- (exported_sameExports _ _ _ Hs1).
    + intros dn Hnotin. rewrite Hother by tauto. apply obj_get_set_ne. tauto.
    + intros Hacc. by apply Hnd, NoDup_keys_obj_set.
Qed.

Lemma forEach_captureDir_spec dir Blueprints w :
  exists w', forEach Blueprints (captureDir dir) w = (w', Ok tt) /\
             sameExports (heap w) (heap w').
Proof.
  revert w. induction Blueprints as [|[dn c] Blueprints IH]; intros w; simpl.
  - exists w. split; [done|apply sameExports_refl].
  - unfold bind, captureDir at 1, update_obj. simpl.
    match goal with |- context [forEach _ _ ?w1] => destruct (IH w1) as (w' & -> & Hs) end.
    exists w'. split; [done|]. eapply sameExports_trans; [|exact Hs].
    by apply sameExports_update.
Qed.

Lemma mapKeys_sound h Blueprints acc k c :
  obj_get (mapKeys h Blueprints acc) k = Some c ->
  obj_get acc k = Some c \/
  exists blueprintDir, In (blueprintDir, c) Blueprints /\
                       k = invocationName (heap_get h c) blueprintDir.
Proof.
  revert acc. induction Blueprints as [|[dn c'] Blueprints IH]; intros acc; simpl; [by left|].
  intros [Hacc|(dn' & Hin & ->)]%IH.
  - destruct (String.eqb_spec (invocationName (heap_get h c') dn) k) as [<-|Hne].
    + rewrite obj_get_set_eq in Hacc. inversion Hacc; subst. right. exists dn. by split; [left|].
    + rewrite obj_get_set_ne in Hacc by done. by left.
  - right. exists dn'. by split; [right|].
Qed.

Lemma mapKeys_complete h Blueprints acc :
  (forall k, In k (keys acc) -> In k (keys (mapKeys h Blueprints acc))) /\
  (forall blueprintDir c, In (blueprintDir, c) Blueprints ->
     In (invocationName (heap_get h c) blueprintDir) (keys (mapKeys h Blueprints acc))).
Proof.
  revert acc. induction Blueprints as [|[dn c'] Blueprints IH]; intros acc; simpl; [done|].
  destruct (IH (obj_set (invocationName (heap_get h c') dn) c' acc)) as [Hacc Hnew].
  assert (Hset : forall k, In k (keys acc) \/ k = invocationName (heap_get h c') dn ->
                           In k (keys (obj_set (invocationName (heap_get h c') dn) c' acc))).
  { intros k Hk. apply keys_obj_set. tauto. }
  split.
  - intros k Hk. apply Hacc, Hset. by left.
  - intros dn' c [[= -> ->]|Hin]; [|by apply Hnew].
    apply Hacc, Hset. by right.
Qed.

Lemma NoDup_keys_mapKeys h Blueprints acc :
  NoDup (keys acc) -> NoDup (keys (mapKeys h Blueprints acc)).
Proof.
  revert acc. induction Blueprints as [|[dn c] Blueprints IH]; intros acc H; simpl; [done|].
  by apply IH, NoDup_keys_obj_set.
Qed.

(** What [loadBlueprints] returns. *)
Lemma loadBlueprints_spec addonName dir entries w w' Blueprints :
  loadBlueprints addonName dir entries w = (w', Ok Blueprints) ->
  sameExports (heap w) (heap w') /\
  NoDup (keys Blueprints) /\
  (forall k c, obj_get Blueprints k = Some c ->
     exists d, In d entries /\ d_isDirectory d = true /\
               exported (heap w') d = Some c /\
               k = invocationName (heap_get (heap w') c) (d_name d)) /\
  (NoDup (map d_name entries) ->
   forall d c, In d entries -> d_isDirectory d = true -> exported (heap w') d = Some c ->
     In (invocationName (heap_get (heap w') c) (d_name d)) (keys Blueprints)).
Proof.
  unfold loadBlueprints. unfold bind at 1.
  destruct (reduce _ _ [] w) as [w1 [B0|e]] eqn:Hred; [|done].
  apply reduce_loadBlueprint_spec in Hred as (Hs1 & Hsound & Hcomplete & _ & _).
  unfold bind. destruct (forEach_captureDir_spec dir B0 w1) as (w2 & -> & Hs2).
  inversion 1; subst.
  assert (Hs : sameExports (heap w) (heap w')) by by eapply sameExports_trans.
  split; [done|]. split; [apply NoDup_keys_mapKeys; constructor|]. split.
  - intros k c [Hk|(dn & Hin & ->)]%mapKeys_sound; [done|].
    destruct (Hsound dn c Hin) as [[]|(d & [Hd Hdir]%filter_In & <- & He)].
    exists d. repeat split; try done. by rewrite (exported_sameExports _ _ _ Hs).
  - intros Hnd d c Hd Hdir He. rewrite (exported_sameExports _ _ _ Hs) in He.
    destruct (Hcomplete) with (d := d) as (c' & He' & Hg).
    { clear -Hnd. induction entries as [|x l IH]; simpl; [constructor|].
      apply NoDup_cons in Hnd as [Hx Hl]. destruct (d_isDirectory x); simpl; [|by apply IH].
      apply NoDup_cons. split; [|by apply IH].
      intros Hin%list_elem_of_In. apply Hx, list_elem_of_In.
      apply in_map_iff in Hin as (y & Hy & [Hin _]%filter_In).
      apply in_map_iff. by exists y. }
    { by apply filter_In. }
    assert (c' = c) as -> by congruence.
    by apply mapKeys_complete, obj_get_In.
Qed.

Lemma obj_get_register h blueprintsSoFar Blueprints k :
  NoDup (keys Blueprints) ->
  obj_get (register h blueprintsSoFar Blueprints) k =
  match obj_get Blueprints k with
  | Some c => Some c
  | None =>
      obj_get (fold_left (moveClobbered h)
                 (intersection (keys Blueprints) (keys blueprintsSoFar)) blueprintsSoFar) k
  end.
Proof. intros Hnd. unfold register. by rewrite obj_get_assign. Qed.


(** The moves of one call, on the key one clobbered blueprint goes to. *)
Lemma fold_moveClobbered h blueprintsSoFar Blueprints k old colliding current :
  obj_get blueprintsSoFar k = Some old ->
  (forall k' c', obj_get blueprintsSoFar k' = Some c' -> has_key Blueprints k' = true ->
     has_key Blueprints (namespaced h c' k') = false) ->
  (forall k' c', obj_get blueprintsSoFar k' = Some c' -> has_key Blueprints k' = true ->
     k' <> k -> namespaced h c' k' <> namespaced h old k) ->
  (forall j, In j colliding -> has_key Blueprints j = true /\ has_key blueprintsSoFar j = true) ->
  (forall j, has_key Blueprints j = true -> obj_get current j = obj_get blueprintsSoFar j) ->
  obj_get (fold_left (moveClobbered h) colliding current) (namespaced h old k) =
  if bool_decide (k ∈ colliding) then Some old else obj_get current (namespaced h old k).
Proof.
  intros Hold Hfree Hapart. revert current.
  induction colliding as [|j colliding IH]; intros current Hcoll Hsame; simpl; [done|].
  destruct (Hcoll j (or_introl eq_refl)) as [HjB Hjs].
  unfold has_key in Hjs. destruct (obj_get blueprintsSoFar j) as [cj|] eqn:Hj; [|done].
  assert (Hcur : obj_get current j = Some cj) by (by rewrite Hsame).
  assert (Hstep : moveClobbered h current j = obj_set (namespaced h cj j) cj current)
    by (unfold moveClobbered; by rewrite Hcur).
  rewrite Hstep, IH; first last.
  { intros i Hi. rewrite obj_get_set_ne; [by apply Hsame|].
    intros Heq. specialize (Hfree j cj Hj HjB). congruence. }
  { intros i Hi. apply Hcoll. by right. }
  destruct (decide (j = k)) as [->|Hne].
  - assert (cj = old) as -> by congruence.
    rewrite obj_get_set_eq, (bool_decide_eq_true_2 (k ∈ k :: colliding)) by (by left).
    by case_bool_decide.
  - rewrite obj_get_set_ne by (by apply Hapart).
    destruct (decide (k ∈ colliding)) as [Hin|Hnin].
    + rewrite !bool_decide_eq_true_2; [done|by right|done].
    + rewrite !bool_decide_eq_false_2; [done| |done].
      intros [->|?]%elem_of_cons; done.
Qed.

(** Where the moved keys are free.  When a call finds a blueprint whose
    name [k] is already registered, the blueprint registered before is registered again under
    the string value of its own [addon] property, a colon and [k], and the
    one just found takes [k]: both are in the resulting map, provided no
    key a clobbered blueprint moves to is a name found by this call, and
    no other clobbered blueprint moves to the key this one moves to. *)
Theorem clobbered_blueprint_moves_to_namespaced_key
    blueprintsSoFar addonName dir entries w w' Blueprints k old new :
  readdirSync dir = Some entries ->
  loadBlueprints addonName dir entries w = (w', Ok Blueprints) ->
  obj_get blueprintsSoFar k = Some old ->
  obj_get Blueprints k = Some new ->
  (forall k' c', obj_get blueprintsSoFar k' = Some c' -> has_key Blueprints k' = true ->
     has_key Blueprints (namespaced (heap w') c' k') = false) ->
  (forall k' c', obj_get blueprintsSoFar k' = Some c' -> has_key Blueprints k' = true ->
     k' <> k -> namespaced (heap w') c' k' <> namespaced (heap w') old k) ->
  exists all,
    discoverBlueprintsForAddon blueprintsSoFar addonName dir w = (w', Ok (all, all)) /\
    obj_get all k = Some new /\
    obj_get all (to_js_string (addon (heap_get (heap w') old)) ++ ":" ++ k) = Some old.
Proof.
  intros Hdir Hload Hold Hnew Hfree Hapart.
  pose proof (loadBlueprints_spec _ _ _ _ _ _ Hload) as (_ & Hnd & _ & _).
  exists (register (heap w') blueprintsSoFar Blueprints). split; [|split].
  - unfold discoverBlueprintsForAddon. rewrite Hdir. unfold bind. by rewrite Hload.
  - by rewrite obj_get_register, Hnew.
  - change (to_js_string _ ++ ":" ++ k) with (namespaced (heap w') old k).
    rewrite obj_get_register by done.
    assert (HkB : has_key Blueprints k = true) by (unfold has_key; by rewrite Hnew).
    pose proof (Hfree k old Hold HkB) as Hk. unfold has_key in Hk.
    destruct (obj_get Blueprints (namespaced (heap w') old k)); [done|].
    rewrite (fold_moveClobbered (heap w') blueprintsSoFar Blueprints k old); try done.
    + rewrite bool_decide_eq_true_2; [done|].
      apply list_elem_of_In, In_intersection. split; by eapply obj_get_keys.
    + intros j [HjB Hjs]%In_intersection. unfold has_key.
      apply keys_obj_get in HjB as [? ->]. by apply keys_obj_get in Hjs as [? ->].
Qed.

End DiscoveryFacts.

(** C7, at a blueprint compiled from an ES module.  The addon name is
    written to the object [tryRequire] returns, the map gets that object's
    [default]: after discovery the registered class has its [dir] but no
    [addon], which sits on the module object. *)
Theorem discovery_leaves_default_export_without_addon :
  exists w',
    Sample.discover [] "shop" "/addons/shop/blueprints" Sample.discoveryWorld
      = (w', Ok ([("cart", 11)], [("cart", 11)])) /\
    addon (heap_get (heap w') 11) = None /\
    dir (heap_get (heap w') 11) = Some "/addons/shop/blueprints/cart" /\
    addon (heap_get (heap w') 10) = Some "shop".
Proof. eexists. vm_compute. repeat split; reflexivity. Qed.

(** C10.  Two inputs at which a name collision loses a blueprint.  Three
    addons each ship [foo] as the default export of an ES module: the
    addon name is written to the module object, so the [addon] of every
    class is undefined; the [foo] of the first addon (the class at address
    21) is moved to [undefined:foo] by the second and overwritten there by
    the [foo] of the second when the third is loaded: no key of the map
    [findBlueprints] returns leads to it.  And an addon that ships both
    [foo] and a blueprint that calls itself [a:foo], loaded after addon
    [a] registered its [foo] (the class at address 0): the clobbered class
    is moved to [a:foo] and overwritten there by the same call. *)
Theorem clobbered_blueprint_lost :
  (exists w',
     findBlueprints Sample.path_join Cases.threeReaddirSync
       (fun isLocal => firstn 1 (Cases.threeAddons isLocal)) true Cases.threeWorld
       = (w', Ok [("foo", 21)])) /\
  (exists w',
     findBlueprints Sample.path_join Cases.threeReaddirSync
       (fun isLocal => firstn 2 (Cases.threeAddons isLocal)) true Cases.threeWorld
       = (w', Ok [("foo", 23); ("undefined:foo", 21)])) /\
  (exists w',
     findBlueprints Sample.path_join Cases.threeReaddirSync Cases.threeAddons true
       Cases.threeWorld
       = (w', Ok [("foo", 25); ("undefined:foo", 23)]) /\
     addon (heap_get (heap w') 20) = Some "a1" /\
     addon (heap_get (heap w') 21) = None /\
     forall k, obj_get [("foo", 25); ("undefined:foo", 23)] k <> Some 21) /\
  (exists w',
     Sample.discover [("foo", 0)] "b2" "/addons/b2/blueprints" Sample.discoveryWorld
       = (w', Ok ([("foo", 1); ("a:foo", 2)], [("foo", 1); ("a:foo", 2)])) /\
     addon (heap_get (heap w') 0) = Some "a" /\
     forall k, obj_get [("foo", 1); ("a:foo", 2)] k <> Some 0).
Proof.
  split; [eexists; vm_compute; reflexivity|].
  split; [eexists; vm_compute; reflexivity|].
  split.
  - eexists. split; [vm_compute; reflexivity|].
    split; [vm_compute; reflexivity|]. split; [vm_compute; reflexivity|].
    intros k. cbn [obj_get]. destruct (String.eqb "foo" k); [congruence|].
    destruct (String.eqb "undefined:foo" k); congruence.
  - eexists. split; [vm_compute; reflexivity|]. split; [vm_compute; reflexivity|].
    intros k. cbn [obj_get]. destruct (String.eqb "foo" k); [congruence|].
    destruct (String.eqb "a:foo" k); congruence.
Qed.

Lemma clobbered_blueprint_moves_to_namespaced_key_witness :
  exists all,
    Sample.discover [("foo", 0)] "b" "/addons/b/blueprints" Sample.discoveryWorld
      = (fst (loadBlueprints Sample.path_join "b" "/addons/b/blueprints" Sample.fooEntries
                Sample.discoveryWorld), Ok (all, all)) /\
    obj_get all "foo" = Some 1 /\
    obj_get all "a:foo" = Some 0.
Proof.
  apply (clobbered_blueprint_moves_to_namespaced_key Sample.path_join Sample.readdirSync
           [("foo", 0)] "b" "/addons/b/blueprints" Sample.fooEntries Sample.discoveryWorld
           (fst (loadBlueprints Sample.path_join "b" "/addons/b/blueprints" Sample.fooEntries
                   Sample.discoveryWorld))
           [("foo", 1)] "foo" 0 1).
  - reflexivity.
  - vm_compute; reflexivity.
  - reflexivity.
  - reflexivity.
  - intros k' c'. cbn [obj_get]. destruct (String.eqb_spec "foo" k') as [<-|]; [|done].
    intros [= <-] _. vm_compute; reflexivity.
  - intros k' c'. cbn [obj_get]. destruct (String.eqb_spec "foo" k') as [<-|]; done.
Defined.


(** ** Hooks that fail *)

Lemma stack_of_defined e :
  e <> VUndefined -> e <> VNull -> exists v, stack_of e = Ok v.
Proof. destruct e as [| | | | |[s|]]; intros; try done; by eexists. Qed.

Lemma stack_or_self_defined e :
  e <> VUndefined -> e <> VNull -> exists v, stack_or_self e = Ok v.
Proof.
  intros H1 H2. unfold stack_or_self.
  destruct (stack_of_defined e H1 H2) as [v ->]. by eexists.
Qed.

Section HookFacts.

Context (Data Argv : Type).
Context (evalExpr : Data -> string -> option string).
Context (runScript : Data -> list Lodash.token -> option string).
Context (path_join : string -> string -> string) (cwd : string).
Context (dirnames : string -> list string).
Context (compiles : Lodash.interpolate -> string -> bool).
Context (walk : string -> option (list (string * tnode))).
Context (Yargs : Type).
Context (classConfigure : nat -> Yargs -> Context -> result Yargs).

Local Abbreviation generateFile := (generateFile Data evalExpr runScript path_join dirnames compiles).
Local Abbreviation generate := (generate Data Argv evalExpr runScript path_join cwd dirnames compiles walk).
Local Abbreviation templateFiles := (templateFiles Data Argv path_join).
Local Abbreviation configureBlueprint := (configureBlueprint Yargs classConfigure).
Local Abbreviation configureBlueprints := (configureBlueprints Yargs classConfigure).

(** X2.  A [postInstall] that rejects with anything but [null] and
    [undefined] is logged, and [generate] resolves: after the line
    "postInstall failed:" the log gets [e.stack] where that is truthy, and
    [e] itself otherwise. *)
Lemma generate_logs_rejected_postInstall bp argv w data src entries w1 e :
  locals bp argv = Ok data ->
  templateFiles bp w = (w, Ok src) ->
  walk src = Some entries ->
  forEach entries (generateFile data cwd) w = (w1, Ok tt) ->
  postInstall bp argv = Throw e ->
  e <> VUndefined -> e <> VNull ->
  exists stack,
    stack_of e = Ok stack /\
    generate bp argv w =
      (add_log (Error (if js_truthy stack then stack else e))
         (add_log (Error (VStr "postInstall failed:")) w1), Ok tt).
Proof.
  intros Hl Hs Hw Hloop Hhook H1 H2.
  rewrite (generate_cases Data Argv evalExpr runScript path_join cwd dirnames compiles walk
             bp argv w).
  rewrite Hl, Hs, Hw, Hloop, Hhook.
  destruct (stack_of_defined e H1 H2) as [stack Hstack]. exists stack. split; [done|].
  unfold stack_or_self. by rewrite Hstack.
Qed.

(** A [configure] that throws anything but [null] and [undefined] is
    logged and skipped: the loop goes on with the [yargs] it had. *)
Lemma configureBlueprint_catches context yargs entry w :
  (forall e, classConfigure (snd entry) yargs (withName context (fst entry)) = Throw e ->
             e <> VUndefined /\ e <> VNull) ->
  exists w' yargs',
    configureBlueprint context yargs entry w = (w', Ok yargs') /\
    heap w' = heap w /\ files w' = files w /\
    yargs' = match classConfigure (snd entry) yargs (withName context (fst entry)) with
             | Ok y => y
             | Throw _ => yargs
             end.
Proof.
  intros Hdef. unfold configureBlueprint, try_catch, lift.
  destruct (classConfigure _ _ _) as [y|e]; [by exists w, y|].
  destruct (Hdef e eq_refl) as [H1 H2].
  destruct (stack_of_defined e H1 H2) as [v Hv].
  unfold bind, ui_warn, ret. rewrite Hv. by eexists _, _.
Qed.

(** X3.  When no [configure] throws [null] or [undefined],
    [configureBlueprints] returns: the blueprints are configured in the
    order of the map, each with the [yargs] its predecessors left and with
    its invocation name as the [name] of the context; one that throws is
    logged and skipped; no class and no file is touched. *)
Lemma configureBlueprints_resolves blueprints context yargs w :
  (forall c y ctx e, classConfigure c y ctx = Throw e -> e <> VUndefined /\ e <> VNull) ->
  exists w' yargs',
    configureBlueprints blueprints yargs context w = (w', Ok yargs') /\
    heap w' = heap w /\ files w' = files w /\
    yargs' = fold_left
               (fun y entry =>
                  match classConfigure (snd entry) y (withName context (fst entry)) with
                  | Ok y' => y'
                  | Throw _ => y
                  end) blueprints yargs.
Proof.
  intros Hdef. revert yargs w.
  induction blueprints as [|entry blueprints IH]; intros yargs w; simpl.
  - by exists w, yargs.
  - unfold bind.
    destruct (configureBlueprint_catches context yargs entry w)
      as (w1 & y1 & -> & Hh & Hf & ->); [by eauto|].
    match goal with |- context [configureBlueprints _ ?y _ ?w0] =>
      destruct (IH y w0) as (w' & yargs' & -> & Hh' & Hf' & ->) end.
    exists w'. eexists. repeat split; congruence.
Qed.

End HookFacts.

(** C6, at hooks that fail with [undefined] and [null].  The handler of
    [generate] reads [e.stack] and that of [configureBlueprints] reads
    [error.stack]: on [undefined] and [null] the read itself throws, out
    of the handler.  [generate] rejects although the files were written,
    and [configureBlueprints] throws before it reaches the blueprint
    [cart]. *)
Theorem hook_failure_with_null_propagates :
  Sample.generate Sample.plainTree (Throw VUndefined) Sample.classWorld =
    ({| files := {[ "/app/app/world.js" := "hello world!" ]};
        dirs := {[ "/"; "/app"; "/app/app" ]};
        heap := heap Sample.classWorld;
        log := [Info "create" "app/world.js"; Error (VStr "postInstall failed:")] |},
     Throw engineError) /\
  configureBlueprints (list string) Sample.classConfigure
    [("broken", 0); ("cart", 11)] [] Sample.sampleContext Sample.emptyWorld =
    ({| files := ∅; dirs := ∅; heap := ∅;
        log := [Warn (VStr "broken blueprint failed to configure itself:")] |},
     Throw engineError) /\
  configureBlueprints (list string) Sample.classConfigure
    [("cart", 11)] [] Sample.sampleContext Sample.emptyWorld =
    (Sample.emptyWorld, Ok ["cart"]).
Proof. vm_compute. repeat split; reflexivity. Qed.

(** ** The routes file *)

Lemma matchNode_cons h hs n ns :
  matchNode (AList (h :: hs)) (AList (n :: ns)) =
  matchNode h n && matchNode (AList hs) (AList ns).
Proof. reflexivity. Qed.

Lemma matchNode_literals items vals :
  Forall2 literalOf items vals ->
  matchNode (AList items) (AList (map (fun arg => ANode [("value", AVal arg)]) vals)) = true.
Proof.
  induction 1 as [|item v items vals (fields & -> & Hv) _ IH]; [done|].
  cbn [map]. rewrite matchNode_cons, IH, andb_true_r.
  cbn. rewrite Hv. cbn. by rewrite bool_decide_eq_true_2.
Qed.

(** The filter of [addRoute] matches every statement that calls the
    router's method with those arguments. *)
Lemma routeFilter_matches router method urlPattern actionPath args stmt :
  routerInvocation router method (VStr urlPattern :: option_jsval actionPath :: args) stmt ->
  has_type "ExpressionStatement" stmt = true /\
  matchNode stmt (routeFilter router method urlPattern actionPath args) = true.
Proof.
  intros (sf & ef & cf & ob & pf & items & -> & Hty & He & Hc & Ho & Hon & Hp & Hpn & Ha & Hargs).
  split; [unfold has_type; by rewrite Hty|].
  pose proof (matchNode_literals _ _ Hargs) as Hlits.
  unfold routeFilter. cbn [matchNode forallb fst snd].
  rewrite He. cbn [matchNode forallb fst snd]. rewrite Hc, Ha.
  cbn [matchNode forallb fst snd]. rewrite Ho, Hp.
  cbn [matchNode forallb fst snd]. rewrite Hon, Hpn.
  cbn [matchNode forallb fst snd]. rewrite !bool_decide_eq_true_2 by done.
  cbn [andb]. rewrite !andb_true_r. exact Hlits.
Qed.

Section RouteFacts.

Context (path_join : string -> string -> string) (cwd : string).
Context (parse : string -> result ast).
Context (toSource : bool -> ast -> string).
Context (remove : list (list nat) -> ast -> ast).

Local Abbreviation routesFilepath := (routesFilepath path_join cwd).
Local Abbreviation addRoute := (addRoute path_join cwd parse toSource).

(** The duplicate check where it finds something.  When the body of the
    default-exported function holds, at any depth, an expression
    statement that calls the router parameter's [method] with exactly the
    literals [urlPattern], [actionPath] and [args], [addRoute] returns
    without a write: the world it leaves is the world it found.  (With
    [actionPath] omitted the second literal would have to hold
    [undefined], which no literal of a JavaScript source does.) *)
Theorem addRoute_duplicate_is_noop
    method urlPattern actionPath args w source root f p duplicate :
  files w !! routesFilepath = Some source ->
  parse source = Ok root ->
  drawRoutesFunction root = Ok f ->
  In (p, duplicate) (subtrees (drawRoutesFunctionBody f)) ->
  routerInvocation (routerArgName f) method
    (VStr urlPattern :: option_jsval actionPath :: args) duplicate ->
  addRoute method urlPattern actionPath args w = (w, Ok tt).
Proof.
  intros Hfile Hparse Hf Hin Hdup.
  apply routeFilter_matches in Hdup as [Hty Hmatch].
  unfold addRoute, bind, readFileSync, lift. rewrite Hfile. simpl. rewrite Hparse.
  unfold addRouteAst. rewrite Hf.
  assert (Hfound : In (p, duplicate)
            (find "ExpressionStatement"
               (routeFilter (routerArgName f) method urlPattern actionPath args)
               (drawRoutesFunctionBody f))).
  { unfold find. apply filter_In. split; [done|]. cbv beta. cbn [snd].
    by rewrite Hty, Hmatch. }
  destruct (find _ _ _) as [|x l]; [done|]. reflexivity.
Qed.

End RouteFacts.

Lemma addRoute_duplicate_is_noop_witness :
  Sample.addRoute "get" "/" (Some "index") [] Sample.routesWorld
  = (Sample.routesWorld, Ok tt).
Proof.
  apply (addRoute_duplicate_is_noop Sample.path_join Sample.cwd Sample.parse Sample.toSource
           "get" "/" (Some "index") [] Sample.routesWorld
           Sample.indexSource
           (Sample.routesFile [Sample.indexRoute])
           {| routerArgName := VStr "router";
              bodyPath := [1; 1; 0; 1; 3];
              drawRoutesFunctionBody :=
                typed "BlockStatement" [("body", AList [Sample.indexRoute])] |}
           [1; 0] Sample.indexRoute).
  - reflexivity.
  - reflexivity.
  - reflexivity.
  - right; right; left; reflexivity.
  - unfold routerInvocation, Sample.indexRoute, Sample.call. do 6 eexists.
    split; [reflexivity|]. repeat (split; [reflexivity|]).
    repeat constructor; eexists; (split; [reflexivity|reflexivity]).
Defined.

(** C9.  [addRoute('get', '/')], the optional [actionPath] omitted, on a
    routes file whose function already holds [router.get('/');], a call of
    [get] on the router parameter with exactly the argument given: the
    filter of the duplicate check asks for a second argument whose [value]
    is [undefined], the call in the file has one argument only, so the
    call is not found to be a duplicate; [addRoute] inserts a new statement
    and writes the file. *)
Theorem addRoute_rewrites_route_without_action :
  files (Cases.routesWorld Cases.bareSource) !! "/app/config/routes.js" = Some Cases.bareSource /\
  Cases.parse Cases.bareSource = Ok (Sample.routesFile [Cases.bareRoute]) /\
  routerInvocation (VStr "router") "get" [VStr "/"] Cases.bareRoute /\
  addRouteAst "get" "/" None [] (Sample.routesFile [Cases.bareRoute])
    = Ok (Some (Sample.routesFile
                  [Cases.bareRoute;
                   expressionStatement
                     (callExpression
                        (memberExpression (Sample.ident "router") (Sample.ident "get")) [])])) /\
  addRoute Sample.path_join Sample.cwd Cases.parse Sample.toSource "get" "/" None []
      (Cases.routesWorld Cases.bareSource)
    = (Cases.routesWorld
         "export default function drawRoutes(router) { router.get('/'); router.get(); }",
       Ok tt).
Proof.
  split; [reflexivity|]. split; [reflexivity|]. split.
  - unfold routerInvocation, Cases.bareRoute, Sample.call. do 6 eexists.
    split; [reflexivity|]. repeat (split; [reflexivity|]).
    repeat constructor; eexists; (split; [reflexivity|reflexivity]).
  - split; vm_compute; reflexivity.
Qed.

(** C4, at [addRoute('get', '/posts', 'posts/list')] on a routes file with
    one route.  The new call is built from the rest arguments alone:
    [router.get()] is inserted after the last router invocation, without
    the URL pattern and the action path; with a rest argument, that one is
    all the call gets. *)
Theorem addRoute_drops_pattern_and_action :
  addRouteAst "get" "/posts" (Some "posts/list") [] (Sample.routesFile [Sample.indexRoute])
  = Ok (Some (Sample.routesFile [Sample.indexRoute; Sample.call "router" "get" []])) /\
  addRouteAst "get" "/posts" (Some "posts/list") [VStr "extra"]
    (Sample.routesFile [Sample.indexRoute])
  = Ok (Some (Sample.routesFile
                [Sample.indexRoute;
                 Sample.call "router" "get"
                   [typed "StringLiteral" [("value", AVal (VStr "extra"))]]])).
Proof. vm_compute. split; reflexivity. Qed.

(** ** No method writes to a class *)

Lemma keepsHeap_ret {A} (a : A) : keepsHeap (ret a).
Proof. intros w w' r. by inversion 1. Qed.

Lemma keepsHeap_lift {A} (x : result A) : keepsHeap (lift x).
Proof. intros w w' r. by inversion 1. Qed.

Lemma keepsHeap_bind {A B} (m : M A) (k : A -> M B) :
  keepsHeap m -> (forall a, keepsHeap (k a)) -> keepsHeap (bind m k).
Proof.
  intros Hm Hk w w' r. unfold bind. destruct (m w) as [w1 [a|e]] eqn:E.
  - intros H. apply Hk in H. apply Hm in E. congruence.
  - inversion 1; subst. by apply Hm in E.
Qed.

Lemma keepsHeap_try_catch {A} (m : M A) (handler : jsval -> M A) :
  keepsHeap m -> (forall e, keepsHeap (handler e)) -> keepsHeap (try_catch m handler).
Proof.
  intros Hm Hh w w' r. unfold try_catch. destruct (m w) as [w1 [a|e]] eqn:E.
  - inversion 1; subst. by apply Hm in E.
  - intros H. apply Hh in H. apply Hm in E. congruence.
Qed.

Lemma keepsHeap_existsSync p : keepsHeap (existsSync p).
Proof. intros w w' r. by inversion 1. Qed.

Lemma keepsHeap_readFileSync p : keepsHeap (readFileSync p).
Proof. intros w w' r. by inversion 1. Qed.

Lemma keepsHeap_throw {A} e : keepsHeap (@throw A e).
Proof. intros w w' r. by inversion 1. Qed.

Lemma keepsHeap_writeFileSync p c : keepsHeap (writeFileSync p c).
Proof.
  intros w w' r. unfold writeFileSync. destruct (_ || _); by inversion 1.
Qed.

Lemma keepsHeap_mkdirp chain : keepsHeap (mkdirp chain).
Proof.
  intros w w' r. unfold mkdirp. destruct (existsb _ chain); by inversion 1.
Qed.

Lemma keepsHeap_rimraf dirnames p : keepsHeap (rimraf dirnames p).
Proof.
  intros w w' r. unfold rimraf. repeat case_bool_decide; by inversion 1.
Qed.

Lemma keepsHeap_ui_info l p : keepsHeap (ui_info l p).
Proof. intros w w' r. by inversion 1. Qed.

Lemma keepsHeap_ui_warn v : keepsHeap (ui_warn v).
Proof. intros w w' r. by inversion 1. Qed.

Lemma keepsHeap_ui_error v : keepsHeap (ui_error v).
Proof. intros w w' r. by inversion 1. Qed.

Lemma keepsHeap_forEach {A} (l : list A) (f : A -> M unit) :
  (forall x, keepsHeap (f x)) -> keepsHeap (forEach l f).
Proof.
  intros Hf. induction l as [|x l IH]; simpl; [apply keepsHeap_ret|].
  by apply keepsHeap_bind.
Qed.

Lemma keepsHeap_mmap {A B} (f : A -> M B) (l : list A) :
  (forall x, keepsHeap (f x)) -> keepsHeap (mmap f l).
Proof.
  intros Hf. induction l as [|x l IH]; simpl; [apply keepsHeap_ret|].
  apply keepsHeap_bind; [done|]. intros y.
  apply keepsHeap_bind; [done|]. intros ys. apply keepsHeap_ret.
Qed.

Lemma keepsHeap_mfilter {A} (f : A -> M bool) (l : list A) :
  (forall x, keepsHeap (f x)) -> keepsHeap (mfilter f l).
Proof.
  intros Hf. induction l as [|x l IH]; simpl; [apply keepsHeap_ret|].
  apply keepsHeap_bind; [done|]. intros y.
  apply keepsHeap_bind; [done|]. intros ys. apply keepsHeap_ret.
Qed.

Create HintDb frame.

#[local] Hint Resolve keepsHeap_ret keepsHeap_lift keepsHeap_throw keepsHeap_existsSync
  keepsHeap_readFileSync keepsHeap_writeFileSync keepsHeap_mkdirp keepsHeap_rimraf
  keepsHeap_ui_info
  keepsHeap_ui_warn keepsHeap_ui_error keepsHeap_bind keepsHeap_try_catch
  keepsHeap_forEach keepsHeap_mmap keepsHeap_mfilter : frame.

#[local] Hint Extern 1 (keepsHeap (if ?b then _ else _)) => destruct b : frame.
#[local] Hint Extern 1 (keepsHeap (match ?x with _ => _ end)) => destruct x : frame.

Section FrameFacts.

Context (Data Argv : Type).
Context (evalExpr : Data -> string -> option string).
Context (runScript : Data -> list Lodash.token -> option string).
Context (path_join : string -> string -> string) (cwd : string).
Context (dirnames : string -> list string).
Context (compiles : Lodash.interpolate -> string -> bool).
Context (walk : string -> option (list (string * tnode))).
Context (parse : string -> result ast).
Context (toSource : bool -> ast -> string).
Context (remove : list (list nat) -> ast -> ast).
Context (Yargs : Type).
Context (classConfigure : nat -> Yargs -> Context -> result Yargs).

Local Abbreviation generate := (generate Data Argv evalExpr runScript path_join cwd dirnames compiles walk).
Local Abbreviation destroy := (destroy Data Argv evalExpr runScript path_join cwd dirnames walk).
Local Abbreviation run := (run Data Argv evalExpr runScript path_join cwd dirnames compiles walk).
Local Abbreviation templateFiles := (templateFiles Data Argv path_join).
Local Abbreviation addRoute := (addRoute path_join cwd parse toSource).
Local Abbreviation removeRoute := (removeRoute path_join cwd parse toSource remove).
Local Abbreviation configureBlueprints := (configureBlueprints Yargs classConfigure).

Lemma keepsHeap_templateFiles bp : keepsHeap (templateFiles bp).
Proof. intros w w' r H. by apply templateFiles_world in H as ->. Qed.

Lemma keepsHeap_generate bp argv : keepsHeap (generate bp argv).
Proof.
  pose proof (keepsHeap_templateFiles bp).
  unfold generate, generateFile. eauto 30 with frame.
Qed.

Lemma keepsHeap_destroy bp argv : keepsHeap (destroy bp argv).
Proof.
  pose proof (keepsHeap_templateFiles bp).
  unfold destroy, filesToDelete, destroyTarget, destroyExists, destroyClean.
  eauto 30 with frame.
Qed.

Lemma keepsHeap_addRoute method urlPattern actionPath args :
  keepsHeap (addRoute method urlPattern actionPath args).
Proof. unfold addRoute. eauto 30 with frame. Qed.

Lemma keepsHeap_removeRoute method urlPattern actionPath args :
  keepsHeap (removeRoute method urlPattern actionPath args).
Proof. unfold removeRoute. eauto 30 with frame. Qed.

Lemma keepsHeap_configureBlueprints blueprints yargs context :
  keepsHeap (configureBlueprints blueprints yargs context).
Proof.
  revert yargs. induction blueprints as [|entry blueprints IH]; intros yargs; simpl.
  - apply keepsHeap_ret.
  - apply keepsHeap_bind; [|done]. unfold configureBlueprint. eauto 30 with frame.
Qed.

(** After discovery, [configureBlueprints], [generate], [destroy],
    [addRoute] and [removeRoute] leave every class as it is: its [dir], its
    [addon] and its [blueprintName] are what discovery left. *)
Lemma methods_leave_classes_alone bp argv method urlPattern actionPath args
    blueprints yargs context :
  keepsHeap (configureBlueprints blueprints yargs context) /\
  keepsHeap (generate bp argv) /\
  keepsHeap (destroy bp argv) /\
  keepsHeap (run bp argv) /\
  keepsHeap (addRoute method urlPattern actionPath args) /\
  keepsHeap (removeRoute method urlPattern actionPath args).
Proof.
  repeat split.
  - apply keepsHeap_configureBlueprints.
  - apply keepsHeap_generate.
  - apply keepsHeap_destroy.
  - unfold run. destruct (action bp); [apply keepsHeap_generate|apply keepsHeap_destroy].
  - apply keepsHeap_addRoute.
  - apply keepsHeap_removeRoute.
Qed.

End FrameFacts.

(** ** More on [generate] and [destroy] *)

Section GenerateMore.

Context (Data Argv : Type).
Context (evalExpr : Data -> string -> option string).
Context (runScript : Data -> list Lodash.token -> option string).
Context (path_join : string -> string -> string) (cwd : string).
Context (dirnames : string -> list string).
Context (compiles : Lodash.interpolate -> string -> bool).
Context (walk : string -> option (list (string * tnode))).

Local Abbreviation template := (template Data evalExpr runScript).
Local Abbreviation generateFile := (generateFile Data evalExpr runScript path_join dirnames compiles).
Local Abbreviation generate := (generate Data Argv evalExpr runScript path_join cwd dirnames compiles walk).
Local Abbreviation templateFiles := (templateFiles Data Argv path_join).
Local Abbreviation destroy := (destroy Data Argv evalExpr runScript path_join cwd dirnames walk).
Local Abbreviation filesToDelete := (filesToDelete Data Argv evalExpr runScript path_join cwd walk).
Local Abbreviation destroyTarget := (destroyTarget Data evalExpr runScript path_join).
Local Abbreviation destroyClean := (destroyClean Data evalExpr runScript).
Local Abbreviation unmodified := (unmodified Data evalExpr runScript).
Local Abbreviation targetOf := (targetOf Data evalExpr runScript path_join).
Local Abbreviation generateFile_cases :=
  (generateFile_cases Data evalExpr runScript path_join dirnames compiles).
Local Abbreviation generateFile_keeps :=
  (generateFile_keeps Data evalExpr runScript path_join dirnames compiles).
Local Abbreviation forEach_generateFile_keeps :=
  (forEach_generateFile_keeps Data evalExpr runScript path_join dirnames compiles).
Local Abbreviation generate_cases :=
  (generate_cases Data Argv evalExpr runScript path_join cwd dirnames compiles walk).

Lemma templateFiles_heap bp w w1 w0 src :
  heap w1 = heap w ->
  templateFiles bp w = (w0, Ok src) ->
  templateFiles bp w1 = (w1, Ok src).
Proof.
  unfold templateFiles. intros ->.
  destruct (heap w !! cls bp) as [[? ? ? [d|]]|]; by inversion 1.
Qed.

(** When the loop of [generate] is through, every template file has its
    destination on disk. *)
Lemma forEach_generateFile_all_present data dest entries w w' :
  forEach entries (generateFile data dest) w = (w', Ok tt) ->
  forall rel contents, In (rel, TemplateFile contents) entries ->
    exists destRel, template Lodash.NameLiteral rel data = Some destRel /\
                    onDiskAt w' (path_join dest destRel) = true.
Proof.
  revert w. induction entries as [|e entries IH]; intros w; simpl; [done|].
  unfold bind. destruct (generateFile data dest e w) as [w1 [[]|e1]] eqn:He; [|done].
  intros Hrest rel contents [->|Hin]; [|by eapply IH].
  rewrite generateFile_cases in He.
  destruct (template _ rel data) as [destRel|]; [|done].
  exists destRel. split; [done|].
  apply (forEach_generateFile_onDiskAt Data evalExpr runScript path_join dirnames compiles
           _ _ _ _ _ _ _ Hrest).
  cbv zeta in He. destruct (onDiskAt w _) eqn:Hex.
  { inversion He; subst. exact Hex. }
  destruct (compiles _ _); cbn [negb] in He; [|done].
  destruct (existsb _ _); [done|].
  destruct (template _ contents data) as [rendered|]; [|done].
  case_bool_decide; [done|].
  inversion He; subst. unfold onDiskAt. cbn [files add_log set_files].
  rewrite bool_decide_eq_true_2; [done|]. rewrite lookup_insert_eq. by eexists.
Qed.

(** Where every destination is on disk, the loop writes nothing. *)
Lemma forEach_generateFile_present_noop data dest entries w :
  (forall rel contents, In (rel, TemplateFile contents) entries ->
     exists destRel, template Lodash.NameLiteral rel data = Some destRel /\
                     onDiskAt w (path_join dest destRel) = true) ->
  exists w', forEach entries (generateFile data dest) w = (w', Ok tt) /\
             files w' = files w /\ dirs w' = dirs w /\ heap w' = heap w.
Proof.
  assert (Hgen : forall w0, files w0 = files w -> dirs w0 = dirs w -> heap w0 = heap w ->
    (forall rel contents, In (rel, TemplateFile contents) entries ->
       exists destRel, template Lodash.NameLiteral rel data = Some destRel /\
                       onDiskAt w (path_join dest destRel) = true) ->
    exists w', forEach entries (generateFile data dest) w0 = (w', Ok tt) /\
               files w' = files w /\ dirs w' = dirs w /\ heap w' = heap w).
  { induction entries as [|[rel node] entries IH]; intros w0 Hf Hd Hh Hall; cbn [forEach].
    - by exists w0.
    - unfold bind. rewrite generateFile_cases. destruct node as [|contents].
      + destruct (IH w0) as (w' & -> & ?); try done; [|by exists w'].
        intros r c Hin. apply (Hall r c). by right.
      + destruct (Hall rel contents (or_introl eq_refl)) as (destRel & -> & Hex).
        cbv zeta.
        assert (onDiskAt w0 (path_join dest destRel) = true) as ->
          by (unfold onDiskAt in *; by rewrite Hf, Hd).
        destruct (IH (add_log (Info "already exists" destRel) w0)) as (w' & -> & ?);
          try done; [|by exists w'].
        intros r c Hin. apply (Hall r c). by right. }
  intros Hall. by apply Hgen.
Qed.

(** X5.  A [generate] that resolved can be run again: the second call resolves
    too and leaves every file as the first call left it. *)
Theorem generate_again_changes_no_file bp argv w w1 :
  generate bp argv w = (w1, Ok tt) ->
  exists w2, generate bp argv w1 = (w2, Ok tt) /\ files w2 = files w1.
Proof.
  rewrite generate_cases. intros H. rewrite generate_cases.
  destruct (locals bp argv) as [data|e]; [|done].
  destruct (templateFiles bp w) as [w0 [src|e]] eqn:Hs; [|done].
  assert (Hsame : forall wl, heap wl = heap w -> templateFiles bp wl = (wl, Ok src))
    by (intros wl Hh; by eapply templateFiles_heap).
  destruct (walk src) as [entries|] eqn:Hwalk; [|done].
  destruct (forEach entries (generateFile data cwd) w) as [wl [[]|e]] eqn:Hloop; [|done].
  pose proof (forEach_generateFile_keeps _ _ _ _ _ _ Hloop) as [Hh _].
  pose proof (forEach_generateFile_all_present _ _ _ _ _ Hloop) as Hall.
  assert (Hw1 : files w1 = files wl /\ dirs w1 = dirs wl /\ heap w1 = heap w).
  { destruct (postInstall bp argv) as [[]|e]; [by inversion H; subst|].
    destruct (stack_or_self e); by inversion H; subst. }
  destruct Hw1 as (Hf1 & Hd1 & Hh1). rewrite (Hsame w1 Hh1), Hwalk.
  destruct (forEach_generateFile_present_noop data cwd entries w1) as (w2 & -> & Hf2 & _).
  { intros rel contents Hin. destruct (Hall rel contents Hin) as (destRel & ? & Hon).
    exists destRel. split; [done|]. unfold onDiskAt in *. by rewrite Hf1, Hd1. }
  destruct (postInstall bp argv) as [[]|e]; [by exists w2|].
  destruct (stack_or_self e); [|done]. by eexists.
Qed.

(** *** Templates without markers *)

Lemma strip_prefix_app p q s :
  Lodash.strip_prefix p s = None -> Lodash.strip_prefix (p ++ q) s = None.
Proof.
  revert s. induction p as [|a p IH]; intros [|b s]; simpl; try done.
  destruct (Ascii.eqb a b); [apply IH|done].
Qed.

Lemma match_erb_none open s :
  String.prefix "<%" s = false ->
  Lodash.strip_prefix "<%" open <> None ->
  Lodash.match_erb open s = None.
Proof.
  intros Hs Hopen. unfold Lodash.match_erb.
  destruct (Lodash.strip_prefix "<%" open) as [q|] eqn:Hq; [|done].
  assert (open = "<%" ++ q) as ->.
  { destruct open as [|a [|b open]]; cbn [Lodash.strip_prefix] in Hq; try done.
    - by destruct (Ascii.eqb "<" a).
    - destruct (Ascii.eqb_spec "<" a) as [<-|]; [|done].
      destruct (Ascii.eqb_spec "%" b) as [<-|]; [|done]. by inversion Hq. }
  by rewrite (strip_prefix_app _ _ _ (strip_prefix_prefix _ _ Hs)).
Qed.

(** Text without [<%] (and, for a file name, without two underscores in a
    row) holds no delimiter: lodash renders it as it stands, whatever the
    data and the engine. *)
Lemma scan_plain i s :
  i <> Lodash.ReInterpolate ->
  Lodash.mentions "<%" s = false ->
  (i = Lodash.NameLiteral -> Lodash.mentions "__" s = false) ->
  forall d, Lodash.concat_tokens Data evalExpr d (Lodash.scan i 0 s) = Some s /\
            existsb Lodash.is_evaluate (Lodash.scan i 0 s) = false.
Proof.
  intros Hi. induction s as [|c s IH]; intros Herb Hname d; [done|].
  cbn [Lodash.mentions] in Herb. apply orb_false_iff in Herb as [Hhere Hrest].
  assert (Hat : Lodash.match_at i (String c s) = None).
  { unfold Lodash.match_at.
    rewrite (match_erb_none "<%-"), (match_erb_none "<%") by done.
    assert (Lodash.match_es_template i (String c s) = None) as -> by (by destruct i).
    assert (Lodash.match_interpolate i (String c s) = None) as ->; [|done].
    destruct i; [done|by apply match_erb_none|].
    specialize (Hname eq_refl). cbn [Lodash.mentions] in Hname.
    apply orb_false_iff in Hname as [Hn _].
    unfold Lodash.match_interpolate, Lodash.match_name.
    by rewrite (strip_prefix_prefix _ _ Hn). }
  cbn [Lodash.scan]. rewrite Hat. cbn [Lodash.concat_tokens existsb Lodash.is_evaluate orb].
  destruct (IH Hrest) with (d := d) as [-> ->]; [|done].
  intros ->. specialize (Hname eq_refl). cbn [Lodash.mentions] in Hname.
  by apply orb_false_iff in Hname as [_ ?].
Qed.

Lemma template_plain i s d :
  i <> Lodash.ReInterpolate ->
  Lodash.mentions "<%" s = false ->
  (i = Lodash.NameLiteral -> Lodash.mentions "__" s = false) ->
  template i s d = Some s.
Proof.
  intros Hi Herb Hname. unfold template, Lodash.template, Lodash.run, Lodash.tokenize.
  destruct (scan_plain i s Hi Herb Hname d) as [Hc ->]. exact Hc.
Qed.

(** X6.  A blueprint whose template files hold no marker, in their paths and in
    their contents, is copied: every file [generate] creates stands at the
    relative path of a template file and holds that file's contents. *)
Theorem generate_copies_templates_without_markers
    bp argv w w' r data src entries p c :
  locals bp argv = Ok data ->
  templateFiles bp w = (w, Ok src) ->
  walk src = Some entries ->
  (forall rel contents, In (rel, TemplateFile contents) entries ->
     Lodash.mentions "__" rel = false /\
     Lodash.mentions "<%" rel = false /\
     Lodash.mentions "<%" contents = false) ->
  generate bp argv w = (w', r) ->
  files w !! p = None ->
  files w' !! p = Some c ->
  exists rel, In (rel, TemplateFile c) entries /\ p = path_join cwd rel.
Proof.
  intros Hl Hs Hw Hplain Hgen Hnone Hsome.
  destruct (generate_files Data Argv evalExpr runScript path_join cwd dirnames compiles walk
              _ _ _ _ _ _ _ _ Hl Hs Hw Hgen) as (w1 & r1 & Hloop & Hf & _).
  rewrite Hf in Hsome.
  destruct (forEach_generateFile_created Data evalExpr runScript path_join dirnames compiles
              _ _ _ _ _ _ _ _ Hloop Hnone Hsome)
    as (rel & contents & destRel & Hin & -> & Hname & Hc).
  destruct (Hplain rel contents Hin) as (H1 & H2 & H3).
  rewrite template_plain in Hname by done.
  rewrite template_plain in Hc by done.
  exists rel. split; congruence.
Qed.

(** *** What [generate] reports *)

Lemma forEach_generateFile_lines data dest entries w w' :
  forEach entries (generateFile data dest) w = (w', Ok tt) ->
  exists lines,
    log w' = (log w ++ lines)%list /\
    Forall2 (fun entry line =>
               exists destRel,
                 template Lodash.NameLiteral (fst entry) data = Some destRel /\
                 (line = Info "create" destRel \/ line = Info "already exists" destRel))
      (List.filter isTemplateFile entries) lines.
Proof.
  revert w. induction entries as [|[rel node] entries IH]; intros w; cbn [forEach].
  - inversion 1; subst. exists []. split; [by rewrite app_nil_r|constructor].
  - unfold bind. rewrite generateFile_cases.
    destruct node as [|contents]; cbn [List.filter isTemplateFile snd].
    { intros (lines & Hl & Hf)%IH. by exists lines. }
    destruct (template _ rel data) as [destRel|] eqn:Hname; [|done].
    cbv zeta. destruct (onDiskAt w _).
    + intros (lines & Hl & Hf)%IH. exists (Info "already exists" destRel :: lines). split.
      * rewrite Hl. simpl. by rewrite <- app_assoc.
      * constructor; [|done]. exists destRel. split; [done|by right].
    + destruct (compiles _ _); cbn [negb]; [|done].
      destruct (existsb _ _); [done|].
      destruct (template _ contents data) as [rendered|]; [|done].
      case_bool_decide; [done|].
      intros (lines & Hl & Hf)%IH. exists (Info "create" destRel :: lines). split.
      * rewrite Hl. simpl. by rewrite <- app_assoc.
      * constructor; [|done]. exists destRel. split; [done|by left].
Qed.

(** X7.  A [generate] that resolves with a [postInstall] that resolved has
    logged one line for each template file, in the order of the walk:
    "create" or "already exists", with the interpolated relative path. *)
Theorem generate_reports_each_template_file bp argv w w' data src entries :
  locals bp argv = Ok data ->
  templateFiles bp w = (w, Ok src) ->
  walk src = Some entries ->
  postInstall bp argv = Ok tt ->
  generate bp argv w = (w', Ok tt) ->
  exists lines,
    log w' = (log w ++ lines)%list /\
    Forall2 (fun entry line =>
               exists destRel,
                 template Lodash.NameLiteral (fst entry) data = Some destRel /\
                 (line = Info "create" destRel \/ line = Info "already exists" destRel))
      (List.filter isTemplateFile entries) lines.
Proof.
  intros Hl Hs Hw Hhook. rewrite generate_cases, Hl, Hs, Hw, Hhook.
  destruct (forEach entries _ w) as [w1 [[]|e]] eqn:Hloop; [|done].
  inversion 1; subst. by apply (forEach_generateFile_lines data cwd).
Qed.

(** *** A class that was never discovered *)

(** X8.  [generate] and [destroy] on an instance whose class has no [dir]
    reject when they read [templateFiles], before they touch the disk or
    log a line. *)
Theorem generate_and_destroy_need_dir bp argv w data :
  locals bp argv = Ok data ->
  dir (heap_get (heap w) (cls bp)) = None ->
  generate bp argv w = (w, Throw engineError) /\
  destroy bp argv w = (w, Throw engineError).
Proof.
  intros Hl Hdir.
  assert (Hs : templateFiles bp w = (w, Throw engineError)).
  { unfold templateFiles. unfold heap_get in Hdir.
    destruct (heap w !! cls bp) as [[? ? ? [d|]]|]; done. }
  split.
  - by rewrite generate_cases, Hl, Hs.
  - unfold destroy, filesToDelete, bind, lift. by rewrite Hl, Hs.
Qed.

(** *** More on [destroy] *)

(** The first pass reads the blueprint sources and the data alone. *)
Lemma mmap_destroyTarget_pure data dest entries :
  exists r, forall w, mmap (destroyTarget data dest) entries w = (w, r).
Proof.
  induction entries as [|[rel node] entries [r0 IH]]; cbn [mmap].
  - by exists (Ok []).
  - unfold bind at 1. unfold destroyTarget at 1. unfold bind at 1, lift, ret.
    destruct (template _ (relative rel) data) as [destRel|]; cbn [of_option].
    + unfold bind at 1. destruct r0 as [ts|e].
      * eexists. intros w. by rewrite IH.
      * exists (Throw e). intros w. by rewrite IH.
    + by exists (Throw engineError).
Qed.

(** The third pass goes through exactly when every target it meets has a
    regular file at its destination and a template that renders. *)
Lemma mfilter_destroyClean_renders data ts w w' kept :
  mfilter (destroyClean data) ts w = (w', Ok kept) ->
  Forall (fun t => exists src rendered,
            absolutepath t = TemplateFile src /\
            is_Some (files w !! destAbsolutepath t) /\
            template Lodash.ReInterpolate src data = Some rendered) ts.
Proof.
  revert w w' kept.
  induction ts as [|t ts IH]; intros w w' kept; cbn [mfilter]; [by constructor|].
  intros H.
  unfold bind at 1 in H. unfold destroyClean at 1 in H.
  destruct (absolutepath t) as [|src] eqn:Habs; [done|].
  unfold bind at 1, lift, readFileSync in H. cbn [fst snd] in H.
  unfold bind at 1 in H.
  destruct (files w !! destAbsolutepath t) as [current|] eqn:Hcur; [|done].
  cbn [of_option] in H. unfold bind at 1 in H.
  destruct (template Lodash.ReInterpolate src data) as [compiled|] eqn:Hc;
    cbn [of_option] in H; [|done].
  constructor; [exists src, compiled; by rewrite Hcur|].
  unfold bind at 1, ui_info, ret in H.
  destruct (bool_decide (current = compiled)); unfold bind at 1 in H;
    (destruct (mfilter _ ts _) as [w1 [kept1|e]] eqn:Hrest; [|done]);
    apply (IH _ _ _ Hrest).
Qed.

Lemma mfilter_destroyClean_total data ts w :
  Forall (fun t => exists src rendered,
            absolutepath t = TemplateFile src /\
            is_Some (files w !! destAbsolutepath t) /\
            template Lodash.ReInterpolate src data = Some rendered) ts ->
  exists w', mfilter (destroyClean data) ts w =
               (w', Ok (List.filter (unmodified (files w) data) ts)) /\
             files w' = files w /\ dirs w' = dirs w /\ heap w' = heap w.
Proof.
  assert (Hgen : forall w0, files w0 = files w -> dirs w0 = dirs w -> heap w0 = heap w ->
    Forall (fun t => exists src rendered,
              absolutepath t = TemplateFile src /\
              is_Some (files w !! destAbsolutepath t) /\
              template Lodash.ReInterpolate src data = Some rendered) ts ->
    exists w', mfilter (destroyClean data) ts w0 =
                 (w', Ok (List.filter (unmodified (files w) data) ts)) /\
               files w' = files w /\ dirs w' = dirs w /\ heap w' = heap w).
  { induction ts as [|t ts IH]; intros w0 Hf Hd Hh Hrender; cbn [mfilter List.filter].
    - by exists w0.
    - inversion Hrender as [|? ? (src & compiled & Habs & [current Hcur] & Hc) Hrs]; subst.
      unfold bind at 1. unfold destroyClean at 1. unfold unmodified at 1.
      rewrite Habs in *.
      unfold bind at 1, lift, readFileSync. cbn [fst snd].
      unfold bind at 1. rewrite Hf, Hcur. cbn [of_option].
      unfold bind at 1. rewrite Hc. cbn [of_option].
      unfold bind at 1, ui_info, ret.
      assert (Hb : bool_decide (Some compiled = Some current)
                   = bool_decide (current = compiled)).
      { apply bool_decide_ext. split; congruence. }
      rewrite Hb. clear Hb.
      destruct (bool_decide (current = compiled)); unfold bind at 1;
        match goal with |- context [mfilter _ ts ?w1] =>
          destruct (IH w1) as (w' & Hrest & ?); [done|done|done|done|] end;
        rewrite Hrest; exists w'; (split; [reflexivity|done]). }
  intros Hrender. by apply Hgen.
Qed.

(** [filesToDelete], when it goes through, is the list the tests on the
    disk give for the targets of the walk. *)
Lemma filesToDelete_targets bp data w w1 doomed src entries :
  templateFiles bp w = (w, Ok src) ->
  walk src = Some entries ->
  filesToDelete bp data w = (w1, Ok doomed) ->
  exists ts,
    (forall w0, mmap (destroyTarget data cwd) entries w0 = (w0, Ok ts)) /\
    doomed = map destAbsolutepath
               (List.filter (unmodified (files w) data) (List.filter (onDisk w) ts)) /\
    Forall (fun t => exists src rendered,
              absolutepath t = TemplateFile src /\
              is_Some (files w !! destAbsolutepath t) /\
              template Lodash.ReInterpolate src data = Some rendered)
      (List.filter (onDisk w) ts).
Proof.
  intros Hs Hw. unfold filesToDelete. unfold bind at 1. rewrite Hs.
  unfold bind at 1, lift. rewrite Hw. cbn [of_option]. unfold bind at 1.
  destruct (mmap_destroyTarget_pure data cwd entries) as [rt Hmap]. rewrite Hmap.
  destruct rt as [ts|e]; [|done].
  unfold bind at 1.
  destruct (mfilter_destroyExists ts w) as (w2 & -> & Hf2 & Hd2 & Hh2).
  unfold bind at 1.
  destruct (mfilter _ _ w2) as [w3 [kept|e]] eqn:Hkept; [|done].
  pose proof (mfilter_destroyClean_renders _ _ _ _ _ Hkept) as Hrender.
  apply (mfilter_destroyClean Data evalExpr runScript) in Hkept as (-> & _).
  unfold ret. inversion 1; subst. exists ts. rewrite Hf2 in *. done.
Qed.

Lemma filter_nil {A} (f : A -> bool) l :
  (forall x, In x l -> f x = false) -> List.filter f l = [].
Proof.
  induction l as [|x l IH]; intros H; simpl; [done|].
  rewrite (H x (or_introl eq_refl)). apply IH. intros y Hy. apply H. by right.
Qed.

(** X9.  After a [destroy] whose passes went through, a second [destroy] finds
    nothing to delete: its passes go through as well, its list is empty,
    and it leaves every file as the first call left it. *)
Theorem destroy_again_deletes_nothing bp argv w w1 r data src entries wa doomed :
  locals bp argv = Ok data ->
  templateFiles bp w = (w, Ok src) ->
  walk src = Some entries ->
  filesToDelete bp data w = (wa, Ok doomed) ->
  destroy bp argv w = (w1, r) ->
  exists wb w2,
    filesToDelete bp data w1 = (wb, Ok []) /\
    destroy bp argv w1 = (w2, r) /\
    files w2 = files w1.
Proof.
  intros Hl Hs Hw Hdoomed Hdestroy.
  destruct (filesToDelete_targets _ _ _ _ _ _ _ Hs Hw Hdoomed) as (ts & Hts & Hd & Hrender).
  destruct (filesToDelete_spec Data Argv evalExpr runScript path_join cwd walk
              _ _ _ _ _ _ _ Hs Hw Hdoomed) as (Hfa & Hha & _).
  pose proof (filesToDelete_dirs Data Argv evalExpr runScript path_join cwd walk
                _ _ _ _ _ Hdoomed) as Hda.
  pose proof (filesToDelete_regular Data Argv evalExpr runScript path_join cwd walk
                _ _ _ _ _ Hdoomed) as Hreg.
  destruct (destroy_lookup Data Argv evalExpr runScript path_join cwd dirnames walk
              _ _ _ _ _ _ _ _ Hl Hdoomed Hdestroy) as [Hh1 Hf1].
  pose proof (destroy_dirs Data Argv evalExpr runScript path_join cwd dirnames walk
                _ _ _ _ _ _ _ _ Hl Hdoomed Hdestroy) as Hd1.
  assert (Hr : r = postUninstall bp argv).
  { unfold destroy in Hdestroy. unfold bind at 1, lift in Hdestroy. rewrite Hl in Hdestroy.
    unfold bind at 1 in Hdestroy. rewrite Hdoomed in Hdestroy. unfold bind at 1 in Hdestroy.
    destruct (forEach_rimraf dirnames doomed wa) as (wx & Hrm & _).
    { eapply Forall_impl; [exact Hreg|]. intros d ?. by left. }
    rewrite Hrm in Hdestroy. by inversion Hdestroy. }
  assert (Hs1 : templateFiles bp w1 = (w1, Ok src)).
  { eapply templateFiles_heap; [|exact Hs]. congruence. }
  (* the passes of the second call *)
  assert (Hsecond : exists wb, filesToDelete bp data w1 = (wb, Ok [])).
  { unfold filesToDelete. unfold bind at 1. rewrite Hs1.
    unfold bind at 1, lift. rewrite Hw. cbn [of_option]. unfold bind at 1.
    rewrite Hts.
    unfold bind at 1.
    destruct (mfilter_destroyExists ts w1) as (w2 & -> & Hf2 & Hd2 & Hh2).
    unfold bind at 1.
    assert (Hin1 : forall t, In t (List.filter (onDisk w1) ts) ->
              (exists tsrc rendered,
                 absolutepath t = TemplateFile tsrc /\
                 is_Some (files w1 !! destAbsolutepath t) /\
                 template Lodash.ReInterpolate tsrc data = Some rendered) /\
              unmodified (files w1) data t = false).
    { intros t [Hin Ht]%filter_In.
      assert (Hon : onDisk w t = true).
      { unfold onDisk, onDiskAt in *. destruct (absolutepath t); [done|].
        apply orb_prop in Ht as [Ht|Ht].
        - apply bool_decide_eq_true in Ht as [cur Hcur]. rewrite Hf1 in Hcur.
          case_bool_decide; [done|]. rewrite Hfa in Hcur.
          rewrite bool_decide_eq_true_2; [done|by eexists].
        - apply bool_decide_eq_true in Ht. apply Hd1 in Ht as [Ht _]. rewrite Hda in Ht.
          rewrite (bool_decide_eq_true_2 (_ ∈ dirs w)); [by rewrite orb_true_r|done]. }
      assert (Hinw : In t (List.filter (onDisk w) ts)) by (by apply filter_In).
      rewrite List.Forall_forall in Hrender.
      destruct (Hrender t Hinw) as (tsrc & rendered & Habs & [cur0 Hcur0] & Hc).
      assert (Hnot : destAbsolutepath t ∉ doomed).
      { intros Hdoom. unfold onDisk, onDiskAt in Ht. rewrite Habs in Ht.
        apply orb_prop in Ht as [Ht|Ht].
        - apply bool_decide_eq_true in Ht as [cur Hcur]. rewrite Hf1 in Hcur.
          by rewrite bool_decide_eq_true_2 in Hcur.
        - apply bool_decide_eq_true in Ht. by apply Hd1 in Ht as [_ ?]. }
      assert (Hcur1 : files w1 !! destAbsolutepath t = Some cur0).
      { rewrite Hf1, bool_decide_eq_false_2 by done. by rewrite Hfa. }
      split.
      - exists tsrc, rendered. rewrite Hcur1. by repeat split.
      - unfold unmodified. rewrite Habs, Hcur1. apply bool_decide_eq_false_2.
        intros Heq. apply Hnot. subst doomed. apply list_elem_of_In, in_map_iff.
        exists t. split; [done|]. apply filter_In. split; [done|].
        unfold unmodified. rewrite Habs, Hcur0. by apply bool_decide_eq_true_2. }
    destruct (mfilter_destroyClean_total data (List.filter (onDisk w1) ts) w2)
      as (w3 & -> & _).
    { apply List.Forall_forall. intros t Ht. rewrite Hf2. by apply Hin1. }
    rewrite Hf2, filter_nil; [by exists w3|].
    intros t Ht. by apply Hin1. }
  destruct Hsecond as [wb Hwb]. exists wb.
  unfold destroy at 1. unfold bind at 1, lift. rewrite Hl.
  unfold bind at 1. rewrite Hwb. unfold bind at 1. cbn [forEach]. unfold ret.
  exists wb. rewrite Hr. repeat split; try done.
  destruct (filesToDelete_spec Data Argv evalExpr runScript path_join cwd walk
              _ _ _ _ _ _ _ Hs1 Hw Hwb) as (Hfb & _ & _).
  done.
Qed.

(** X10.  The passes of [destroy] went through and [postUninstall] rejects: the
    rejection is not caught, and the files of the list are deleted all the
    same. *)
Theorem destroy_propagates_postUninstall bp argv w w1 data doomed e :
  locals bp argv = Ok data ->
  filesToDelete bp data w = (w1, Ok doomed) ->
  postUninstall bp argv = Throw e ->
  exists w',
    destroy bp argv w = (w', Throw e) /\
    forall p, files w' !! p = if bool_decide (p ∈ doomed) then None else files w1 !! p.
Proof.
  intros Hl Hdoomed Hhook. unfold destroy. unfold bind at 1, lift. rewrite Hl.
  unfold bind at 1. rewrite Hdoomed. unfold bind at 1.
  destruct (forEach_rimraf dirnames doomed w1) as (w2 & -> & _ & _ & Hf).
  { eapply Forall_impl;
      [exact (filesToDelete_regular Data Argv evalExpr runScript path_join cwd walk
                _ _ _ _ _ Hdoomed)|].
    intros d ?. by left. }
  rewrite Hhook. by exists w2.
Qed.

(** *** The directories [generate] makes *)

(** A round of the loop writes no file where a directory stands. *)
Lemma generateFile_not_at_dir data dest entry w w' r d :
  generateFile data dest entry w = (w', r) ->
  d ∈ dirs w -> files w !! d = None -> files w' !! d = None.
Proof.
  destruct entry as [rel node]. rewrite generateFile_cases.
  destruct node as [|contents]; [by inversion 1|].
  destruct (template _ rel data) as [destRel|]; [|by inversion 1].
  cbv zeta. destruct (onDiskAt w _) eqn:Hon; [by inversion 1|].
  destruct (compiles _ _); cbn [negb]; [|by inversion 1].
  destruct (existsb _ _); [by inversion 1|].
  destruct (template _ contents data) as [rendered|]; [|by inversion 1].
  case_bool_decide; [by inversion 1|].
  inversion 1; subst; simpl. intros Hd Hnone.
  rewrite lookup_insert_ne; [done|]. intros Heq. subst d.
  apply orb_false_elim in Hon as [_ Hon]. apply bool_decide_eq_false in Hon. done.
Qed.

Lemma forEach_generateFile_not_at_dir data dest entries w w' r d :
  forEach entries (generateFile data dest) w = (w', r) ->
  d ∈ dirs w -> files w !! d = None -> files w' !! d = None.
Proof.
  revert w. induction entries as [|e entries IH]; intros w; simpl.
  - by inversion 1.
  - unfold bind. destruct (generateFile data dest e w) as [w1 [[]|e1]] eqn:He.
    + intros H Hd Hnone. apply (IH w1); [done| |].
      * by eapply (generateFile_dirs Data evalExpr runScript path_join dirnames compiles).
      * by eapply generateFile_not_at_dir.
    + inversion 1; subst. by eapply generateFile_not_at_dir.
Qed.

(** The file a round creates has directories above it. *)
Lemma generateFile_parents data dest entry w w' r p c :
  generateFile data dest entry w = (w', r) ->
  files w !! p = None -> files w' !! p = Some c ->
  forall d, d ∈ dirnames p -> d ∈ dirs w' /\ files w' !! d = None.
Proof.
  destruct entry as [rel node]. rewrite generateFile_cases.
  destruct node as [|contents]; [inversion 1; congruence|].
  destruct (template _ rel data) as [destRel|]; [|inversion 1; congruence].
  cbv zeta. destruct (onDiskAt w _) eqn:Hon; [inversion 1; subst; simpl; congruence|].
  destruct (compiles _ _); cbn [negb]; [|inversion 1; congruence].
  destruct (existsb _ _) eqn:Hchain; [inversion 1; congruence|].
  destruct (template _ contents data) as [rendered|]; [|inversion 1; subst; simpl; congruence].
  case_bool_decide as Hself; [inversion 1; subst; simpl; congruence|].
  inversion 1; subst; simpl. intros Hnone Hsome d Hd.
  destruct (decide (p = path_join dest destRel)) as [->|Hne];
    [|rewrite lookup_insert_ne in Hsome by done; congruence].
  split.
  - by apply elem_of_union_l, elem_of_list_to_set.
  - rewrite lookup_insert_ne by (intros <-; done).
    destruct (files w !! d) as [x|] eqn:Hx; [|done].
    assert (existsb (fun d0 => bool_decide (is_Some (files w !! d0)))
              (dirnames (path_join dest destRel)) = true) as Habs; [|congruence].
    apply existsb_exists. exists d. split; [by apply list_elem_of_In|].
    apply bool_decide_eq_true_2. rewrite Hx. by eexists.
Qed.

Lemma forEach_generateFile_parents data dest entries w w' r p c :
  forEach entries (generateFile data dest) w = (w', r) ->
  files w !! p = None -> files w' !! p = Some c ->
  forall d, d ∈ dirnames p -> d ∈ dirs w' /\ files w' !! d = None.
Proof.
  revert w. induction entries as [|e entries IH]; intros w; simpl.
  - inversion 1; congruence.
  - unfold bind. destruct (generateFile data dest e w) as [w1 [[]|e1]] eqn:He.
    + intros H Hnone Hsome d Hd.
      destruct (files w1 !! p) as [c1|] eqn:Hp1; [|by apply (IH w1)].
      destruct (generateFile_parents _ _ _ _ _ _ _ _ He Hnone Hp1 d Hd) as [Hdir Hfile].
      split.
      * by eapply (forEach_generateFile_dirs Data evalExpr runScript path_join dirnames compiles).
      * by eapply forEach_generateFile_not_at_dir.
    + inversion 1; subst. by eapply generateFile_parents.
Qed.

(** X22.  [generate] makes the directories it needs and removes none: however
    the call ends, every directory that was there is still there, and every
    file the call created has all the directories above it ([mkdirp.sync]
    of its [path.dirname]), none of which is a regular file. *)
Theorem generate_makes_parent_directories bp argv w w' r :
  generate bp argv w = (w', r) ->
  (forall d, d ∈ dirs w -> d ∈ dirs w') /\
  (forall p c, files w !! p = None -> files w' !! p = Some c ->
     forall d, d ∈ dirnames p -> d ∈ dirs w' /\ files w' !! d = None).
Proof.
  rewrite generate_cases. intros H.
  destruct (locals bp argv) as [data|e]; [|inversion H; subst; split; [done|congruence]].
  destruct (templateFiles bp w) as [w0 [src|e]];
    [|inversion H; subst; split; [done|congruence]].
  destruct (walk src) as [entries|]; [|inversion H; subst; split; [done|congruence]].
  destruct (forEach entries (generateFile data cwd) w) as [w1 ro] eqn:Hloop.
  assert (Hw : files w' = files w1 /\ dirs w' = dirs w1).
  { destruct ro as [[]|e]; [|by inversion H; subst].
    destruct (postInstall bp argv) as [[]|e]; [by inversion H; subst|].
    destruct (stack_or_self e); by inversion H; subst. }
  destruct Hw as [Hf Hd]. rewrite Hf, Hd. split.
  - by eapply (forEach_generateFile_dirs Data evalExpr runScript path_join dirnames compiles).
  - intros p c. by eapply forEach_generateFile_parents.
Qed.

(** A round of the loop leaves a path off the disk when a regular file
    stands above it and no destination lies below the path without lying
    below that file. *)
Lemma generateFile_blocked data dest entry w w' r p d :
  generateFile data dest entry w = (w', r) ->
  onDiskAt w p = false ->
  d ∈ dirnames p ->
  is_Some (files w !! d) ->
  (forall contents destRel,
     snd entry = TemplateFile contents ->
     template Lodash.NameLiteral (fst entry) data = Some destRel ->
     p ∈ dirnames (path_join dest destRel) -> d ∈ dirnames (path_join dest destRel)) ->
  onDiskAt w' p = false.
Proof.
  destruct entry as [rel node]. rewrite generateFile_cases. cbn [fst snd].
  destruct node as [|contents]; [by inversion 1|].
  destruct (template _ rel data) as [destRel|]; [|by inversion 1].
  cbv zeta. destruct (onDiskAt w _) eqn:Hon; [by inversion 1|].
  destruct (compiles _ _); cbn [negb]; [|by inversion 1].
  destruct (existsb _ _) eqn:Hchain; [by inversion 1|].
  intros H Hoff Hd Hfile Hnest.
  assert (Hnotin : d ∉ dirnames (path_join dest destRel)).
  { intros Hin.
    assert (existsb (fun d0 => bool_decide (is_Some (files w !! d0)))
              (dirnames (path_join dest destRel)) = true) as Habs; [|congruence].
    apply existsb_exists. exists d. split; [by apply list_elem_of_In|].
    by apply bool_decide_eq_true_2. }
  assert (Hp : p ∉ dirnames (path_join dest destRel)).
  { intros Hin. apply Hnotin. by eapply Hnest. }
  assert (Hne : p <> path_join dest destRel) by (by intros ->).
  apply orb_false_elim in Hoff as [Hoff1 Hoff2].
  apply bool_decide_eq_false in Hoff1. apply bool_decide_eq_false in Hoff2.
  assert (Hdirs : p ∉ list_to_set (C := gset string) (dirnames (path_join dest destRel)) ∪ dirs w).
  { rewrite elem_of_union, elem_of_list_to_set. by intros [?|?]. }
  unfold onDiskAt.
  destruct (template _ contents data) as [rendered|];
    [case_bool_decide|]; inversion H; subst; simpl;
    rewrite ?lookup_insert_ne by done;
    rewrite (bool_decide_eq_false_2 _ Hoff1), (bool_decide_eq_false_2 _ Hdirs); done.
Qed.

(** X23.  [generate] writes nothing below a regular file.  Where a template
    file's destination is not on disk and one of the directories above it
    is a regular file, [mkdirp.sync] throws: the call rejects, and the
    destination is not on disk afterwards.  (The directory chains nest: a
    destination below this one is below that file as well.) *)
Theorem generate_rejects_below_regular_file
    bp argv w w' r data src entries rel contents destRel d :
  locals bp argv = Ok data ->
  templateFiles bp w = (w, Ok src) ->
  walk src = Some entries ->
  In (rel, TemplateFile contents) entries ->
  template Lodash.NameLiteral rel data = Some destRel ->
  onDiskAt w (path_join cwd destRel) = false ->
  d ∈ dirnames (path_join cwd destRel) ->
  is_Some (files w !! d) ->
  (forall rel' contents' destRel',
     In (rel', TemplateFile contents') entries ->
     template Lodash.NameLiteral rel' data = Some destRel' ->
     path_join cwd destRel ∈ dirnames (path_join cwd destRel') ->
     d ∈ dirnames (path_join cwd destRel')) ->
  generate bp argv w = (w', r) ->
  (exists e, r = Throw e) /\ onDiskAt w' (path_join cwd destRel) = false.
Proof.
  intros Hl Hs Hw Hin Hname Hoff Hd Hfile Hnest.
  rewrite generate_cases, Hl, Hs, Hw.
  assert (Hloop : forall es w0 w1 r1,
            (forall rel' contents' destRel',
               In (rel', TemplateFile contents') es ->
               template Lodash.NameLiteral rel' data = Some destRel' ->
               path_join cwd destRel ∈ dirnames (path_join cwd destRel') ->
               d ∈ dirnames (path_join cwd destRel')) ->
            forEach es (generateFile data cwd) w0 = (w1, r1) ->
            onDiskAt w0 (path_join cwd destRel) = false ->
            is_Some (files w0 !! d) ->
            onDiskAt w1 (path_join cwd destRel) = false /\
            (In (rel, TemplateFile contents) es -> exists e, r1 = Throw e)).
  { induction es as [|e0 es IH]; intros w0 w1 r1 Hn; cbn [forEach].
    - inversion 1; subst. by split.
    - unfold bind. destruct (generateFile data cwd e0 w0) as [w2 r2] eqn:He.
      intros Hrest Hoff0 Hfile0.
      assert (Hoff2 : onDiskAt w2 (path_join cwd destRel) = false).
      { eapply generateFile_blocked; [exact He|done|exact Hd|done|].
        intros c0 dr0 Hc0 Hn0. apply (Hn (fst e0) c0); [|done].
        left. destruct e0 as [? ?]; cbn [fst snd] in *. by subst. }
      destruct r2 as [[]|e2].
      + assert (Hfile2 : is_Some (files w2 !! d)).
        { destruct Hfile0 as [x Hx]. exists x.
          by apply (generateFile_keeps _ _ _ _ _ _ He). }
        destruct (IH w2 w1 r1) as [Hoff1 Hthrow]; try done.
        { intros r' c' dr' Hin'. apply (Hn r' c' dr'). by right. }
        split; [done|]. intros [->|Hin']; [|by apply Hthrow].
        exfalso. rewrite generateFile_cases, Hname in He. cbv zeta in He.
        rewrite Hoff0 in He.
        destruct (compiles _ _); cbn [negb] in He; [|by inversion He].
        assert (existsb (fun d0 => bool_decide (is_Some (files w0 !! d0)))
                  (dirnames (path_join cwd destRel)) = true) as Hchain.
        { apply existsb_exists. exists d. split; [by apply list_elem_of_In|].
          by apply bool_decide_eq_true_2. }
        rewrite Hchain in He. by inversion He.
      + inversion Hrest; subst. split; [done|]. intros _. by eexists. }
  destruct (forEach entries (generateFile data cwd) w) as [w1 ro] eqn:Hrun.
  destruct (Hloop entries w w1 ro Hnest Hrun Hoff Hfile) as [Hoff1 Hthrow].
  destruct (Hthrow Hin) as [e ->]. inversion 1; subst. split; [by eexists|done].
Qed.

(** *** What [destroy] deletes *)

Lemma mmap_destroyTarget_cases data dest entries :
  (exists ts, (forall w, mmap (destroyTarget data dest) entries w = (w, Ok ts)) /\
              Forall2 (targetOf data dest) entries ts /\
              forall rel node, In (rel, node) entries ->
                is_Some (template Lodash.NameLiteral (relative rel) data)) \/
  ((forall w, mmap (destroyTarget data dest) entries w = (w, Throw engineError)) /\
   exists rel node, In (rel, node) entries /\
                    template Lodash.NameLiteral (relative rel) data = None).
Proof.
  induction entries as [|[rel node] entries IH]; cbn [mmap].
  - left. exists []. repeat split; [constructor|]. by intros ? ? [].
  - destruct (template Lodash.NameLiteral (relative rel) data) as [destRel|] eqn:Hname.
    + destruct IH as [(ts & Hts & Hall & Hnames)|(Hthrow & r0 & n0 & Hin & Hnone)].
      * left. eexists. split; [|split].
        -- intros w. unfold bind at 1. unfold destroyTarget at 1.
           unfold bind at 1, lift, ret. rewrite Hname. cbn [of_option].
           unfold bind at 1. rewrite Hts. reflexivity.
        -- constructor; [|exact Hall]. by repeat split.
        -- intros r n [[= <- <-]|Hin]; [by eexists|by eapply Hnames].
      * right. split.
        -- intros w. unfold bind at 1. unfold destroyTarget at 1.
           unfold bind at 1, lift, ret. rewrite Hname. cbn [of_option].
           unfold bind at 1. by rewrite Hthrow.
        -- exists r0, n0. split; [by right|done].
    + right. split.
      * intros w. unfold bind at 1. unfold destroyTarget at 1.
        unfold bind at 1, lift, ret. by rewrite Hname.
      * exists rel, node. split; [by left|done].
Qed.

(** The third pass throws at a target whose destination is no regular
    file, or whose template does not render, where it has not thrown
    before; nothing has been deleted then. *)
Lemma mfilter_destroyClean_throws data ts w t :
  In t ts ->
  (forall src, absolutepath t = TemplateFile src ->
     files w !! destAbsolutepath t = None \/
     template Lodash.ReInterpolate src data = None) ->
  exists w', mfilter (destroyClean data) ts w = (w', Throw engineError) /\
             files w' = files w /\ dirs w' = dirs w /\ heap w' = heap w.
Proof.
  intros Hin Hbad.
  assert (Hgen : forall w0, files w0 = files w -> dirs w0 = dirs w -> heap w0 = heap w ->
            exists w', mfilter (destroyClean data) ts w0 = (w', Throw engineError) /\
                       files w' = files w /\ dirs w' = dirs w /\ heap w' = heap w).
  { induction ts as [|t0 ts IH]; [done|]. intros w0 Hf Hd Hh. cbn [mfilter].
    unfold bind at 1. unfold destroyClean at 1.
    destruct (absolutepath t0) as [|src0] eqn:Habs0.
    { unfold bind at 1, lift. by exists w0. }
    unfold bind at 1, lift, readFileSync. cbn [fst snd].
    unfold bind at 1. rewrite Hf.
    destruct (files w !! destAbsolutepath t0) as [current|] eqn:Hcur; cbn [of_option];
      [|by exists w0].
    unfold bind at 1.
    destruct (template Lodash.ReInterpolate src0 data) as [compiled|] eqn:Hc;
      cbn [of_option]; [|by exists w0].
    assert (Hin' : In t ts).
    { destruct Hin as [->|Hin']; [|done].
      destruct (Hbad src0 Habs0) as [Hx|Hx]; congruence. }
    unfold bind at 1, ui_info, ret.
    destruct (bool_decide (current = compiled)); unfold bind at 1;
      match goal with |- context [mfilter _ ts ?w1] =>
        destruct (IH Hin' w1) as (w' & Hrest & ?); [done|done|done|] end;
      rewrite Hrest; by exists w'. }
  by apply Hgen.
Qed.

(** C2, amended.  Where every template path renders, and every template
    file whose destination is on disk finds a regular file there and
    renders itself (lodash's default delimiters), [destroy] gets through
    and ends as [postUninstall] does; it has deleted a file exactly when
    the file was on disk, is the destination of a template file, and held
    the rendering of that template under the data computed by this call;
    every other file keeps its contents, nothing is created, the
    directories stay, and no class is written to.  Where a template path
    does not render, or a template file whose destination is on disk finds
    a directory there or does not render, [destroy] rejects and has
    deleted nothing. *)
Theorem destroy_deletes_exactly_unmodified bp argv w data src entries :
  locals bp argv = Ok data ->
  templateFiles bp w = (w, Ok src) ->
  walk src = Some entries ->
  ((forall rel node, In (rel, node) entries ->
      is_Some (template Lodash.NameLiteral (relative rel) data)) ->
   (forall rel contents destRel,
      In (rel, TemplateFile contents) entries ->
      template Lodash.NameLiteral (relative rel) data = Some destRel ->
      onDiskAt w (path_join cwd destRel) = true ->
      is_Some (files w !! path_join cwd destRel) /\
      is_Some (template Lodash.ReInterpolate contents data)) ->
   exists w',
     destroy bp argv w = (w', postUninstall bp argv) /\
     (forall p,
        (is_Some (files w !! p) /\ files w' !! p = None) <->
        exists rel contents destRel rendered,
          In (rel, TemplateFile contents) entries /\
          template Lodash.NameLiteral (relative rel) data = Some destRel /\
          p = path_join cwd destRel /\
          template Lodash.ReInterpolate contents data = Some rendered /\
          files w !! p = Some rendered) /\
     (forall p, files w' !! p = None \/ files w' !! p = files w !! p) /\
     (forall d, d ∈ dirs w' -> d ∈ dirs w) /\
     (forall d, d ∈ dirs w -> files w !! d = None -> d ∈ dirs w') /\
     heap w' = heap w) /\
  ((exists rel node,
      In (rel, node) entries /\
      template Lodash.NameLiteral (relative rel) data = None) \/
   (exists rel contents destRel,
      In (rel, TemplateFile contents) entries /\
      template Lodash.NameLiteral (relative rel) data = Some destRel /\
      onDiskAt w (path_join cwd destRel) = true /\
      (files w !! path_join cwd destRel = None \/
       template Lodash.ReInterpolate contents data = None)) ->
   exists w',
     destroy bp argv w = (w', Throw engineError) /\
     files w' = files w /\ dirs w' = dirs w /\ heap w' = heap w).
Proof.
  intros Hl Hs Hw. split.
  - intros Hnames Hdests.
    destruct (mmap_destroyTarget_cases data cwd entries)
      as [(ts & Hts & Hall & _)|(_ & r0 & n0 & Hin & Hnone)].
    2:{ destruct (Hnames r0 n0 Hin) as [? ?]. congruence. }
    destruct (mfilter_destroyExists ts w) as (w2 & Hex & Hf2 & Hd2 & Hh2).
    destruct (mfilter_destroyClean_total data (List.filter (onDisk w) ts) w2)
      as (w3 & Hclean & Hf3 & Hd3 & Hh3).
    { apply List.Forall_forall. intros t [Hin Hon]%filter_In.
      destruct (Forall2_In_r _ _ _ _ Hall Hin) as ([rel node] & Hine & Hname & Habs & Hnode).
      cbn [fst snd] in *. unfold onDisk in Hon. rewrite Hnode in *.
      destruct node as [|contents]; [done|].
      rewrite Habs in Hon. destruct (Hdests rel contents _ Hine Hname Hon) as [Hfile [c Hc]].
      exists contents, c. rewrite Hf2, Habs. by repeat split. }
    assert (Hdoomed : filesToDelete bp data w =
              (w3, Ok (map destAbsolutepath
                         (List.filter (unmodified (files w2) data)
                            (List.filter (onDisk w) ts))))).
    { unfold filesToDelete. unfold bind at 1. rewrite Hs.
      unfold bind at 1, lift. rewrite Hw. cbn [of_option]. unfold bind at 1.
      rewrite Hts. unfold bind at 1. rewrite Hex. unfold bind at 1. by rewrite Hclean. }
    destruct (forEach_rimraf dirnames _ w3
                (Forall_impl _ _ _
                   (filesToDelete_regular Data Argv evalExpr runScript path_join cwd walk
                      _ _ _ _ _ Hdoomed) (fun d Hd => or_introl Hd)))
      as (w4 & Hrm & _).
    assert (Hdestroy : destroy bp argv w = (w4, postUninstall bp argv)).
    { unfold destroy. unfold bind at 1, lift. rewrite Hl.
      unfold bind at 1. rewrite Hdoomed. unfold bind at 1. by rewrite Hrm. }
    exists w4. split; [done|].
    destruct (destroy_after_passes Data Argv evalExpr runScript path_join cwd dirnames walk
                _ _ _ _ _ _ _ _ _ _ Hl Hs Hw Hdoomed Hdestroy) as (Hgone & Hkept & Hheap).
    repeat (split; [done|]). split; [|split; [|done]].
    + intros d Hd.
      destruct (destroy_dirs Data Argv evalExpr runScript path_join cwd dirnames walk
                  _ _ _ _ _ _ _ _ Hl Hdoomed Hdestroy d Hd) as [Hd3' _].
      by rewrite Hd3, Hd2 in Hd3'.
    + intros d Hd Hnone.
      apply (destroy_keeps_dirs Data Argv evalExpr runScript path_join cwd dirnames walk
               _ _ _ _ _ _ _ _ Hl Hdoomed Hdestroy d).
      * by rewrite Hd3, Hd2.
      * by rewrite Hf3, Hf2.
  - intros Hbad.
    assert (Hthrow : exists w1, filesToDelete bp data w = (w1, Throw engineError) /\
                                files w1 = files w /\ dirs w1 = dirs w /\ heap w1 = heap w).
    { unfold filesToDelete. unfold bind at 1. rewrite Hs.
      unfold bind at 1, lift. rewrite Hw. cbn [of_option]. unfold bind at 1.
      destruct (mmap_destroyTarget_cases data cwd entries)
        as [(ts & Hts & Hall & Hnames)|(Hts & _)]; rewrite Hts; [|by exists w].
      destruct Hbad as [(r0 & n0 & Hin & Hnone)|(rel & contents & destRel & Hin & Hname & Hon & Hno)].
      { destruct (Hnames r0 n0 Hin) as [? ?]. congruence. }
      destruct (Forall2_In_l _ _ _ _ Hall Hin) as (t & Hint & Hname' & Habs & Hnode).
      cbn [fst snd] in *.
      assert (destRelativepath t = destRel) as Hrel by congruence.
      unfold bind at 1.
      destruct (mfilter_destroyExists ts w) as (w2 & -> & Hf2 & Hd2 & Hh2).
      unfold bind at 1.
      destruct (mfilter_destroyClean_throws data (List.filter (onDisk w) ts) w2 t)
        as (w3 & -> & Hf3 & Hd3 & Hh3).
      { apply filter_In. split; [done|]. unfold onDisk. by rewrite Hnode, Habs, Hrel. }
      { intros src0 Hsrc0. rewrite Hnode in Hsrc0. injection Hsrc0 as <-.
        rewrite Hf2, Habs, Hrel. exact Hno. }
      exists w3. repeat split; congruence. }
    destruct Hthrow as (w1 & Hthrow & ?). exists w1. split; [|done].
    unfold destroy. unfold bind at 1, lift. rewrite Hl. unfold bind at 1. by rewrite Hthrow.
Qed.

End GenerateMore.

Lemma destroy_deletes_exactly_unmodified_witness :
  (exists w',
     Sample.destroy Cases.mixedTree Cases.mixedWorld = (w', Ok tt) /\
     files w' !! "/app/app/world.js" = None /\
     files w' !! "/app/app/index.js" = Some "export default 2;" /\
     files w' !! "/app/notes" = Some "mine" /\
     "/app/app" ∈ dirs w') /\
  (exists w',
     Sample.destroy Cases.brokenTree Cases.brokenWorld = (w', Throw engineError) /\
     files w' = files Cases.brokenWorld) /\
  (exists w',
     Sample.destroy Cases.twoTree Cases.dirWorld = (w', Throw engineError) /\
     files w' = files Cases.dirWorld /\ dirs w' = dirs Cases.dirWorld).
Proof.
  split; [|split].
  - destruct (proj1 (destroy_deletes_exactly_unmodified
                       (list (string * string)) unit Sample.evalExpr Sample.runScript
                       Sample.path_join Sample.cwd Sample.dirnames
                       (Sample.walkOf Cases.mixedTree) (Sample.instance (Ok tt)) tt
                       Cases.mixedWorld [("name", "world"); ("title", "a<b")]
                       "/bp/greeter/files" Cases.mixedTree
                       eq_refl eq_refl eq_refl))
      as (w' & Hrun & Hgone & Hkept & _ & Hdirs & _).
    + intros rel node [Heq|[Heq|[Heq|[Heq|[]]]]]; inversion Heq; subst;
        vm_compute; by eexists.
    + intros rel contents destRel [Heq|[Heq|[Heq|[Heq|[]]]]]; inversion Heq; subst;
        intros Hname; vm_compute in Hname; inversion Hname; subst;
        intros Hon; vm_compute in Hon; try discriminate Hon;
        split; vm_compute; by eexists.
    + exists w'. split; [exact Hrun|].
      assert (Hnot : forall p c,
                files Cases.mixedWorld !! p = Some c ->
                p <> "/app/app/world.js" ->
                files w' !! p = Some c).
      { intros p c Hp Hne. destruct (Hkept p) as [Hnone|Hsame]; [|congruence].
        destruct (proj1 (Hgone p)) as (rel & contents & destRel & rendered & Hin & Hname & -> & Hr & Hcur).
        { split; [by eexists|done]. }
        destruct Hin as [Heq|[Heq|[Heq|[Heq|[]]]]]; inversion Heq; subst;
          vm_compute in Hname; inversion Hname; subst;
          vm_compute in Hr; inversion Hr; subst;
          vm_compute in Hcur; try discriminate Hcur; try done. }
      split; [|split; [|split]].
      * apply (proj2 (Hgone "/app/app/world.js")).
        exists "app/__name__.js", "hello <%= name %>!", "app/world.js", "hello world!".
        split; [right; left; reflexivity|]. repeat split; vm_compute; reflexivity.
      * apply Hnot; [vm_compute; reflexivity|discriminate].
      * apply Hnot; [vm_compute; reflexivity|discriminate].
      * apply Hdirs; [|vm_compute; reflexivity].
        vm_compute. set_solver.
  - destruct (proj2 (destroy_deletes_exactly_unmodified
                       (list (string * string)) unit Sample.evalExpr Sample.runScript
                       Sample.path_join Sample.cwd Sample.dirnames
                       (Sample.walkOf Cases.brokenTree) (Sample.instance (Ok tt)) tt
                       Cases.brokenWorld [("name", "world"); ("title", "a<b")]
                       "/bp/greeter/files" Cases.brokenTree
                       eq_refl eq_refl eq_refl))
      as (w' & Hrun & Hfiles & _).
    + right. exists "b.txt", "<%= nope %>", "b.txt".
      split; [right; left; reflexivity|]. split; [vm_compute; reflexivity|].
      split; [vm_compute; reflexivity|]. right. vm_compute; reflexivity.
    + by exists w'.
  - destruct (proj2 (destroy_deletes_exactly_unmodified
                       (list (string * string)) unit Sample.evalExpr Sample.runScript
                       Sample.path_join Sample.cwd Sample.dirnames
                       (Sample.walkOf Cases.twoTree) (Sample.instance (Ok tt)) tt
                       Cases.dirWorld [("name", "world"); ("title", "a<b")]
                       "/bp/greeter/files" Cases.twoTree
                       eq_refl eq_refl eq_refl))
      as (w' & Hrun & Hfiles & Hdirs & _).
    + right. exists "b.txt", "y", "b.txt".
      split; [right; left; reflexivity|]. split; [vm_compute; reflexivity|].
      split; [vm_compute; reflexivity|]. left. vm_compute; reflexivity.
    + by exists w'.
Defined.

(** C2, as stated, at a blueprint whose second template does not render
    ([<%= nope %>], a name the locals do not hold) and at a project where
    a directory stands at the second destination: the first destination
    holds exactly what its template renders to, and it is still on disk
    after [destroy], which rejected in its third pass before any file was
    deleted. *)
Lemma destroy_keeps_unmodified_file_when_it_rejects :
  (files Cases.brokenWorld !! "/app/a.txt" = Some "x" /\
   Cases.render "x" = Some "x" /\
   snd (Sample.destroy Cases.brokenTree Cases.brokenWorld) = Throw engineError /\
   files (fst (Sample.destroy Cases.brokenTree Cases.brokenWorld)) !! "/app/a.txt" = Some "x") /\
  (files Cases.dirWorld !! "/app/a.txt" = Some "x" /\
   snd (Sample.destroy Cases.twoTree Cases.dirWorld) = Throw engineError /\
   files (fst (Sample.destroy Cases.twoTree Cases.dirWorld)) !! "/app/a.txt" = Some "x").
Proof. vm_compute. repeat split; reflexivity. Qed.

(** ** [destroy] writes nothing *)

Lemma onlyDeletes_ret {A} (a : A) : onlyDeletes (ret a).
Proof. intros w w' r. by inversion 1. Qed.

Lemma onlyDeletes_lift {A} (x : result A) : onlyDeletes (lift x).
Proof. intros w w' r. by inversion 1. Qed.

Lemma onlyDeletes_bind {A B} (m : M A) (k : A -> M B) :
  onlyDeletes m -> (forall a, onlyDeletes (k a)) -> onlyDeletes (bind m k).
Proof.
  intros Hm Hk w w' r. unfold bind. destruct (m w) as [w1 [a|e]] eqn:E.
  - intros H p c Hp. eapply Hm; [done|]. by eapply Hk.
  - inversion 1; subst. by eapply Hm.
Qed.

Lemma onlyDeletes_existsSync p : onlyDeletes (existsSync p).
Proof. intros w w' r. by inversion 1. Qed.

Lemma onlyDeletes_readFileSync p : onlyDeletes (readFileSync p).
Proof. intros w w' r. by inversion 1. Qed.

Lemma onlyDeletes_ui_info l p : onlyDeletes (ui_info l p).
Proof. intros w w' r. by inversion 1. Qed.

Lemma onlyDeletes_rimraf dirnames p : onlyDeletes (rimraf dirnames p).
Proof.
  intros w w' r. unfold rimraf. repeat case_bool_decide; inversion 1; subst; simpl.
  - intros q c Hq. destruct (decide (p = q)) as [->|Hne].
    + by rewrite lookup_delete_eq in Hq.
    + by rewrite lookup_delete_ne in Hq.
  - intros q c Hq. by apply map_lookup_filter_Some in Hq as [? _].
  - done.
Qed.

Lemma onlyDeletes_forEach {A} (l : list A) (f : A -> M unit) :
  (forall x, onlyDeletes (f x)) -> onlyDeletes (forEach l f).
Proof.
  intros Hf. induction l as [|x l IH]; simpl; [apply onlyDeletes_ret|].
  by apply onlyDeletes_bind.
Qed.

Lemma onlyDeletes_mmap {A B} (f : A -> M B) (l : list A) :
  (forall x, onlyDeletes (f x)) -> onlyDeletes (mmap f l).
Proof.
  intros Hf. induction l as [|x l IH]; simpl; [apply onlyDeletes_ret|].
  apply onlyDeletes_bind; [done|]. intros y.
  apply onlyDeletes_bind; [done|]. intros ys. apply onlyDeletes_ret.
Qed.

Lemma onlyDeletes_mfilter {A} (f : A -> M bool) (l : list A) :
  (forall x, onlyDeletes (f x)) -> onlyDeletes (mfilter f l).
Proof.
  intros Hf. induction l as [|x l IH]; simpl; [apply onlyDeletes_ret|].
  apply onlyDeletes_bind; [done|]. intros y.
  apply onlyDeletes_bind; [done|]. intros ys. apply onlyDeletes_ret.
Qed.

Create HintDb deletes.

#[local] Hint Resolve onlyDeletes_ret onlyDeletes_lift onlyDeletes_existsSync
  onlyDeletes_readFileSync onlyDeletes_rimraf onlyDeletes_ui_info onlyDeletes_bind
  onlyDeletes_forEach onlyDeletes_mmap onlyDeletes_mfilter : deletes.

#[local] Hint Extern 1 (onlyDeletes (if ?b then _ else _)) => destruct b : deletes.
#[local] Hint Extern 1 (onlyDeletes (match ?x with _ => _ end)) => destruct x : deletes.

Section DestroyWrites.

Context (Data Argv : Type).
Context (evalExpr : Data -> string -> option string).
Context (runScript : Data -> list Lodash.token -> option string).
Context (path_join : string -> string -> string) (cwd : string).
Context (dirnames : string -> list string).
Context (compiles : Lodash.interpolate -> string -> bool).
Context (walk : string -> option (list (string * tnode))).

Local Abbreviation destroy := (destroy Data Argv evalExpr runScript path_join cwd dirnames walk).
Local Abbreviation templateFiles := (templateFiles Data Argv path_join).

Lemma onlyDeletes_templateFiles bp : onlyDeletes (templateFiles bp).
Proof. intros w w' r H. by apply templateFiles_world in H as ->. Qed.

Lemma onlyDeletes_destroy bp argv : onlyDeletes (destroy bp argv).
Proof.
  pose proof (onlyDeletes_templateFiles bp).
  unfold destroy, filesToDelete, destroyTarget, destroyExists, destroyClean.
  eauto 30 with deletes.
Qed.

(** X11.  However [destroy] ends (its passes through or not, [postUninstall]
    resolved or not), it has created no file and changed none: a file on
    disk afterwards was there before, with the contents it has. *)
Theorem destroy_writes_no_file bp argv w w' r p c :
  destroy bp argv w = (w', r) ->
  files w' !! p = Some c ->
  files w !! p = Some c.
Proof. intros H. by apply (onlyDeletes_destroy bp argv w w' r). Qed.

End DestroyWrites.

(** ** More on discovery *)

Lemma mentions_colon a b : Lodash.mentions ":" (a ++ ":" ++ b) = true.
Proof.
  induction a as [|c a IH]; simpl.
  - by destruct b.
  - rewrite IH. apply orb_true_r.
Qed.

Section DiscoveryMore.

Context (path_join : string -> string -> string).
Context (readdirSync : string -> option (list dirent)).

Local Abbreviation captureDir := (captureDir path_join).
Local Abbreviation loadBlueprints := (loadBlueprints path_join).
Local Abbreviation discoverBlueprintsForAddon :=
  (discoverBlueprintsForAddon path_join readdirSync).
Local Abbreviation discoverAll := (discoverAll path_join readdirSync).

Lemma discoverAll_cons blueprints a addons w :
  discoverAll blueprints (a :: addons) w =
  match discoverBlueprintsForAddon blueprints (pkg_name a)
          (path_join (addon_dir a) "blueprints") w with
  | (w', Ok r) => discoverAll (fst r) addons w'
  | (w', Throw e) => (w', Throw e)
  end.
Proof. reflexivity. Qed.

(** X12.  An addon without a [blueprints] directory adds nothing: the loop of
    [findBlueprints] gives what it gives over the addons that have one. *)
Theorem findBlueprints_skips_addons_without_blueprints blueprints addons w :
  discoverAll blueprints addons w =
  discoverAll blueprints
    (List.filter
       (fun a => match readdirSync (path_join (addon_dir a) "blueprints") with
                 | Some _ => true
                 | None => false
                 end) addons) w.
Proof.
  revert blueprints w. induction addons as [|a addons IH]; intros blueprints w; [done|].
  cbn [List.filter].
  destruct (readdirSync (path_join (addon_dir a) "blueprints")) as [entries|] eqn:Hdir.
  - rewrite !discoverAll_cons.
    destruct (discoverBlueprintsForAddon _ _ _ w) as [w' [r|e]]; [apply IH|done].
  - rewrite discoverAll_cons. unfold discoverBlueprintsForAddon. rewrite Hdir.
    apply IH.
Qed.

Lemma reduce_loadBlueprint_throws addonName l acc w d :
  In d l -> d_module d = None ->
  exists w', reduce (loadBlueprint addonName) l acc w = (w', Throw engineError).
Proof.
  revert acc w. induction l as [|x l IH]; intros acc w; [done|].
  intros Hin Hd. cbn [reduce]. unfold bind.
  destruct (d_module x) as [m|] eqn:Hx.
  - destruct Hin as [->|Hin]; [congruence|].
    unfold loadBlueprint at 1. rewrite Hx. unfold bind, update_obj, read_obj, ret.
    by apply IH.
  - unfold loadBlueprint at 1. rewrite Hx. by eexists.
Qed.

(** X13.  A directory of the addon that cannot be required makes the whole call
    throw, at the write of [addon] to [undefined]: nothing of the addon is
    registered. *)
Theorem discovery_throws_on_unloadable_blueprint
    blueprintsSoFar addonName dir entries w d :
  readdirSync dir = Some entries ->
  In d entries ->
  d_isDirectory d = true ->
  d_module d = None ->
  exists w',
    discoverBlueprintsForAddon blueprintsSoFar addonName dir w = (w', Throw engineError).
Proof.
  intros Hdir Hin Hisdir Hd. unfold discoverBlueprintsForAddon. rewrite Hdir.
  unfold bind at 1. unfold loadBlueprints. unfold bind at 1.
  destruct (reduce_loadBlueprint_throws addonName (List.filter d_isDirectory entries) [] w d)
    as [w' ->]; [by apply filter_In|done|]. by exists w'.
Qed.

Lemma fold_moveClobbered_other h colliding current k :
  Lodash.mentions ":" k = false ->
  obj_get (fold_left (moveClobbered h) colliding current) k = obj_get current k.
Proof.
  intros Hk. revert current. induction colliding as [|j colliding IH]; intros current; [done|].
  cbn [fold_left]. rewrite IH. unfold moveClobbered.
  destruct (obj_get current j) as [c|]; [|done].
  apply obj_get_set_ne. intros <-. unfold namespaced in Hk.
  by rewrite mentions_colon in Hk.
Qed.

(** X14.  A name without a colon that this call does not find keeps what it was
    bound to: the moves of clobbered blueprints go to keys with a colon,
    and [assign] writes the names found. *)
Theorem discovery_keeps_other_names
    blueprintsSoFar addonName dir entries w w' Blueprints k :
  readdirSync dir = Some entries ->
  loadBlueprints addonName dir entries w = (w', Ok Blueprints) ->
  has_key Blueprints k = false ->
  Lodash.mentions ":" k = false ->
  exists all,
    discoverBlueprintsForAddon blueprintsSoFar addonName dir w = (w', Ok (all, all)) /\
    obj_get all k = obj_get blueprintsSoFar k.
Proof.
  intros Hdir Hload Hnew Hk.
  pose proof (loadBlueprints_spec path_join readdirSync _ _ _ _ _ _ Hload) as (_ & Hnd & _ & _).
  exists (register (heap w') blueprintsSoFar Blueprints). split.
  - unfold discoverBlueprintsForAddon. rewrite Hdir. unfold bind. by rewrite Hload.
  - rewrite obj_get_register by done. unfold has_key in Hnew.
    destruct (obj_get Blueprints k); [done|]. by apply fold_moveClobbered_other.
Qed.

(** *** What discovery writes to the objects *)

Lemma loadBlueprint_heap addonName acc d w w' acc' :
  loadBlueprint addonName acc d w = (w', Ok acc') ->
  exists m, d_module d = Some m /\
            heap w' = <[m := set_addon addonName (heap_get (heap w) m)]> (heap w).
Proof.
  unfold loadBlueprint. destruct (d_module d) as [m|]; [|done].
  unfold bind, update_obj, read_obj, ret. inversion 1; subst. by exists m.
Qed.

Lemma reduce_loadBlueprint_addon addonName l acc w w' Blueprints :
  reduce (loadBlueprint addonName) l acc w = (w', Ok Blueprints) ->
  (forall x, addon (heap_get (heap w) x) = Some addonName ->
             addon (heap_get (heap w') x) = Some addonName) /\
  (forall d m, In d l -> d_module d = Some m ->
               addon (heap_get (heap w') m) = Some addonName).
Proof.
  revert acc w. induction l as [|d l IH]; intros acc w; cbn [reduce].
  - inversion 1; subst. by split.
  - unfold bind. destruct (loadBlueprint addonName acc d w) as [w1 [acc1|e]] eqn:Hd; [|done].
    intros [Hkeep Hset]%IH. apply loadBlueprint_heap in Hd as (m & Hm & Hh).
    assert (Hstep : forall x, x = m \/ addon (heap_get (heap w) x) = Some addonName ->
                              addon (heap_get (heap w1) x) = Some addonName).
    { intros x Hx. rewrite Hh, heap_get_insert.
      destruct (decide (m = x)) as [<-|Hne]; [done|]. by destruct Hx as [->|]. }
    split.
    + intros x Hx. apply Hkeep, Hstep. by right.
    + intros d' m' [<-|Hin] Hm'; [|by eapply Hset].
      apply Hkeep, Hstep. left. congruence.
Qed.

Lemma forEach_captureDir_heap base Blueprints w w' :
  forEach Blueprints (captureDir base) w = (w', Ok tt) ->
  (forall x, addon (heap_get (heap w') x) = addon (heap_get (heap w) x)) /\
  (forall x, ~ In x (map snd Blueprints) ->
             dir (heap_get (heap w') x) = dir (heap_get (heap w) x)) /\
  (forall dn c, In (dn, c) Blueprints ->
     exists dn', In (dn', c) Blueprints /\
                 dir (heap_get (heap w') c) = Some (path_join base dn')).
Proof.
  revert w. induction Blueprints as [|[dn0 c0] Blueprints IH]; intros w; cbn [forEach].
  - inversion 1; subst. by repeat split.
  - unfold bind, captureDir at 1, update_obj. cbn [fst snd].
    intros (Haddon & Hother & Hdir)%IH. cbn [heap set_heap] in *.
    split; [|split].
    + intros x. rewrite Haddon, heap_get_insert. by destruct (decide (c0 = x)) as [->|].
    + intros x Hx. apply not_in_cons in Hx as [Hne Hx]. rewrite Hother by done.
      rewrite heap_get_insert. by destruct (decide (c0 = x)) as [->|].
    + intros dn c Hin.
      destruct (in_dec Nat.eq_dec c (map snd Blueprints)) as [Hc|Hc].
      * apply in_map_iff in Hc as ([dn1 c1] & Heq & Hin1). cbn [snd] in Heq. subst c1.
        destruct (Hdir dn1 c Hin1) as (dn' & ? & ?). exists dn'. split; [by right|done].
      * destruct Hin as [[= -> ->]|Hin].
        -- exists dn. split; [by left|]. rewrite Hother by done.
           by rewrite heap_get_insert, decide_True.
        -- exfalso. apply Hc. apply in_map_iff. by exists (dn, c).
Qed.

(** X15.  Once the directories of an addon are loaded, every object [tryRequire]
    returned carries the addon's name in [addon], and every class the call
    registers carries in [dir] the path of a directory that exports it. *)
Theorem discovery_assigns_dir_and_addon
    addonName blueprintsDir entries w w' Blueprints :
  loadBlueprints addonName blueprintsDir entries w = (w', Ok Blueprints) ->
  (forall d m, In d entries -> d_isDirectory d = true -> d_module d = Some m ->
     addon (heap_get (heap w') m) = Some addonName) /\
  (forall k c, obj_get Blueprints k = Some c ->
     exists d, In d entries /\ d_isDirectory d = true /\
               exported (heap w') d = Some c /\
               dir (heap_get (heap w') c) = Some (path_join blueprintsDir (d_name d))).
Proof.
  unfold loadBlueprints. unfold bind at 1.
  destruct (reduce _ _ [] w) as [w1 [B0|e]] eqn:Hred; [|done].
  pose proof (reduce_loadBlueprint_addon _ _ _ _ _ _ Hred) as [_ Hset].
  apply (reduce_loadBlueprint_spec path_join readdirSync) in Hred as (Hs1 & Hsound & _).
  unfold bind.
  destruct (forEach B0 (captureDir blueprintsDir) w1) as [w2 [[]|e]] eqn:Hcap;
    [|by destruct (forEach_captureDir_spec path_join blueprintsDir B0 w1) as (? & ? & _);
         congruence].
  destruct (forEach_captureDir_spec path_join blueprintsDir B0 w1) as (w2' & Hcap' & Hs2).
  assert (w2' = w2) as -> by congruence.
  apply forEach_captureDir_heap in Hcap as (Haddon & _ & Hdir).
  inversion 1; subst. split.
  - intros d m Hin Hisdir Hm. rewrite Haddon. apply (Hset d m); [|done].
    by apply filter_In.
  - intros k c [Hk|(dn & Hin & ->)]%mapKeys_sound; [done|].
    destruct (Hdir dn c Hin) as (dn' & Hin' & Hd).
    destruct (Hsound dn' c Hin') as [[]|(d & [Hd1 Hd2]%filter_In & <- & He)].
    exists d. repeat split; try done.
    rewrite (exported_sameExports _ _ _ Hs2), (exported_sameExports _ _ _ Hs1). done.
Qed.

End DiscoveryMore.

(** ** More on the routes file *)

(** *** Paths *)

Lemma at_path_app p q a :
  at_path (p ++ q) a =
  match at_path p a with
  | Some b => at_path q b
  | None => None
  end.
Proof.
  revert a. induction p as [|i p IH]; intros a; [done|].
  cbn [app at_path]. destruct a as [fields|items|v]; [| |done].
  - destruct (fields !! i) as [kc|]; [apply IH|done].
  - destruct (items !! i) as [c|]; [apply IH|done].
Qed.

Lemma ast_nested_ind (P : ast -> Prop) :
  (forall fields, Forall (fun kx => P (snd kx)) fields -> P (ANode fields)) ->
  (forall items, Forall P items -> P (AList items)) ->
  (forall v, P (AVal v)) ->
  forall a, P a.
Proof.
  intros HN HL HV. fix IH 1. intros [fields|items|v].
  - apply HN. induction fields as [|kx fields IHf]; constructor; [apply IH|apply IHf].
  - apply HL. induction items as [|x items IHi]; constructor; [apply IH|apply IHi].
  - apply HV.
Qed.

(** The walk over the elements of an array, or over the properties of an
    object ([proj] takes the value of an entry). *)
Lemma subtrees_go_at_path {T} (proj : T -> ast) (l : list T) :
  Forall (fun t => forall p x, In (p, x) (subtrees (proj t)) -> at_path p (proj t) = Some x) l ->
  forall i p x,
    In (p, x)
      ((fix go (i : nat) (l : list T) : list (list nat * ast) :=
          match l with
          | [] => []
          | t :: l' =>
              ([i], proj t) :: map (fun pa => (i :: fst pa, snd pa)) (subtrees (proj t))
                ++ go (S i) l'
          end) i l) ->
    exists n t rest, p = (i + n) :: rest /\ l !! n = Some t /\ at_path rest (proj t) = Some x.
Proof.
  induction 1 as [|t l Ht _ IH]; intros i p x; [done|].
  intros [[= <- <-]|[Hin|Hin]%in_app_or].
  - exists 0, t, []. by rewrite Nat.add_0_r.
  - apply in_map_iff in Hin as ([q y] & [= <- <-] & Hin).
    exists 0, t, q. rewrite Nat.add_0_r. eauto.
  - apply IH in Hin as (n & t' & rest & -> & Hn & Hat).
    exists (S n), t', rest. by rewrite Nat.add_succ_r.
Qed.

(** A path [subtrees] hands out leads to the node it comes with. *)
Lemma subtrees_at_path a p x :
  In (p, x) (subtrees a) -> at_path p a = Some x.
Proof.
  revert p x. induction a as [fields IH|items IH|v] using ast_nested_ind; intros p x Hin.
  - apply (subtrees_go_at_path snd fields IH 0) in Hin as (n & t & rest & -> & Hn & Hat).
    cbn [at_path]. by rewrite Nat.add_0_l, Hn.
  - apply (subtrees_go_at_path (fun c => c) items IH 0) in Hin as (n & t & rest & -> & Hn & Hat).
    cbn [at_path]. by rewrite Nat.add_0_l, Hn.
  - done.
Qed.

Lemma field_at_index fields k a i :
  field fields k = Some a -> field_index fields k = Some i ->
  exists k', fields !! i = Some (k', a).
Proof.
  revert i. induction fields as [|[k0 a0] fields IH]; intros i; [done|].
  cbn [field field_index]. destruct (String.eqb k0 k).
  - intros [= ->] [= <-]. by exists k0.
  - intros Hf Hi. destruct (field_index fields k) as [j|]; [|done].
    injection Hi as <-. by apply IH.
Qed.

Lemma find_all_subtrees ty root p x :
  In (p, x) (find_all ty root) -> In (p, x) (subtrees root).
Proof. unfold find_all. by intros [? _]%filter_In. Qed.

Lemma find_subtrees ty filter root p x :
  In (p, x) (find ty filter root) ->
  In (p, x) (subtrees root) /\ has_type ty x = true /\ matchNode x filter = true.
Proof.
  unfold find. intros [? [? ?]%andb_prop]%filter_In. done.
Qed.

(** The body [drawRoutesFunction] returns sits in the tree at the path it
    returns. *)
Lemma drawRoutesFunction_body root f :
  drawRoutesFunction root = Ok f ->
  at_path (bodyPath f) root = Some (drawRoutesFunctionBody f).
Proof.
  unfold drawRoutesFunction.
  destruct (find_all _ root) as [|[p [efields| |]] rest] eqn:Hfind; try done.
  assert (Hp : at_path p root = Some (ANode efields)).
  { apply subtrees_at_path, (find_all_subtrees "ExportDefaultDeclaration").
    rewrite Hfind. by left. }
  destruct (field efields "declaration") as [[dfields| |]|] eqn:Hd; try done.
  destruct (field_index efields "declaration") as [di|] eqn:Hdi; [|done].
  destruct (field dfields "params") as [[|[|[pfields| |] ?]|]|]; try done.
  destruct (field dfields "body") as [body|] eqn:Hb; [|done].
  destruct (field_index dfields "body") as [bi|] eqn:Hbi; [|done].
  intros [= <-]. cbn [bodyPath drawRoutesFunctionBody].
  destruct (field_at_index _ _ _ _ Hd Hdi) as [k1 H1].
  destruct (field_at_index _ _ _ _ Hb Hbi) as [k2 H2].
  rewrite at_path_app, Hp. cbn [at_path]. rewrite H1. cbn [snd]. by rewrite H2.
Qed.

(** [insertAfter] puts the new node at the next position of the array and
    leaves the node it was called on where it was. *)
Lemma insertAfter_at_path p new a a' :
  insertAfter p new a = Some a' ->
  at_path (next_sibling p) a' = Some new /\ at_path p a' = at_path p a.
Proof.
  revert a a'. induction p as [|i p IH]; intros a a'; [done|].
  destruct p as [|j p].
  - cbn [insertAfter]. destruct a as [|items|]; try done.
    destruct (Nat.ltb_spec i (List.length items)) as [Hlt|]; [|done].
    intros [= <-]. cbn [next_sibling at_path].
    assert (Hlen : List.length (take (S i) items) = S i).
    { rewrite length_take. lia. }
    split.
    + rewrite lookup_app_r by lia. by rewrite Hlen, Nat.sub_diag.
    + rewrite lookup_app_l by lia. rewrite lookup_take_lt by lia. done.
  - change (insertAfter (i :: j :: p) new a) with
      (match a with
       | AList items =>
           match items !! i with
           | Some c =>
               match insertAfter (j :: p) new c with
               | Some c' => Some (AList (<[i := c']> items))
               | None => None
               end
           | None => None
           end
       | ANode fields =>
           match fields !! i with
           | Some (k, c) =>
               match insertAfter (j :: p) new c with
               | Some c' => Some (ANode (<[i := (k, c')]> fields))
               | None => None
               end
           | None => None
           end
       | AVal _ => None
       end).
    change (next_sibling (i :: j :: p)) with (i :: next_sibling (j :: p)).
    destruct a as [fields|items|]; [| |done].
    + destruct (fields !! i) as [[k c]|] eqn:Hi; [|done].
      destruct (insertAfter (j :: p) new c) as [c'|] eqn:Hins; [|done].
      intros [= <-]. apply IH in Hins as [Hnew Hold].
      cbn [at_path]. rewrite Hi.
      rewrite list_lookup_insert_eq by (by eapply lookup_lt_Some). done.
    + destruct (items !! i) as [c|] eqn:Hi; [|done].
      destruct (insertAfter (j :: p) new c) as [c'|] eqn:Hins; [|done].
      intros [= <-]. apply IH in Hins as [Hnew Hold].
      cbn [at_path]. rewrite Hi.
      rewrite list_lookup_insert_eq by (by eapply lookup_lt_Some). done.
Qed.

(** *** Where [addRoute] puts the new route *)

(** X16.  When the body holds a call on the router, the statement [addRoute]
    builds stands, in the tree it prints, right after the last such call
    in traversal order, and that call is where it was. *)
Theorem addRoute_inserts_after_last_invocation
    method urlPattern actionPath args root f p stmt root' :
  drawRoutesFunction root = Ok f ->
  last (find "ExpressionStatement" (routerFilter (routerArgName f))
          (drawRoutesFunctionBody f)) = Some (p, stmt) ->
  addRouteAst method urlPattern actionPath args root = Ok (Some root') ->
  at_path (bodyPath f ++ p) root = Some stmt /\
  at_path (bodyPath f ++ p) root' = Some stmt /\
  exists object property routerArguments,
    identifier (routerArgName f) = Ok object /\
    identifier (VStr method) = Ok property /\
    mapResult stringLiteral args = Ok routerArguments /\
    at_path (next_sibling (bodyPath f ++ p)) root' =
      Some (expressionStatement
              (callExpression (memberExpression object property) routerArguments)).
Proof.
  intros Hf Hlast. unfold addRouteAst. rewrite Hf.
  destruct (Nat.ltb 0 _); [done|]. rewrite Hlast.
  assert (Hstmt : at_path (bodyPath f ++ p) root = Some stmt).
  { rewrite at_path_app, (drawRoutesFunction_body _ _ Hf).
    apply subtrees_at_path.
    apply last_Some in Hlast as [l' Hl'].
    eapply (find_subtrees "ExpressionStatement"). rewrite Hl'.
    apply in_or_app. right. by left. }
  destruct (identifier (routerArgName f)) as [object|] eqn:Ho; [|done].
  destruct (identifier (VStr method)) as [property|] eqn:Hp; [|done].
  destruct (mapResult stringLiteral args) as [routerArguments|]; [|done].
  destruct (insertAfter _ _ root) as [r|] eqn:Hins; [|done].
  intros [= <-]. apply insertAfter_at_path in Hins as [Hnew Hold].
  split; [done|]. split; [congruence|]. by exists object, property, routerArguments.
Qed.

(** *** Statements no filter of [addRoute] can tell apart *)

(** A statement the duplicate filter matches is a call on the router: the
    second filter matches it as well. *)
Lemma routeFilter_routerFilter router method urlPattern actionPath args stmt :
  matchNode stmt (routeFilter router method urlPattern actionPath args) = true ->
  matchNode stmt (routerFilter router) = true.
Proof.
  unfold routeFilter, routerFilter.
  destruct stmt as [sfields| |]; [|done|done].
  cbn [matchNode forallb fst snd]. rewrite !andb_true_r.
  destruct (field sfields "expression") as [[efields| |]|]; try done.
  cbn [matchNode forallb fst snd]. rewrite !andb_true_r.
  destruct (field efields "callee") as [[cfields| |]|]; try done.
  cbn [matchNode forallb fst snd]. rewrite !andb_true_r.
  destruct (field cfields "object") as [o|]; [|done].
  by intros [[Ho _]%andb_prop _]%andb_prop.
Qed.

Lemma filter_nil_impl {A} (f g : A -> bool) l :
  (forall x, f x = true -> g x = true) ->
  List.filter g l = [] -> List.filter f l = [].
Proof.
  intros Himpl. induction l as [|x l IH]; [done|]. cbn [List.filter].
  destruct (f x) eqn:Hfx.
  - by rewrite (Himpl x Hfx).
  - destruct (g x); [done|]. exact IH.
Qed.

Lemma find_routeFilter_nil router method urlPattern actionPath args body :
  find "ExpressionStatement" (routerFilter router) body = [] ->
  find "ExpressionStatement" (routeFilter router method urlPattern actionPath args) body = [].
Proof.
  unfold find. apply filter_nil_impl. intros [p x]. cbn [snd].
  intros [-> Hm]%andb_prop. by rewrite (routeFilter_routerFilter _ _ _ _ _ _ Hm).
Qed.

Lemma matchNode_literals_prefix items more vals :
  Forall2 literalOf items vals ->
  matchNode (AList (items ++ more))
    (AList (map (fun arg => ANode [("value", AVal arg)]) vals)) = true.
Proof.
  induction 1 as [|item v items vals (fields & -> & Hv) _ IH]; [done|].
  cbn [map app]. rewrite matchNode_cons, IH, andb_true_r.
  cbn. rewrite Hv. cbn. by rewrite bool_decide_eq_true_2.
Qed.

Lemma routeFilter_matches_from router method urlPattern actionPath args stmt :
  routerInvocationFrom router method (VStr urlPattern :: option_jsval actionPath :: args) stmt ->
  has_type "ExpressionStatement" stmt = true /\
  matchNode stmt (routeFilter router method urlPattern actionPath args) = true.
Proof.
  intros (sf & ef & cf & ob & pf & items & more & -> & Hty & He & Hc & Ho & Hon & Hp & Hpn
          & Ha & Hargs).
  split; [unfold has_type; by rewrite Hty|].
  pose proof (matchNode_literals_prefix _ more _ Hargs) as Hlits.
  unfold routeFilter. cbn [matchNode forallb fst snd].
  rewrite He. cbn [matchNode forallb fst snd]. rewrite Hc, Ha.
  cbn [matchNode forallb fst snd]. rewrite Ho, Hp.
  cbn [matchNode forallb fst snd]. rewrite Hon, Hpn.
  cbn [matchNode forallb fst snd]. rewrite !bool_decide_eq_true_2 by done.
  cbn [andb]. rewrite !andb_true_r. exact Hlits.
Qed.

Lemma mapResult_stringLiteral args :
  forallb isString args = true -> exists nodes, mapResult stringLiteral args = Ok nodes.
Proof.
  induction args as [|v args IH]; [by exists []|].
  cbn [forallb]. intros [Hv [nodes Hn]%IH]%andb_prop.
  destruct v; try done. cbn [mapResult stringLiteral]. rewrite Hn. by eexists.
Qed.

Section RouteMore.

Context (path_join : string -> string -> string) (cwd : string).
Context (parse : string -> result ast).
Context (toSource : bool -> ast -> string).
Context (remove : list (list nat) -> ast -> ast).

Local Abbreviation routesFilepath := (routesFilepath path_join cwd).
Local Abbreviation addRoute := (addRoute path_join cwd parse toSource).
Local Abbreviation removeRoute := (removeRoute path_join cwd parse toSource remove).

(** X17.  A call on the router's [method] that starts with the arguments asked
    for and goes on with more of them counts as the route: [addRoute]
    returns without a write. *)
Theorem addRoute_longer_call_is_duplicate
    method urlPattern actionPath args w source root f p duplicate :
  files w !! routesFilepath = Some source ->
  parse source = Ok root ->
  drawRoutesFunction root = Ok f ->
  In (p, duplicate) (subtrees (drawRoutesFunctionBody f)) ->
  routerInvocationFrom (routerArgName f) method
    (VStr urlPattern :: option_jsval actionPath :: args) duplicate ->
  addRoute method urlPattern actionPath args w = (w, Ok tt).
Proof.
  intros Hfile Hparse Hf Hin Hdup.
  apply routeFilter_matches_from in Hdup as [Hty Hmatch].
  unfold addRoute, bind, readFileSync, lift. rewrite Hfile. simpl. rewrite Hparse.
  unfold addRouteAst. rewrite Hf.
  assert (Hfound : In (p, duplicate)
            (find "ExpressionStatement"
               (routeFilter (routerArgName f) method urlPattern actionPath args)
               (drawRoutesFunctionBody f))).
  { unfold find. apply filter_In. split; [done|]. cbv beta. cbn [snd].
    by rewrite Hty, Hmatch. }
  destruct (find _ _ _) as [|x l]; [done|]. reflexivity.
Qed.

(** X18.  In a routes file whose function makes no call on its router yet,
    [addRoute] inserts nothing: it prints the tree as it was parsed, with
    single quotes, over the file. *)
Theorem addRoute_without_invocations_adds_nothing
    method urlPattern actionPath args w source root f router :
  files w !! routesFilepath = Some source ->
  parse source = Ok root ->
  drawRoutesFunction root = Ok f ->
  routerArgName f = VStr router ->
  forallb isString args = true ->
  find "ExpressionStatement" (routerFilter (routerArgName f)) (drawRoutesFunctionBody f) = [] ->
  addRoute method urlPattern actionPath args w =
    (set_files (<[routesFilepath := toSource true root]> (files w)) w, Ok tt).
Proof.
  intros Hfile Hparse Hf Hrouter [nodes Hargs]%mapResult_stringLiteral Hnone.
  unfold addRoute, bind, readFileSync, lift. rewrite Hfile. simpl. rewrite Hparse.
  unfold addRouteAst. rewrite Hf.
  rewrite (find_routeFilter_nil _ method urlPattern actionPath args _ Hnone), Hnone.
  rewrite Hrouter, Hargs. cbn. unfold writeFileSync. rewrite Hfile.
  by rewrite bool_decide_eq_true_2 by (by eexists).
Qed.

(** X19.  [addRoute] and [removeRoute] touch nothing but [config/routes.js], and
    a call that throws has written nothing. *)
Theorem routes_methods_touch_only_routes_file method urlPattern actionPath args :
  touchesOnly routesFilepath (addRoute method urlPattern actionPath args) /\
  touchesOnly routesFilepath (removeRoute method urlPattern actionPath args).
Proof.
  assert (Hwrite : forall w source c,
            files w !! routesFilepath = Some source ->
            writeFileSync routesFilepath c w =
              (set_files (<[routesFilepath := c]> (files w)) w, Ok tt)).
  { intros w source c Hfile. unfold writeFileSync.
    by rewrite bool_decide_eq_true_2 by (by eexists). }
  split; intros w w' r.
  - unfold addRoute, bind, readFileSync, lift, ret.
    destruct (files w !! routesFilepath) as [source|] eqn:Hfile; [|by inversion 1; subst].
    cbn [of_option]. destruct (parse source) as [root|]; [|by inversion 1; subst].
    destruct (addRouteAst _ _ _ _ root) as [[root'|]|]; [|by inversion 1; subst..].
    rewrite (Hwrite w source _ Hfile). inversion 1; subst.
    repeat split; try done. intros p Hp. cbn. by rewrite lookup_insert_ne.
  - unfold removeRoute, bind, readFileSync, lift, ret.
    destruct (files w !! routesFilepath) as [source|] eqn:Hfile; [|by inversion 1; subst].
    cbn [of_option]. destruct (parse source) as [root|]; [|by inversion 1; subst].
    destruct (drawRoutesFunction root) as [f|]; [|by inversion 1; subst].
    rewrite (Hwrite w source _ Hfile). inversion 1; subst.
    repeat split; try done. intros p Hp. cbn. by rewrite lookup_insert_ne.
Qed.

End RouteMore.

(** ** [run], and what discovery and configuration leave alone *)

Section RunFacts.

Context (Data Argv : Type).
Context (evalExpr : Data -> string -> option string).
Context (runScript : Data -> list Lodash.token -> option string).
Context (path_join : string -> string -> string) (cwd : string).
Context (dirnames : string -> list string).
Context (compiles : Lodash.interpolate -> string -> bool).
Context (walk : string -> option (list (string * tnode))).

Local Abbreviation generateFile := (generateFile Data evalExpr runScript path_join dirnames compiles).
Local Abbreviation generate := (generate Data Argv evalExpr runScript path_join cwd dirnames compiles walk).
Local Abbreviation destroy := (destroy Data Argv evalExpr runScript path_join cwd dirnames walk).
Local Abbreviation run := (run Data Argv evalExpr runScript path_join cwd dirnames compiles walk).
Local Abbreviation templateFiles := (templateFiles Data Argv path_join).



End RunFacts.

(** ** The further properties, at sample inputs *)

Lemma destroy_reverses_generate_without_es_witness :
  files (fst (Sample.destroy Sample.plainTree
                (fst (Sample.generate Sample.plainTree (Ok tt) Sample.classWorld))))
    !! "/app/app/world.js" = None.
Proof.
  refine (destroy_reverses_generate_without_es (list (string * string)) unit
            Sample.evalExpr Sample.runScript Sample.path_join Sample.cwd Sample.dirnames Sample.compiles
            (Sample.walkOf Sample.plainTree) (Sample.instance (Ok tt)) tt
            Sample.classWorld
            (fst (Sample.generate Sample.plainTree (Ok tt) Sample.classWorld))
            (snd (Sample.generate Sample.plainTree (Ok tt) Sample.classWorld))
            (fst (filesToDelete (list (string * string)) unit
                    Sample.evalExpr Sample.runScript Sample.path_join Sample.cwd
                    (Sample.walkOf Sample.plainTree) (Sample.instance (Ok tt))
                    [("name", "world"); ("title", "a<b")]
                    (fst (Sample.generate Sample.plainTree (Ok tt) Sample.classWorld))))
            ["/app/app/world.js"]
            (fst (Sample.destroy Sample.plainTree
                    (fst (Sample.generate Sample.plainTree (Ok tt) Sample.classWorld))))
            (snd (Sample.destroy Sample.plainTree
                    (fst (Sample.generate Sample.plainTree (Ok tt) Sample.classWorld))))
            [("name", "world"); ("title", "a<b")] "/bp/greeter/files" Sample.plainTree
            _ _ _ _ _ _ _ "/app/app/world.js" "hello world!" _ _).
  - reflexivity.
  - vm_compute; reflexivity.
  - reflexivity.
  - intros rel contents [[= <- <-]|[[= <- <-]|[]]]. split; vm_compute; reflexivity.
  - vm_compute; reflexivity.
  - vm_compute; reflexivity.
  - vm_compute; reflexivity.
  - vm_compute; reflexivity.
  - vm_compute; reflexivity.
Defined.

Lemma generate_logs_rejected_postInstall_witness :
  Sample.generate Sample.plainTree (Throw (VError (Some "Error: no network")))
    Sample.classWorld =
  (add_log (Error (VStr "Error: no network"))
     (add_log (Error (VStr "postInstall failed:"))
        (fst (Sample.generate Sample.plainTree (Ok tt) Sample.classWorld))),
   Ok tt).
Proof.
  destruct (generate_logs_rejected_postInstall (list (string * string)) unit
              Sample.evalExpr Sample.runScript Sample.path_join Sample.cwd
              Sample.dirnames Sample.compiles
              (Sample.walkOf Sample.plainTree)
              (Sample.instance (Throw (VError (Some "Error: no network")))) tt
              Sample.classWorld
              [("name", "world"); ("title", "a<b")] "/bp/greeter/files" Sample.plainTree
              (fst (Sample.generate Sample.plainTree (Ok tt) Sample.classWorld))
              (VError (Some "Error: no network")))
    as (stack & Hstack & Hgen).
  - reflexivity.
  - vm_compute; reflexivity.
  - reflexivity.
  - vm_compute; reflexivity.
  - reflexivity.
  - discriminate.
  - discriminate.
  - injection Hstack as <-. exact Hgen.
Defined.

Lemma configureBlueprints_resolves_witness :
  exists w' yargs',
    configureBlueprints (list string) Cases.classConfigure
      [("broken", 0); ("cart", 11)] [] Sample.sampleContext Sample.emptyWorld
    = (w', Ok yargs') /\
    heap w' = heap Sample.emptyWorld /\
    files w' = files Sample.emptyWorld /\
    yargs' = ["cart"].
Proof.
  apply (configureBlueprints_resolves (list string) Cases.classConfigure
           [("broken", 0); ("cart", 11)] Sample.sampleContext [] Sample.emptyWorld).
  intros [|c] y ctx e; [|discriminate]. intros [= <-]. split; discriminate.
Defined.

Lemma generate_again_changes_no_file_witness :
  exists w2,
    Sample.generate Sample.plainTree (Ok tt)
      (fst (Sample.generate Sample.plainTree (Ok tt) Sample.classWorld)) = (w2, Ok tt) /\
    files w2 = files (fst (Sample.generate Sample.plainTree (Ok tt) Sample.classWorld)).
Proof.
  apply (generate_again_changes_no_file (list (string * string)) unit
           Sample.evalExpr Sample.runScript Sample.path_join Sample.cwd Sample.dirnames Sample.compiles
           (Sample.walkOf Sample.plainTree) (Sample.instance (Ok tt)) tt
           Sample.classWorld
           (fst (Sample.generate Sample.plainTree (Ok tt) Sample.classWorld))).
  vm_compute; reflexivity.
Defined.

Lemma generate_copies_templates_without_markers_witness :
  exists rel,
    In (rel, TemplateFile "export default 1;") Cases.copyTree /\
    "/app/app/index.js" = Sample.path_join Sample.cwd rel.
Proof.
  apply (generate_copies_templates_without_markers (list (string * string)) unit
           Sample.evalExpr Sample.runScript Sample.path_join Sample.cwd Sample.dirnames Sample.compiles
           (Sample.walkOf Cases.copyTree) (Sample.instance (Ok tt)) tt
           Sample.classWorld
           (fst (Sample.generate Cases.copyTree (Ok tt) Sample.classWorld))
           (snd (Sample.generate Cases.copyTree (Ok tt) Sample.classWorld))
           [("name", "world"); ("title", "a<b")] "/bp/greeter/files" Cases.copyTree).
  - reflexivity.
  - vm_compute; reflexivity.
  - reflexivity.
  - intros rel contents [[= <- <-]|[[= <- <-]|[]]]. repeat split; vm_compute; reflexivity.
  - vm_compute; reflexivity.
  - vm_compute; reflexivity.
  - vm_compute; reflexivity.
Defined.

Lemma generate_reports_each_template_file_witness :
  exists lines,
    log (fst (Sample.generate Sample.plainTree (Ok tt) Sample.busyWorld)) =
      (log Sample.busyWorld ++ lines)%list /\
    Forall2 (fun entry line =>
               exists destRel,
                 template (list (string * string)) Sample.evalExpr Sample.runScript
                   Lodash.NameLiteral (fst entry)
                   [("name", "world"); ("title", "a<b")] = Some destRel /\
                 (line = Info "create" destRel \/ line = Info "already exists" destRel))
      (List.filter isTemplateFile Sample.plainTree) lines.
Proof.
  apply (generate_reports_each_template_file (list (string * string)) unit
           Sample.evalExpr Sample.runScript Sample.path_join Sample.cwd Sample.dirnames Sample.compiles
           (Sample.walkOf Sample.plainTree) (Sample.instance (Ok tt)) tt
           Sample.busyWorld
           (fst (Sample.generate Sample.plainTree (Ok tt) Sample.busyWorld))
           [("name", "world"); ("title", "a<b")] "/bp/greeter/files" Sample.plainTree).
  - reflexivity.
  - vm_compute; reflexivity.
  - reflexivity.
  - reflexivity.
  - vm_compute; reflexivity.
Defined.

Lemma generate_and_destroy_need_dir_witness :
  Sample.generate Sample.plainTree (Ok tt) Sample.discoveryWorld =
    (Sample.discoveryWorld, Throw engineError) /\
  Sample.destroy Sample.plainTree Sample.discoveryWorld =
    (Sample.discoveryWorld, Throw engineError).
Proof.
  apply (generate_and_destroy_need_dir (list (string * string)) unit
           Sample.evalExpr Sample.runScript Sample.path_join Sample.cwd Sample.dirnames Sample.compiles
           (Sample.walkOf Sample.plainTree) (Sample.instance (Ok tt)) tt
           Sample.discoveryWorld [("name", "world"); ("title", "a<b")]).
  - reflexivity.
  - vm_compute; reflexivity.
Defined.

Lemma destroy_again_deletes_nothing_witness :
  exists wb w2,
    filesToDelete (list (string * string)) unit
      Sample.evalExpr Sample.runScript Sample.path_join Sample.cwd
      (Sample.walkOf Sample.plainTree) (Sample.instance (Ok tt))
      [("name", "world"); ("title", "a<b")]
      (fst (Sample.destroy Sample.plainTree Sample.generatedWorld)) = (wb, Ok []) /\
    Sample.destroy Sample.plainTree
      (fst (Sample.destroy Sample.plainTree Sample.generatedWorld)) =
      (w2, snd (Sample.destroy Sample.plainTree Sample.generatedWorld)) /\
    files w2 = files (fst (Sample.destroy Sample.plainTree Sample.generatedWorld)).
Proof.
  apply (destroy_again_deletes_nothing (list (string * string)) unit
           Sample.evalExpr Sample.runScript Sample.path_join Sample.cwd Sample.dirnames
           (Sample.walkOf Sample.plainTree) (Sample.instance (Ok tt)) tt
           Sample.generatedWorld
           (fst (Sample.destroy Sample.plainTree Sample.generatedWorld))
           (snd (Sample.destroy Sample.plainTree Sample.generatedWorld))
           [("name", "world"); ("title", "a<b")] "/bp/greeter/files" Sample.plainTree
           (fst (filesToDelete (list (string * string)) unit
                   Sample.evalExpr Sample.runScript Sample.path_join Sample.cwd
                   (Sample.walkOf Sample.plainTree) (Sample.instance (Ok tt))
                   [("name", "world"); ("title", "a<b")] Sample.generatedWorld))
           ["/app/app/world.js"]).
  - reflexivity.
  - vm_compute; reflexivity.
  - reflexivity.
  - vm_compute; reflexivity.
  - vm_compute; reflexivity.
Defined.

Lemma destroy_propagates_postUninstall_witness :
  exists w',
    destroy (list (string * string)) unit
      Sample.evalExpr Sample.runScript Sample.path_join Sample.cwd Sample.dirnames
      (Sample.walkOf Sample.plainTree) (Cases.uninstalling (Throw (VStr "busy"))) tt
      Sample.generatedWorld = (w', Throw (VStr "busy")) /\
    forall p,
      files w' !! p =
      if bool_decide (p ∈ ["/app/app/world.js"]) then None
      else files (fst (filesToDelete (list (string * string)) unit
                         Sample.evalExpr Sample.runScript Sample.path_join Sample.cwd
                         (Sample.walkOf Sample.plainTree)
                         (Cases.uninstalling (Throw (VStr "busy")))
                         [("name", "world"); ("title", "a<b")] Sample.generatedWorld)) !! p.
Proof.
  apply (destroy_propagates_postUninstall (list (string * string)) unit
           Sample.evalExpr Sample.runScript Sample.path_join Sample.cwd Sample.dirnames
           (Sample.walkOf Sample.plainTree) (Cases.uninstalling (Throw (VStr "busy"))) tt
           Sample.generatedWorld
           (fst (filesToDelete (list (string * string)) unit
                   Sample.evalExpr Sample.runScript Sample.path_join Sample.cwd
                   (Sample.walkOf Sample.plainTree)
                   (Cases.uninstalling (Throw (VStr "busy")))
                   [("name", "world"); ("title", "a<b")] Sample.generatedWorld))
           [("name", "world"); ("title", "a<b")] ["/app/app/world.js"] (VStr "busy")).
  - reflexivity.
  - vm_compute; reflexivity.
  - reflexivity.
Defined.

Lemma destroy_writes_no_file_witness :
  files Sample.generatedWorld !! "/app/README" = Some "notes".
Proof.
  apply (destroy_writes_no_file (list (string * string)) unit
           Sample.evalExpr Sample.runScript Sample.path_join Sample.cwd Sample.dirnames
           (Sample.walkOf Sample.plainTree) (Sample.instance (Ok tt)) tt
           Sample.generatedWorld
           (fst (Sample.destroy Sample.plainTree Sample.generatedWorld))
           (snd (Sample.destroy Sample.plainTree Sample.generatedWorld))
           "/app/README" "notes").
  - vm_compute; reflexivity.
  - vm_compute; reflexivity.
Defined.

Lemma discovery_throws_on_unloadable_blueprint_witness :
  exists w',
    discoverBlueprintsForAddon Sample.path_join Cases.readdirSync
      [] "broken" "/addons/broken/blueprints" Sample.discoveryWorld =
    (w', Throw engineError).
Proof.
  apply (discovery_throws_on_unloadable_blueprint Sample.path_join Cases.readdirSync
           [] "broken" "/addons/broken/blueprints" Cases.brokenEntries Sample.discoveryWorld
           {| d_name := "docs"; d_isDirectory := true; d_module := None |}).
  - reflexivity.
  - right; left; reflexivity.
  - reflexivity.
  - reflexivity.
Defined.

Lemma discovery_keeps_other_names_witness :
  exists all,
    Sample.discover [("foo", 0)] "shop" "/addons/shop/blueprints" Sample.discoveryWorld =
      (fst (loadBlueprints Sample.path_join "shop" "/addons/shop/blueprints"
              Sample.shopEntries Sample.discoveryWorld), Ok (all, all)) /\
    obj_get all "foo" = obj_get [("foo", 0)] "foo".
Proof.
  apply (discovery_keeps_other_names Sample.path_join Sample.readdirSync
           [("foo", 0)] "shop" "/addons/shop/blueprints" Sample.shopEntries
           Sample.discoveryWorld
           (fst (loadBlueprints Sample.path_join "shop" "/addons/shop/blueprints"
                   Sample.shopEntries Sample.discoveryWorld))
           [("cart", 11)] "foo").
  - reflexivity.
  - vm_compute; reflexivity.
  - reflexivity.
  - reflexivity.
Defined.

Lemma discovery_assigns_dir_and_addon_witness :
  (forall d m, In d Sample.shopEntries -> d_isDirectory d = true -> d_module d = Some m ->
     addon (heap_get
              (heap (fst (loadBlueprints Sample.path_join "shop" "/addons/shop/blueprints"
                            Sample.shopEntries Sample.discoveryWorld))) m) = Some "shop") /\
  (forall k c, obj_get [("cart", 11)] k = Some c ->
     exists d, In d Sample.shopEntries /\ d_isDirectory d = true /\
       exported
         (heap (fst (loadBlueprints Sample.path_join "shop" "/addons/shop/blueprints"
                       Sample.shopEntries Sample.discoveryWorld))) d = Some c /\
       dir (heap_get
              (heap (fst (loadBlueprints Sample.path_join "shop" "/addons/shop/blueprints"
                            Sample.shopEntries Sample.discoveryWorld))) c) =
         Some (Sample.path_join "/addons/shop/blueprints" (d_name d))).
Proof.
  apply (discovery_assigns_dir_and_addon Sample.path_join Sample.readdirSync
           "shop" "/addons/shop/blueprints" Sample.shopEntries Sample.discoveryWorld
           (fst (loadBlueprints Sample.path_join "shop" "/addons/shop/blueprints"
                   Sample.shopEntries Sample.discoveryWorld))
           [("cart", 11)]).
  vm_compute; reflexivity.
Defined.

Lemma addRoute_inserts_after_last_invocation_witness :
  at_path ([1; 1; 0; 1; 3] ++ [1; 0]) (Sample.routesFile [Sample.indexRoute])
    = Some Sample.indexRoute /\
  at_path ([1; 1; 0; 1; 3] ++ [1; 0])
    (Sample.routesFile
       [Sample.indexRoute;
        Sample.call "router" "get" [typed "StringLiteral" [("value", AVal (VStr "extra"))]]])
    = Some Sample.indexRoute /\
  exists object property routerArguments,
    identifier (VStr "router") = Ok object /\
    identifier (VStr "get") = Ok property /\
    mapResult stringLiteral [VStr "extra"] = Ok routerArguments /\
    at_path (next_sibling ([1; 1; 0; 1; 3] ++ [1; 0]))
      (Sample.routesFile
         [Sample.indexRoute;
          Sample.call "router" "get" [typed "StringLiteral" [("value", AVal (VStr "extra"))]]])
    = Some (expressionStatement
              (callExpression (memberExpression object property) routerArguments)).
Proof.
  apply (addRoute_inserts_after_last_invocation "get" "/posts" (Some "posts/list")
           [VStr "extra"] (Sample.routesFile [Sample.indexRoute])
           {| routerArgName := VStr "router";
              bodyPath := [1; 1; 0; 1; 3];
              drawRoutesFunctionBody :=
                typed "BlockStatement" [("body", AList [Sample.indexRoute])] |}
           [1; 0] Sample.indexRoute).
  - reflexivity.
  - reflexivity.
  - reflexivity.
Defined.

Lemma addRoute_longer_call_is_duplicate_witness :
  addRoute Sample.path_join Sample.cwd Cases.parse Sample.toSource
    "get" "/" (Some "index") [] (Cases.routesWorld Cases.longSource)
  = (Cases.routesWorld Cases.longSource, Ok tt).
Proof.
  apply (addRoute_longer_call_is_duplicate Sample.path_join Sample.cwd Cases.parse
           Sample.toSource "get" "/" (Some "index") [] (Cases.routesWorld Cases.longSource)
           Cases.longSource
           (Sample.routesFile [Cases.longRoute])
           {| routerArgName := VStr "router";
              bodyPath := [1; 1; 0; 1; 3];
              drawRoutesFunctionBody :=
                typed "BlockStatement" [("body", AList [Cases.longRoute])] |}
           [1; 0] Cases.longRoute).
  - reflexivity.
  - reflexivity.
  - reflexivity.
  - right; right; left; reflexivity.
  - unfold routerInvocationFrom, Cases.longRoute, Sample.call. do 5 eexists.
    exists [Sample.literal "/"; Sample.literal "index"], [Sample.literal "extra"].
    split; [reflexivity|]. repeat (split; [reflexivity|]).
    repeat constructor; eexists; (split; [reflexivity|reflexivity]).
Defined.

Lemma addRoute_without_invocations_adds_nothing_witness :
  addRoute Sample.path_join Sample.cwd Cases.parse Sample.toSource
    "get" "/posts" (Some "posts/list") [VStr "extra"] (Cases.routesWorld Cases.emptySource)
  = (set_files
       (<[routesFilepath Sample.path_join Sample.cwd :=
            Sample.toSource true (Sample.routesFile [])]>
          (files (Cases.routesWorld Cases.emptySource)))
       (Cases.routesWorld Cases.emptySource), Ok tt).
Proof.
  apply (addRoute_without_invocations_adds_nothing Sample.path_join Sample.cwd
           Cases.parse Sample.toSource "get" "/posts" (Some "posts/list")
           [VStr "extra"] (Cases.routesWorld Cases.emptySource)
           Cases.emptySource
           (Sample.routesFile [])
           {| routerArgName := VStr "router";
              bodyPath := [1; 1; 0; 1; 3];
              drawRoutesFunctionBody := typed "BlockStatement" [("body", AList [])] |}
           "router").
  - reflexivity.
  - reflexivity.
  - reflexivity.
  - reflexivity.
  - reflexivity.
  - reflexivity.
Defined.

Lemma generate_makes_parent_directories_witness :
  "/app" ∈ dirs (fst (Sample.generate Sample.plainTree (Ok tt) Sample.classWorld)) /\
  "/app/app" ∈ dirs (fst (Sample.generate Sample.plainTree (Ok tt) Sample.classWorld)) /\
  files (fst (Sample.generate Sample.plainTree (Ok tt) Sample.classWorld)) !! "/app/app" = None.
Proof.
  destruct (generate_makes_parent_directories (list (string * string)) unit
              Sample.evalExpr Sample.runScript Sample.path_join Sample.cwd Sample.dirnames
              Sample.compiles (Sample.walkOf Sample.plainTree) (Sample.instance (Ok tt)) tt
              Sample.classWorld
              (fst (Sample.generate Sample.plainTree (Ok tt) Sample.classWorld))
              (snd (Sample.generate Sample.plainTree (Ok tt) Sample.classWorld)))
    as [Hkeep Hmade].
  - vm_compute; reflexivity.
  - split.
    + apply Hkeep. unfold Sample.classWorld. cbn [dirs]. set_solver.
    + apply (Hmade "/app/app/world.js" "hello world!").
      * vm_compute; reflexivity.
      * vm_compute; reflexivity.
      * apply list_elem_of_In. vm_compute. left; reflexivity.
Defined.

Lemma generate_rejects_below_regular_file_witness :
  (exists e, snd (Sample.generate Sample.plainTree (Ok tt) Cases.blockedWorld) = Throw e) /\
  onDiskAt (fst (Sample.generate Sample.plainTree (Ok tt) Cases.blockedWorld))
    "/app/app/world.js" = false.
Proof.
  apply (generate_rejects_below_regular_file (list (string * string)) unit
           Sample.evalExpr Sample.runScript Sample.path_join Sample.cwd Sample.dirnames
           Sample.compiles (Sample.walkOf Sample.plainTree) (Sample.instance (Ok tt)) tt
           Cases.blockedWorld
           (fst (Sample.generate Sample.plainTree (Ok tt) Cases.blockedWorld))
           (snd (Sample.generate Sample.plainTree (Ok tt) Cases.blockedWorld))
           [("name", "world"); ("title", "a<b")] "/bp/greeter/files" Sample.plainTree
           "app/__name__.js" "hello <%= name %>!" "app/world.js" "/app/app").
  - reflexivity.
  - vm_compute; reflexivity.
  - reflexivity.
  - right; left; reflexivity.
  - vm_compute; reflexivity.
  - vm_compute; reflexivity.
  - apply list_elem_of_In. vm_compute. left; reflexivity.
  - vm_compute. by eexists.
  - intros rel' contents' destRel' [Heq|[Heq|[]]]; inversion Heq; subst.
    intros Hname. vm_compute in Hname. inversion Hname; subst. intros _.
    apply list_elem_of_In. vm_compute. left; reflexivity.
  - vm_compute; reflexivity.
Defined.

